(** * CD_Parser: the [Xpath] facade of [cd_parser/xpath.py]

    The facade wraps a parsed lxml tree and an optional base URL.  Every
    method formats an XPath expression, hands it to lxml and lightly
    post-processes the answer.  The two lxml services (the markup parsers
    and the XPath engine) are collaborators outside the repository: the
    facade is embedded as a program over calls to them, and a handler gives
    the calls a meaning. *)

From Stdlib Require Import List String Ascii Bool Arith ZArith Lia.
From Stdlib Require Import Numbers.DecimalString.
From Stdlib Require Import Sorting.Permutation.
From Stdlib Require Import Numbers.DecimalPos.
Import ListNotations.
Local Open Scope string_scope.
Local Open Scope list_scope.
Set Warnings "-register-all".

(** ** Python strings

    A [str] is a sequence of code points; the model keeps the code points
    below 256, one per [ascii]. *)
Module PyStr.

(** [str.startswith]. *)
Definition startswith (s p : string) : bool := String.prefix p s.

(** The code points below 256 on which [str.isspace] holds: TAB..CR,
    FS..US, SPACE, NEL and NBSP. *)
Definition isspace (c : ascii) : bool :=
  let n := nat_of_ascii c in
  (((9 <=? n) && (n <=? 13)) || ((28 <=? n) && (n <=? 32))
   || (n =? 133) || (n =? 160))%nat.

Fixpoint lstrip (s : string) : string :=
  match s with
  | EmptyString => EmptyString
  | String c s' => if isspace c then lstrip s' else s
  end.

Fixpoint rstrip (s : string) : string :=
  match s with
  | EmptyString => EmptyString
  | String c s' =>
      match rstrip s' with
      | EmptyString => if isspace c then EmptyString else String c EmptyString
      | r => String c r
      end
  end.

(** [str.strip()] with no argument. *)
Definition strip (s : string) : string := rstrip (lstrip s).

(** Truth value of a [str]: only the empty string is falsy. *)
Definition truthy (s : string) : bool :=
  match s with EmptyString => false | String _ _ => true end.

(** Every character is whitespace (the empty string included). *)
Fixpoint all_space (s : string) : bool :=
  match s with
  | EmptyString => true
  | String c s' => isspace c && all_space s'
  end.

(** The first, the last character is whitespace. *)
Definition head_space (s : string) : bool :=
  match s with
  | EmptyString => false
  | String c _ => isspace c
  end.

Fixpoint last_space (s : string) : bool :=
  match s with
  | EmptyString => false
  | String c EmptyString => isspace c
  | String _ s' => last_space s'
  end.

(** [ch in s] for a character. *)
Fixpoint contains_char (ch : ascii) (s : string) : bool :=
  match s with
  | EmptyString => false
  | String c s' => Ascii.eqb c ch || contains_char ch s'
  end.

(** The decimal digits of an [int], with [-] before those of a negative
    one. *)
Definition decimal (n : Z) : string := NilEmpty.string_of_int (Z.to_int n).

(** The number of its decimal digits, the sign not counted. *)
Definition digits (n : Z) : nat :=
  match Z.to_int n with
  | Decimal.Pos d | Decimal.Neg d => Decimal.nb_digits d
  end.

(** The longest [int] that CPython converts to a [str], in digits:
    [sys.get_int_max_str_digits()], which is 4300 unless the interpreter
    is told otherwise. *)
Definition max_str_digits : nat := 4300.

(** [str(n)] for an [int], which is also what [f"{n}"] formats: the
    decimal digits, or nothing for an [int] of more digits than the
    limit, where the conversion raises [ValueError]. *)
Definition of_int (n : Z) : option string :=
  if (digits n <=? max_str_digits)%nat then Some (decimal n) else None.

(** A [str] that lxml takes as an argument: one without a control
    character other than TAB, LF and CR.  For any other [str] lxml
    raises [ValueError] before the string reaches libxml2. *)
Definition xml_char (c : ascii) : bool :=
  let n := nat_of_ascii c in
  ((32 <=? n) || (n =? 9) || (n =? 10) || (n =? 13))%nat.

Fixpoint xml_compatible (s : string) : bool :=
  match s with
  | EmptyString => true
  | String c s' => xml_char c && xml_compatible s'
  end.

End PyStr.

(** ** The lxml tree

    An element as the lxml API shows it: tag, attributes in document
    order, the text before the first child, the children, and the text
    that follows the element's end tag. *)
Inductive Element : Type :=
  mkElement (tag : string) (attrib : list (string * string))
            (text : option string) (children : list Element)
            (tail : option string).

Definition tag (e : Element) : string :=
  let 'mkElement t _ _ _ _ := e in t.
Definition attrib (e : Element) : list (string * string) :=
  let 'mkElement _ a _ _ _ := e in a.
Definition text (e : Element) : option string :=
  let 'mkElement _ _ x _ _ := e in x.
Definition children (e : Element) : list Element :=
  let 'mkElement _ _ _ c _ := e in c.
Definition tail (e : Element) : option string :=
  let 'mkElement _ _ _ _ x := e in x.

(** [element.get(name)]: the attribute's value, [None] when absent. *)
Fixpoint assoc (name : string) (l : list (string * string)) : option string :=
  match l with
  | [] => None
  | (k, v) :: l' => if String.eqb k name then Some v else assoc name l'
  end.

Definition get (e : Element) (name : string) : option string :=
  assoc name (attrib e).

Definition opt_str (o : option string) : string :=
  match o with Some s => s | None => EmptyString end.

(** All the text an element renders: its own text and, for each child,
    the child's rendered text and tail ([text_content()]). *)
Fixpoint text_content (e : Element) : string :=
  let 'mkElement _ _ x cs _ := e in
  (opt_str x ++
   concat EmptyString
     (map (fun c => text_content c ++ opt_str (tail c)) cs))%string.

(** The elements of a tree in document order, the root first
    ([element.iter()]). *)
Fixpoint iter (e : Element) : list Element :=
  let 'mkElement _ _ _ cs _ := e in
  e :: flat_map iter cs.

(** Some attribute of [e] has this name and this value. *)
Definition has_attribute (e : Element) (name value : string) : bool :=
  existsb (fun kv => (fst kv =? name) && (snd kv =? value)) (attrib e).

(** ** Python values and exceptions *)

(** An item of an XPath answer: an element, or a string (an attribute
    value or a text node). *)
Inductive pyobj : Type :=
| PyElement (e : Element)
| PyString (s : string).

Inductive exn : Type :=
| ValueError (msg : string)
| AttributeError (name : string)
| TypeError (name : string)
| XMLSyntaxError (msg : string)
| ParserError (msg : string)
| XPathEvalError (msg : string).

Definition Exc (A : Type) : Type := (exn + A)%type.

(** A [dict] with [str] keys: the entries in insertion order.  Assigning
    to a key that is present replaces the value where the key stands. *)
Module PyDict.
Section Dict.
Context {V : Type}.

Definition t : Type := list (string * V).

Fixpoint set (d : t) (k : string) (v : V) : t :=
  match d with
  | [] => [(k, v)]
  | (k', v') :: d' =>
      if String.eqb k' k then (k', v) :: d' else (k', v') :: set d' k v
  end.

Fixpoint lookup (d : t) (k : string) : option V :=
  match d with
  | [] => None
  | (k', v') :: d' => if String.eqb k' k then Some v' else lookup d' k
  end.

Definition keys (d : t) : list string := map fst d.

(** The entries stored under one key. *)
Definition entries (d : t) (k : string) : list (string * V) :=
  filter (fun kv => String.eqb (fst kv) k) d.

(** Assigning the pairs of a list, from left to right. *)
Definition fill (d : t) (kvs : list (string * V)) : t :=
  fold_left (fun d kv => set d (fst kv) (snd kv)) kvs d.
End Dict.
Arguments t V : clear implicits.
End PyDict.

(** ** Programs over lxml

    A facade operation is a program that may call the markup parsers and
    the XPath engine.  Each call either raises or answers. *)
Inductive call : Type -> Type :=
| etree_fromstring (content : string) : call Element
| html_fromstring (content : string) : call Element
| xpath (t : Element) (path : string) : call (list pyobj).

Inductive Py (A : Type) : Type :=
| Ret (a : A)
| Call {X : Type} (c : call X) (k : Exc X -> Py A).
Arguments Ret {A} a.
Arguments Call {A X} c k.

Fixpoint pbind {A B} (p : Py A) (f : A -> Py B) : Py B :=
  match p with
  | Ret a => f a
  | Call c k => Call c (fun r => pbind (k r) f)
  end.

(** What stands behind the calls. *)
Definition lxml : Type := forall X, call X -> Exc X.

Fixpoint run {A} (h : lxml) (p : Py A) : A :=
  match p with
  | Ret a => a
  | Call c k => run h (k (h _ c))
  end.

(** The calls a program makes, in order, with one name per call kind. *)
Inductive event : Type :=
| ParsedXml (content : string)
| ParsedHtml (content : string)
| Queried (t : Element) (path : string).

Definition event_of {X} (c : call X) : event :=
  match c with
  | etree_fromstring s => ParsedXml s
  | html_fromstring s => ParsedHtml s
  | xpath t q => Queried t q
  end.

Fixpoint trace {A} (h : lxml) (p : Py A) : list event :=
  match p with
  | Ret _ => []
  | Call c k => event_of c :: trace h (k (h _ c))
  end.

(** ** The facade object and its methods

    The object holds the tree and the base URL ([None] or a [str]).  A
    method runs against the object, ends by returning or raising, and
    leaves an object behind either way. *)
Record Xpath : Type := mkXpath {
  self_tree : Element;
  self_base_url : option string
}.

Definition M (A : Type) : Type := Xpath -> Py (Exc A * Xpath).

Definition ret {A} (a : A) : M A := fun self => Ret (inr a, self).
Definition raise {A} (e : exn) : M A := fun self => Ret (inl e, self).
Definition bind {A B} (m : M A) (f : A -> M B) : M B :=
  fun self =>
    pbind (m self) (fun rs =>
      match fst rs with
      | inl e => Ret (inl e, snd rs)
      | inr a => f a (snd rs)
      end).
Definition getattr {A} (field : Xpath -> A) : M A :=
  fun self => Ret (inr (field self), self).
Definition invoke {X} (c : call X) : M X :=
  fun self => Call c (fun r => Ret (r, self)).

Declare Scope py_scope.
Delimit Scope py_scope with py.
Notation "x <- m ;; k" := (bind m (fun x => k))
  (at level 100, m at next level, right associativity) : py_scope.
Local Open Scope py_scope.

(** A list comprehension [[out(x) for x in xs if cond(x)]]. *)
Fixpoint comprehension {A B} (cond : A -> M bool) (out : A -> M B)
         (xs : list A) : M (list B) :=
  match xs with
  | [] => ret []
  | x :: xs' =>
      c <- cond x ;;
      if (c : bool) then
        y <- out x ;;
        ys <- comprehension cond out xs' ;;
        ret (y :: ys)
      else comprehension cond out xs'
  end.

(** A dict comprehension [{key(x): val(x) for x in xs if cond(x)}],
    filling [d] from left to right. *)
Fixpoint dict_comprehension {A V} (cond : A -> M bool) (key : A -> M string)
         (val : A -> M V) (xs : list A) (d : PyDict.t V) : M (PyDict.t V) :=
  match xs with
  | [] => ret d
  | x :: xs' =>
      c <- cond x ;;
      if (c : bool) then
        k <- key x ;;
        v <- val x ;;
        dict_comprehension cond key val xs' (PyDict.set d k v)
      else dict_comprehension cond key val xs' d
  end.

(** Attribute and method lookups on the items of an XPath answer.  A
    lookup the item's type does not have raises [AttributeError]. *)
Definition str_strip (o : pyobj) : M string :=
  match o with
  | PyString s => ret (PyStr.strip s)
  | PyElement _ => raise (AttributeError "strip")
  end.

Definition str_startswith (o : pyobj) (p : option string) : M bool :=
  match o with
  | PyString s =>
      match p with
      | Some p => ret (PyStr.startswith s p)
      | None => raise (TypeError "startswith")
      end
  | PyElement _ => raise (AttributeError "startswith")
  end.

Definition element_text (o : pyobj) : M (option string) :=
  match o with
  | PyElement e => ret (text e)
  | PyString _ => raise (AttributeError "text")
  end.

Definition element_get (o : pyobj) (name : string) : M (option string) :=
  match o with
  | PyElement e => ret (get e name)
  | PyString _ => raise (AttributeError "get")
  end.

(** Truth value of [None] or a [str]. *)
Definition truth (o : option string) : bool :=
  match o with
  | None => false
  | Some s => PyStr.truthy s
  end.

(** *** [Xpath.__init__] *)
Definition __init__ (content content_type : string)
           (base_url : option string) : Py (Exc Xpath) :=
  if content_type =? "xml" then
    Call (etree_fromstring content) (fun r =>
      match r with
      | inl e => Ret (inl e)
      | inr t => Ret (inr (mkXpath t base_url))
      end)
  else if content_type =? "html" then
    Call (html_fromstring content) (fun r =>
      match r with
      | inl e => Ret (inl e)
      | inr t => Ret (inr (mkXpath t base_url))
      end)
  else
    Ret (inl (ValueError "Invalid content_type. Choose either 'xml' or 'html'.")).

(** [self.tree.xpath(path)] *)
Definition tree_xpath (path : string) : M (list pyobj) :=
  t <- getattr self_tree ;;
  invoke (xpath t path).

(** *** The tag, attribute and text queries *)
Definition get_nodes_by_tag (tagname : string) : M (list pyobj) :=
  tree_xpath ("//" ++ tagname).

Definition get_nodes_by_attribute (tagname attribute value : string)
  : M (list pyobj) :=
  tree_xpath ("//" ++ tagname ++ "[@" ++ attribute ++ "='" ++ value ++ "']").

Definition get_nodes_by_text (tagname text : string) : M (list pyobj) :=
  tree_xpath ("//" ++ tagname ++ "[text()='" ++ text ++ "']").

(** The [ValueError] of [str(n)] for an [int] of too many digits. *)
Definition str_digits_error : exn :=
  ValueError "Exceeds the limit (4300 digits) for integer string conversion; use sys.set_int_max_str_digits() to increase the limit".

(** [f"{n}"] for an [int]. *)
Definition format_int (n : Z) : M string :=
  match PyStr.of_int n with
  | Some s => ret s
  | None => raise str_digits_error
  end.

(** The f-string is formatted before [tree.xpath] is called: when the
    formatting raises, no query is made. *)
Definition get_nth_child (parent child : string) (n : Z) : M (list pyobj) :=
  s <- format_int n ;;
  tree_xpath ("//" ++ parent ++ "/" ++ child ++ "[" ++ s ++ "]").

Definition get_nodes_containing_text (tagname text : string)
  : M (list pyobj) :=
  tree_xpath ("//" ++ tagname ++ "[contains(text(), '" ++ text ++ "')]").

Definition get_nodes_by_attribute_containing_text
           (tagname attribute text : string) : M (list pyobj) :=
  tree_xpath
    ("//" ++ tagname ++ "[contains(@" ++ attribute ++ ", '" ++ text ++ "')]").

Definition get_nodes_by_class (classname : string) : M (list pyobj) :=
  tree_xpath ("//*[@class='" ++ classname ++ "']").

Definition get_nodes_by_id (element_id : string) : M (list pyobj) :=
  tree_xpath ("//*[@id='" ++ element_id ++ "']").

Definition get_nodes_by_data_attribute (attribute value : string)
  : M (list pyobj) :=
  tree_xpath ("//*[@data-" ++ attribute ++ "='" ++ value ++ "']").

Definition get_nodes_by_name (name : string) : M (list pyobj) :=
  tree_xpath ("//*[@name='" ++ name ++ "']").

(** *** The extraction helpers *)
Definition get_article_text : M (list string) :=
  articles <- tree_xpath "//article//text()" ;;
  comprehension
    (fun text => s <- str_strip text ;; ret (PyStr.truthy s))
    (fun text => str_strip text)
    articles.

Definition get_images : M (list pyobj) := tree_xpath "//img/@src".

Definition get_links : M (list pyobj) := tree_xpath "//a/@href".

(** The key is [anchor.text], which the condition has found to be a
    non-empty [str]. *)
Definition get_links_with_text : M (PyDict.t (option string)) :=
  anchors <- tree_xpath "//a" ;;
  dict_comprehension
    (fun anchor => x <- element_text anchor ;; ret (truth x))
    (fun anchor => x <- element_text anchor ;; ret (opt_str x))
    (fun anchor => element_get anchor "href")
    anchors [].

(** *** The link classification *)

(** [link.startswith("http://") or link.startswith("https://")] *)
Definition is_http (link : pyobj) : M bool :=
  a <- str_startswith link (Some "http://") ;;
  if (a : bool) then ret true else str_startswith link (Some "https://").

Definition get_outbound_links_only : M (list pyobj) :=
  all_links <- get_links ;;
  base_url <- getattr self_base_url ;;
  if negb (truth base_url) then
    comprehension is_http ret all_links
  else
    comprehension
      (fun link =>
         a <- is_http link ;;
         if (a : bool) then
           b <- str_startswith link base_url ;; ret (negb b)
         else ret false)
      ret all_links.

Definition get_internal_links_only : M (list pyobj) :=
  all_links <- get_links ;;
  base_url <- getattr self_base_url ;;
  if negb (truth base_url) then
    raise (ValueError
             "Base URL is not provided. Cannot determine internal links.")
  else
    comprehension (fun link => str_startswith link base_url) ret all_links.

(** ** The XPath engine behind [tree.xpath] *)

(** Modelled from the spec: the path-query evaluator, an external
    collaborator (lxml's XPath 1.0 engine) that is not part of the
    repository.  It takes the tree and an expression string, answers the
    ordered sequence of matches, and reports a malformed expression as an
    error, distinct from an empty answer.  The model follows XPath 1.0 on
    the fragment the facade's templates produce: abbreviated location
    paths over the child and attribute axes, name, [*] and [text()]
    tests, predicates that are a position or an expression built from
    paths, literals, [=], [and], [or] and [contains].  Expressions
    outside the fragment (other axes, functions and operators, numbers in
    expressions, unions, values that are no node-set) are not modelled:
    [evaluate] answers them with an error as well, and nothing below
    relies on that. *)
Module XPath1.

(** *** Tokens *)
Inductive token : Type :=
| TSlash | TDSlash | TStar | TAt | TLBrack | TRBrack
| TLParen | TRParen | TComma | TEq | TMinus
| TName (s : string) | TLit (s : string) | TNum (n : nat).

Inductive mode : Type :=
| Idle
| AfterSlash
| InName (acc : string)
| InNum (acc : nat)
| InLit (quote : ascii) (acc : string).

Definition between (lo hi : nat) (c : ascii) : bool :=
  let n := nat_of_ascii c in ((lo <=? n) && (n <=? hi))%nat.

Definition is_digit (c : ascii) : bool := between 48 57 c.
Definition is_letter (c : ascii) : bool :=
  between 65 90 c || between 97 122 c || Ascii.eqb c "_".
Definition is_name_char (c : ascii) : bool :=
  is_letter c || is_digit c || Ascii.eqb c "-" || Ascii.eqb c ".".
Definition is_blank (c : ascii) : bool :=
  let n := nat_of_ascii c in
  ((n =? 32) || (n =? 9) || (n =? 10) || (n =? 13))%nat.
Definition digit_value (c : ascii) : nat := nat_of_ascii c - 48.

Definition snoc (s : string) (c : ascii) : string :=
  (s ++ String c EmptyString)%string.

Definition dquote : ascii := ascii_of_nat 34.

(** One character read between tokens. *)
Definition idle (c : ascii) : option (list token * mode) :=
  if is_blank c then Some ([], Idle)
  else if Ascii.eqb c "/" then Some ([], AfterSlash)
  else if Ascii.eqb c "*" then Some ([TStar], Idle)
  else if Ascii.eqb c "@" then Some ([TAt], Idle)
  else if Ascii.eqb c "[" then Some ([TLBrack], Idle)
  else if Ascii.eqb c "]" then Some ([TRBrack], Idle)
  else if Ascii.eqb c "(" then Some ([TLParen], Idle)
  else if Ascii.eqb c ")" then Some ([TRParen], Idle)
  else if Ascii.eqb c "," then Some ([TComma], Idle)
  else if Ascii.eqb c "=" then Some ([TEq], Idle)
  else if Ascii.eqb c "-" then Some ([TMinus], Idle)
  else if Ascii.eqb c "'" then Some ([], InLit c EmptyString)
  else if Ascii.eqb c dquote then Some ([], InLit c EmptyString)
  else if is_digit c then Some ([], InNum (digit_value c))
  else if is_letter c then Some ([], InName (String c EmptyString))
  else None.

(** A token in progress ends: [t] is emitted, [c] is read afresh. *)
Definition flush (t : token) (c : ascii) : option (list token * mode) :=
  match idle c with
  | Some (ts, m) => Some (t :: ts, m)
  | None => None
  end.

Definition feed (m : mode) (c : ascii) : option (list token * mode) :=
  match m with
  | Idle => idle c
  | AfterSlash =>
      if Ascii.eqb c "/" then Some ([TDSlash], Idle) else flush TSlash c
  | InName acc =>
      if is_name_char c then Some ([], InName (snoc acc c))
      else flush (TName acc) c
  | InNum acc =>
      if is_digit c then Some ([], InNum (10 * acc + digit_value c))
      else flush (TNum acc) c
  | InLit q acc =>
      if Ascii.eqb c q then Some ([TLit acc], Idle)
      else Some ([], InLit q (snoc acc c))
  end.

Definition finish (m : mode) : option (list token) :=
  match m with
  | Idle => Some []
  | AfterSlash => Some [TSlash]
  | InName acc => Some [TName acc]
  | InNum acc => Some [TNum acc]
  | InLit _ _ => None
  end.

Fixpoint lex (m : mode) (s : string) : option (list token) :=
  match s with
  | EmptyString => finish m
  | String c s' =>
      match feed m c with
      | Some (ts, m') =>
          match lex m' s' with
          | Some ts' => Some (ts ++ ts')
          | None => None
          end
      | None => None
      end
  end.

Definition tokenize (s : string) : option (list token) := lex Idle s.

(** *** Syntax *)
Inductive axis : Type := Child | Attribute.
Inductive nodetest : Type := NameTest (n : string) | AnyName | TextTest.

Inductive expr : Type :=
| ELit (s : string)
| EPath (absolute : bool) (steps : list step)
| EEq (a b : expr)
| EAnd (a b : expr)
| EOr (a b : expr)
| EContains (a b : expr)
with step : Type :=
| Step (deep : bool) (ax : axis) (t : nodetest) (preds : list pred)
with pred : Type :=
| PPos (n : Z)
| PExpr (e : expr).

(** *** Parser: recursive descent over the tokens *)
Definition parser (A : Type) : Type := list token -> option (A * list token).

Section Grammar.
(** The parser for a nested expression. *)
Variable expr_ : parser expr.

Definition pred_ : parser pred := fun ts =>
  match ts with
  | TNum n :: TRBrack :: ts' => Some (PPos (Z.of_nat n), ts')
  | TMinus :: TNum n :: TRBrack :: ts' => Some (PPos (- Z.of_nat n), ts')
  | _ =>
      match expr_ ts with
      | Some (e, TRBrack :: ts') => Some (PExpr e, ts')
      | _ => None
      end
  end.

Fixpoint preds_ (fuel : nat) : parser (list pred) := fun ts =>
  match ts with
  | TLBrack :: ts1 =>
      match fuel with
      | O => None
      | S fuel' =>
          match pred_ ts1 with
          | Some (p, ts2) =>
              match preds_ fuel' ts2 with
              | Some (ps, ts3) => Some (p :: ps, ts3)
              | None => None
              end
          | None => None
          end
      end
  | _ => Some ([], ts)
  end.

(** A step without its separator: the axis and the node test. *)
Definition test_ : parser (axis * nodetest) := fun ts =>
  match ts with
  | TAt :: TName n :: ts' => Some ((Attribute, NameTest n), ts')
  | TAt :: TStar :: ts' => Some ((Attribute, AnyName), ts')
  | TName n :: TLParen :: TRParen :: ts' =>
      if n =? "text" then Some ((Child, TextTest), ts') else None
  | TName _ :: TLParen :: _ => None
  | TName n :: ts' => Some ((Child, NameTest n), ts')
  | TStar :: ts' => Some ((Child, AnyName), ts')
  | _ => None
  end.

Definition step_ (deep : bool) : parser step := fun ts =>
  match test_ ts with
  | Some ((ax, t), ts1) =>
      match preds_ (List.length ts1) ts1 with
      | Some (ps, ts2) => Some (Step deep ax t ps, ts2)
      | None => None
      end
  | None => None
  end.

(** The steps that follow a first step, each behind [/] or [//]. *)
Fixpoint more_steps_ (fuel : nat) : parser (list step) := fun ts =>
  match ts with
  | TSlash :: ts1 | TDSlash :: ts1 =>
      match fuel with
      | O => None
      | S fuel' =>
          let deep := match ts with TDSlash :: _ => true | _ => false end in
          match step_ deep ts1 with
          | Some (s, ts2) =>
              match more_steps_ fuel' ts2 with
              | Some (ss, ts3) => Some (s :: ss, ts3)
              | None => None
              end
          | None => None
          end
      end
  | _ => Some ([], ts)
  end.

Definition path_ : parser expr := fun ts =>
  match ts with
  | TSlash :: _ | TDSlash :: _ =>
      match more_steps_ (List.length ts) ts with
      | Some (ss, ts') => Some (EPath true ss, ts')
      | None => None
      end
  | _ =>
      match step_ false ts with
      | Some (s, ts1) =>
          match more_steps_ (List.length ts1) ts1 with
          | Some (ss, ts2) => Some (EPath false (s :: ss), ts2)
          | None => None
          end
      | None => None
      end
  end.

Definition primary_ : parser expr := fun ts =>
  match ts with
  | TLit s :: ts' => Some (ELit s, ts')
  | TLParen :: ts1 =>
      match expr_ ts1 with
      | Some (e, TRParen :: ts2) => Some (e, ts2)
      | _ => None
      end
  | TName n :: TLParen :: ts1 =>
      if n =? "contains" then
        match expr_ ts1 with
        | Some (a, TComma :: ts2) =>
            match expr_ ts2 with
            | Some (b, TRParen :: ts3) => Some (EContains a b, ts3)
            | _ => None
            end
        | _ => None
        end
      else path_ ts
  | _ => path_ ts
  end.

(** [operand (op operand)*], folded to the left. *)
Fixpoint chain_ (operand : parser expr) (is_op : token -> bool)
         (mk : expr -> expr -> expr) (fuel : nat) (a : expr)
  : parser expr := fun ts =>
  match ts with
  | t :: ts1 =>
      if is_op t then
        match fuel with
        | O => None
        | S fuel' =>
            match operand ts1 with
            | Some (b, ts2) => chain_ operand is_op mk fuel' (mk a b) ts2
            | None => None
            end
        end
      else Some (a, ts)
  | [] => Some (a, ts)
  end.

Definition binary_ (operand : parser expr) (is_op : token -> bool)
           (mk : expr -> expr -> expr) : parser expr := fun ts =>
  match operand ts with
  | Some (a, ts1) => chain_ operand is_op mk (List.length ts1) a ts1
  | None => None
  end.

Definition is_eq (t : token) : bool :=
  match t with TEq => true | _ => false end.
Definition is_word (w : string) (t : token) : bool :=
  match t with TName n => n =? w | _ => false end.

Definition eq_ : parser expr := binary_ primary_ is_eq EEq.
Definition and_ : parser expr := binary_ eq_ (is_word "and") EAnd.
Definition or_ : parser expr := binary_ and_ (is_word "or") EOr.
End Grammar.

Fixpoint expr_ (fuel : nat) : parser expr :=
  match fuel with
  | O => fun _ => None
  | S fuel' => or_ (expr_ fuel')
  end.

(** The whole string is one expression. *)
Definition parse (s : string) : option expr :=
  match tokenize s with
  | Some ts =>
      match expr_ (S (List.length ts)) ts with
      | Some (e, []) => Some e
      | _ => None
      end
  | None => None
  end.

(** *** Data model

    The nodes an expression can select.  The text before the first
    child and the tails are the text nodes; an absent or empty text
    is no node. *)
Inductive xnode : Type :=
| NElement (e : Element)
| NText (s : string)
| NAttr (name value : string).

Definition string_value (x : xnode) : string :=
  match x with
  | NElement e => text_content e
  | NText s => s
  | NAttr _ v => v
  end.

Definition to_py (x : xnode) : pyobj :=
  match x with
  | NElement e => PyElement e
  | NText s => PyString s
  | NAttr _ v => PyString v
  end.

(** The children of a node are kept in slots, one for the leading text
    and two for every child element (the element, then its tail); the
    slot of an absent text is empty. *)
Definition slot : Type := option xnode.

Definition text_slot (o : option string) : slot :=
  match o with
  | Some (String c s) => Some (NText (String c s))
  | _ => None
  end.

Definition pair_slots (c : Element) : list slot :=
  [Some (NElement c); text_slot (tail c)].

Definition child_slots (e : Element) : list slot :=
  text_slot (text e) :: flat_map pair_slots (children e).

Definition attr_slots (e : Element) : list slot :=
  map (fun kv => Some (NAttr (fst kv) (snd kv))) (attrib e).

(** *** Steps with their predicates interpreted

    A predicate sees the node, its position and the size of the
    node list the step is filtering. *)
Definition predicate : Type := xnode -> nat -> nat -> bool.

Record sstep : Type := mkStep {
  s_deep : bool;
  s_axis : axis;
  s_test : nodetest;
  s_preds : list predicate
}.

Definition path : Type := list sstep.

Definition axis_eqb (a b : axis) : bool :=
  match a, b with
  | Child, Child | Attribute, Attribute => true
  | _, _ => false
  end.

Definition test_ok (t : nodetest) (k : slot) : bool :=
  match t, k with
  | NameTest n, Some (NElement e) => tag e =? n
  | NameTest n, Some (NAttr a _) => a =? n
  | AnyName, Some (NElement _) => true
  | AnyName, Some (NAttr _ _) => true
  | TextTest, Some (NText _) => true
  | _, _ => false
  end.

Definition count (l : list bool) : nat := List.length (filter id l).

(** One predicate over the slots still [alive]; [pos] is the position
    of the next live slot, [size] the number of live slots. *)
Fixpoint sift (p : predicate) (size pos : nat) (ks : list slot)
         (alive : list bool) : list bool :=
  match ks, alive with
  | k :: ks', a :: alive' =>
      if a then
        match k with
        | Some x => p x pos size
        | None => false
        end :: sift p size (S pos) ks' alive'
      else false :: sift p size pos ks' alive'
  | _, _ => []
  end.

(** The slots a step selects among [ks]. *)
Definition marks (s : sstep) (ks : list slot) : list bool :=
  fold_left (fun alive p => sift p (count alive) 1 ks alive)
            (s_preds s) (map (test_ok (s_test s)) ks).

(** For every slot, the rests of the active paths whose first step,
    on axis [ax], selects the slot. *)
Fixpoint conts (ax : axis) (active : list path) (ks : list slot)
  : list (list path) :=
  match active with
  | [] => map (fun _ => []) ks
  | [] :: active' => conts ax active' ks
  | (s :: rest) :: active' =>
      if axis_eqb (s_axis s) ax then
        map (fun bc : bool * list path => if fst bc then rest :: snd bc else snd bc)
            (combine (marks s ks) (conts ax active' ks))
      else conts ax active' ks
  end.

Definition is_nil {A} (l : list A) : bool :=
  match l with [] => true | _ => false end.

(** A slot is in the answer when some path ends on it. *)
Definition final (c : list path) : bool := existsb is_nil c.

Definition emit (c : list path) (k : slot) : list xnode :=
  match k with
  | Some x => if final c then [x] else []
  | None => []
  end.

(** The paths that go on below a node: those that reached it and
    those that may start at any depth. *)
Definition deep_head (p : path) : bool :=
  match p with
  | s :: _ => s_deep s
  | [] => false
  end.

Definition carry (active : list path) (c : list path) : list path :=
  filter (fun p => negb (is_nil p)) c ++ filter deep_head active.

Fixpoint emit_all (cs : list (list path)) (ks : list slot) : list xnode :=
  match cs, ks with
  | c :: cs', k :: ks' => emit c k ++ emit_all cs' ks'
  | _, _ => []
  end.

(** The children [l] of a node with their continuations [r], two per
    child: each child if it is in the answer, what [rec] finds below
    it, then its tail. *)
Section Walk.
Variable rec : list path -> Element -> list xnode.
Variable active : list path.

Fixpoint walk (l : list Element) (r : list (list path)) : list xnode :=
  match l, r with
  | c :: l', ce :: ct :: r' =>
      emit ce (Some (NElement c)) ++ rec (carry active ce) c ++
      emit ct (text_slot (tail c)) ++ walk l' r'
  | _, _ => []
  end.
End Walk.

(** [below active e]: the nodes under [e] that the paths [active] at
    [e] select, in document order: attributes, leading text, then
    each child with what lies below it, and its tail. *)
Fixpoint below (active : list path) (e : Element) : list xnode :=
  let 'mkElement tg at_ tx cs tl := e in
  let self := mkElement tg at_ tx cs tl in
  emit_all (conts Attribute active (attr_slots self)) (attr_slots self) ++
  match conts Child active (child_slots self) with
  | c0 :: rest => emit c0 (text_slot tx) ++ walk below active cs rest
  | [] => []
  end.

(** The same from the document node, whose one child is the root
    element. *)
Definition from_root (active : list path) (doc : Element) : list xnode :=
  match conts Child active [Some (NElement doc)] with
  | c :: _ => emit c (Some (NElement doc)) ++ below (carry active c) doc
  | [] => []
  end.

(** *** Values and expressions *)
Inductive xvalue : Type :=
| VNodes (l : list xnode)
| VStr (s : string)
| VBool (b : bool).

Definition as_bool (v : xvalue) : bool :=
  match v with
  | VNodes l => negb (is_nil l)
  | VStr s => PyStr.truthy s
  | VBool b => b
  end.

Definition as_string (v : xvalue) : string :=
  match v with
  | VNodes (x :: _) => string_value x
  | VNodes [] => ""
  | VStr s => s
  | VBool true => "true"
  | VBool false => "false"
  end.

Definition equal (a b : xvalue) : bool :=
  match a, b with
  | VNodes l1, VNodes l2 =>
      existsb (fun x => existsb (fun y => string_value x =? string_value y) l2) l1
  | VNodes l, VStr s | VStr s, VNodes l =>
      existsb (fun x => string_value x =? s) l
  | VStr s1, VStr s2 => s1 =? s2
  | _, _ => Bool.eqb (as_bool a) (as_bool b)
  end.

(** [contains(s, sub)] *)
Fixpoint substring (sub s : string) : bool :=
  String.prefix sub s ||
  match s with
  | EmptyString => false
  | String _ s' => substring sub s'
  end.

Section Denote.
Variable doc : Element.

Fixpoint denote (x : expr) (here : xnode) : xvalue :=
  match x with
  | ELit s => VStr s
  | EPath absolute steps =>
      let ss :=
        (fix steps_ (l : list step) : path :=
           match l with
           | [] => []
           | Step d ax t ps :: l' =>
               mkStep d ax t
                 ((fix preds_ (q : list pred) : list predicate :=
                     match q with
                     | [] => []
                     | PPos n :: q' =>
                         (fun _ pos _ => Z.eqb (Z.of_nat pos) n) :: preds_ q'
                     | PExpr e :: q' =>
                         (fun y _ _ => as_bool (denote e y)) :: preds_ q'
                     end) ps)
               :: steps_ l'
           end) steps in
      VNodes (if absolute then from_root [ss] doc
              else match here with
                   | NElement e => below [ss] e
                   | _ => []
                   end)
  | EEq a b => VBool (equal (denote a here) (denote b here))
  | EAnd a b => VBool (as_bool (denote a here) && as_bool (denote b here))
  | EOr a b => VBool (as_bool (denote a here) || as_bool (denote b here))
  | EContains a b =>
      VBool (substring (as_string (denote b here))
                       (as_string (denote a here)))
  end.
End Denote.

(** Modelled from the spec: [tree.xpath(q)], the matches of [q] in
    document order, or [XPathEvalError] for an expression that does not
    parse. *)
Definition evaluate (doc : Element) (q : string) : Exc (list pyobj) :=
  match parse q with
  | Some e =>
      match denote doc e (NElement doc) with
      | VNodes l => inr (map to_py l)
      | _ => inl (XPathEvalError "Unsupported result")
      end
  | None => inl (XPathEvalError "Invalid expression")
  end.

(** *** Two steps of the facade's templates *)

(** [@n]: the attributes of one name. *)
Definition attr_step (n : string) : sstep :=
  mkStep false Attribute (NameTest n) [].

(** [//*[p]]: the elements at any depth that pass [p]. *)
Definition star_step (p : predicate) : sstep :=
  mkStep true Child AnyName [p].

Definition on_slot (q : xnode -> bool) (k : slot) : bool :=
  match k with Some x => q x | None => false end.

(** What [//*[p]] leaves on a slot when [p] decides as [q]. *)
Definition hit (q : xnode -> bool) (k : slot) : list path :=
  if test_ok AnyName k && on_slot q k then [[]] else [].

(** *** Paths without predicates *)

(** The rests of the active paths whose first step is on axis [ax] and
    has a test that [k] passes. *)
Definition reach (ax : axis) (active : list path) (k : slot) : list path :=
  flat_map (fun p => match p with
                     | s :: rest =>
                         if axis_eqb (s_axis s) ax && test_ok (s_test s) k
                         then [rest] else []
                     | [] => []
                     end) active.

Definition plain_path (p : path) : Prop := Forall (fun s => s_preds s = []) p.

(** [//n]: the elements named [n] at any depth. *)
Definition name_step (n : string) : sstep :=
  mkStep true Child (NameTest n) [].

Definition named (n : string) (e : Element) : bool := tag e =? n.

(** The values of the attributes [a] of an element, and of an element
    if it is named [n]. *)
Definition attr_values (a : string) (e : Element) : list string :=
  map snd (filter (fun kv => fst kv =? a) (attrib e)).

Definition values_of (n a : string) (e : Element) : list string :=
  if named n e then attr_values a e else [].

(** The paths of [//n/@a] that are active at an element: the whole path,
    and its last step when the element ([here]) is named [n]. *)
Definition at_name (n a : string) (here : bool) : list path :=
  (if here then [[attr_step a]] else []) ++ [[name_step n; attr_step a]].

(** [//text()]: the text nodes at any depth. *)
Definition text_step : sstep := mkStep true Child TextTest [].

Definition slot_text (o : option string) : list string :=
  match o with
  | Some (String c s) => [String c s]
  | _ => []
  end.

(** The text nodes below [e], in document order, that lie under an
    element named [n]; [inside] tells that [e] is under such an element
    or is one. *)
Fixpoint texts_below (n : string) (inside : bool) (e : Element) : list string :=
  let 'mkElement _ _ tx cs _ := e in
  (if inside then slot_text tx else []) ++
  flat_map (fun c =>
              texts_below n (inside || named n c) c ++
              (if inside then slot_text (tail c) else [])) cs.

Definition texts_under (n : string) (doc : Element) : list string :=
  texts_below n (named n doc) doc.

(** The active paths of [//n//text()]: the whole path, waiting for an
    element named [n], and its last step below such an element. *)
Definition one_step (p : path) : bool :=
  match p with [_] => true | _ => false end.

Definition inside (active : list path) : bool := existsb one_step active.

Definition waiting (n : string) (p : path) : Prop :=
  p = [text_step] \/ p = [name_step n; text_step].

(** The number of single quotes in an expression. *)
Fixpoint quotes (s : string) : nat :=
  match s with
  | EmptyString => 0
  | String c s' => (if Ascii.eqb c "'" then 1 else 0) + quotes s'
  end.

(** The lexer is inside a literal; the literal was opened by a single
    quote. *)
Definition in_quote (m : mode) : bool :=
  match m with
  | InLit _ _ => true
  | _ => false
  end.

Definition single_quoted (m : mode) : Prop :=
  match m with
  | InLit q _ => q = "'"%char
  | _ => True
  end.

(** The node is an element with the class attribute [c]. *)
Definition class_is (c : string) (x : xnode) : bool :=
  match x with
  | NElement e => has_attribute e "class" c
  | _ => false
  end.

End XPath1.

(** lxml with the engine above behind [xpath] and the given parsers. *)
Definition libxml (parse_xml parse_html : string -> Exc Element) : lxml :=
  fun X c =>
    match c in call X return Exc X with
    | etree_fromstring s => parse_xml s
    | html_fromstring s => parse_html s
    | xpath t q => XPath1.evaluate t q
    end.

(** The link list of a document: the href values of its elements named
    a, in document order. *)
Definition document_links (doc : Element) : list string :=
  flat_map (XPath1.values_of "a" "href") (iter doc).

(** The mapping [get_links_with_text] builds from the anchors the engine
    found, as a function of the anchors. *)
Definition link_entry (a : Element) : string * option string :=
  (opt_str (text a), get a "href").

Definition link_map (anchors : list Element) : PyDict.t (option string) :=
  PyDict.fill [] (map link_entry (filter (fun a => truth (text a)) anchors)).

(** The list [get_article_text] makes of the text nodes it is given. *)
Definition stripped (texts : list string) : list string :=
  map PyStr.strip (filter (fun t => PyStr.truthy (PyStr.strip t)) texts).

(** The test [is_http] makes, on a string. *)
Definition is_http_str (s : string) : bool :=
  PyStr.startswith s "http://" || PyStr.startswith s "https://".

(** The message of the [ValueError] that [get_internal_links_only]
    raises. *)
Definition no_base_url : exn :=
  ValueError "Base URL is not provided. Cannot determine internal links.".

(** The message of the [ValueError] that [__init__] raises. *)
Definition invalid_content_type : exn :=
  ValueError "Invalid content_type. Choose either 'xml' or 'html'.".

(** ** Calls from outside

    One entry per public method, so that a caller's sequence of calls is
    a list.  A call ends in a returned value or in an exception the
    caller sees; the object lives on in both cases. *)
Inductive method : Type :=
| GetNodesByTag (tagname : string)
| GetNodesByAttribute (tagname attribute value : string)
| GetNodesByText (tagname text : string)
| GetNthChild (parent child : string) (n : Z)
| GetNodesContainingText (tagname text : string)
| GetNodesByAttributeContainingText (tagname attribute text : string)
| GetNodesByClass (classname : string)
| GetNodesById (element_id : string)
| GetNodesByDataAttribute (attribute value : string)
| GetNodesByName (name : string)
| GetArticleText
| GetImages
| GetLinks
| GetLinksWithText
| GetOutboundLinksOnly
| GetInternalLinksOnly.

Inductive value : Type :=
| Items (l : list pyobj)
| Strings (l : list string)
| Mapping (d : PyDict.t (option string)).

Definition fmap {A B} (f : A -> B) (m : M A) : M B :=
  x <- m ;; ret (f x).

Definition dispatch (m : method) : M value :=
  match m with
  | GetNodesByTag t => fmap Items (get_nodes_by_tag t)
  | GetNodesByAttribute t a v => fmap Items (get_nodes_by_attribute t a v)
  | GetNodesByText t x => fmap Items (get_nodes_by_text t x)
  | GetNthChild p c n => fmap Items (get_nth_child p c n)
  | GetNodesContainingText t x => fmap Items (get_nodes_containing_text t x)
  | GetNodesByAttributeContainingText t a x =>
      fmap Items (get_nodes_by_attribute_containing_text t a x)
  | GetNodesByClass c => fmap Items (get_nodes_by_class c)
  | GetNodesById i => fmap Items (get_nodes_by_id i)
  | GetNodesByDataAttribute a v => fmap Items (get_nodes_by_data_attribute a v)
  | GetNodesByName n => fmap Items (get_nodes_by_name n)
  | GetArticleText => fmap Strings get_article_text
  | GetImages => fmap Items get_images
  | GetLinks => fmap Items get_links
  | GetLinksWithText => fmap Mapping get_links_with_text
  | GetOutboundLinksOnly => fmap Items get_outbound_links_only
  | GetInternalLinksOnly => fmap Items get_internal_links_only
  end.

(** The calls of [ms] one after the other on the same object: the
    outcome of each, and the object afterwards. *)
Fixpoint session (ms : list method) (self : Xpath)
  : Py (list (Exc value) * Xpath) :=
  match ms with
  | [] => Ret ([], self)
  | m :: ms' =>
      pbind (dispatch m self) (fun rs =>
        pbind (session ms' (snd rs)) (fun rest =>
          Ret (fst rs :: fst rest, snd rest)))
  end.

(** A method that leaves the object as it found it, whatever lxml
    answers and whether it returns or raises. *)
Definition read_only {A} (m : M A) : Prop :=
  forall (h : lxml) (self : Xpath), snd (run h (m self)) = self.

(** ** Sample documents

    Four small XML pages and the trees [etree.fromstring] builds for
    them.  [pages_xml] is a parser that knows these pages only. *)
Module Sample.

Definition leaf (tg : string) (at_ : list (string * string))
           (tx : string) : Element :=
  mkElement tg at_ (Some tx) [] None.

Definition page (body : list Element) : Element :=
  mkElement "html" [] None [mkElement "body" [] None body None] None.

Definition links_xml : string :=
  "<html><body><a href='https://example.com/a'>A</a><a href='https://other.com/b'>B</a><a href='/relative'>C</a></body></html>".

Definition links_tree : Element :=
  page [leaf "a" [("href", "https://example.com/a")] "A";
        leaf "a" [("href", "https://other.com/b")] "B";
        leaf "a" [("href", "/relative")] "C"].

Definition anchors_xml : string :=
  "<html><body><a href='/first'>Home</a><a href='/second'>Home</a><a href='/deep'><b>Rel</b></a><a>plain</a><a href='/ws'> </a></body></html>".

Definition anchors_tree : Element :=
  page [leaf "a" [("href", "/first")] "Home";
        leaf "a" [("href", "/second")] "Home";
        mkElement "a" [("href", "/deep")] None [leaf "b" [] "Rel"] None;
        leaf "a" [] "plain";
        leaf "a" [("href", "/ws")] " "].

Definition article_xml : string :=
  "<html><body><article> lead <p>para</p>  </article><p>outside</p></body></html>".

Definition article_tree : Element :=
  page [mkElement "article" [] (Some " lead ")
          [mkElement "p" [] (Some "para") [] (Some "  ")] None;
        leaf "p" [] "outside"].

Definition class_xml : string :=
  "<html><body><div class='btn primary'>x</div><div class='btn'>y</div><span class='btn'>z</span></body></html>".

Definition class_tree : Element :=
  page [leaf "div" [("class", "btn primary")] "x";
        leaf "div" [("class", "btn")] "y";
        leaf "span" [("class", "btn")] "z"].

Definition pages_xml (content : string) : Exc Element :=
  if content =? links_xml then inr links_tree
  else if content =? anchors_xml then inr anchors_tree
  else if content =? article_xml then inr article_tree
  else if content =? class_xml then inr class_tree
  else inl (XMLSyntaxError "unknown page").

Definition no_html (content : string) : Exc Element :=
  inl (ParserError "no HTML page").

Definition lx : lxml := libxml pages_xml no_html.

(** Construct the facade, then call one method on it. *)
Definition construct_and_call (content content_type : string)
           (base_url : option string) (m : method)
  : Exc (Exc value * Xpath) :=
  match run lx (__init__ content content_type base_url) with
  | inl e => inl e
  | inr self => inr (run lx (dispatch m self))
  end.

End Sample.

(** ** The calls, seen from the engine *)

(** The expression a method hands to [tree.xpath].  [get_nth_child] has
    none when its number cannot be formatted: it raises before it asks. *)
Definition expression (m : method) : option string :=
  match m with
  | GetNodesByTag t => Some ("//" ++ t)
  | GetNodesByAttribute t a v =>
      Some ("//" ++ t ++ "[@" ++ a ++ "='" ++ v ++ "']")
  | GetNodesByText t x => Some ("//" ++ t ++ "[text()='" ++ x ++ "']")
  | GetNthChild p c n =>
      match PyStr.of_int n with
      | Some s => Some ("//" ++ p ++ "/" ++ c ++ "[" ++ s ++ "]")
      | None => None
      end
  | GetNodesContainingText t x =>
      Some ("//" ++ t ++ "[contains(text(), '" ++ x ++ "')]")
  | GetNodesByAttributeContainingText t a x =>
      Some ("//" ++ t ++ "[contains(@" ++ a ++ ", '" ++ x ++ "')]")
  | GetNodesByClass c => Some ("//*[@class='" ++ c ++ "']")
  | GetNodesById i => Some ("//*[@id='" ++ i ++ "']")
  | GetNodesByDataAttribute a v =>
      Some ("//*[@data-" ++ a ++ "='" ++ v ++ "']")
  | GetNodesByName n => Some ("//*[@name='" ++ n ++ "']")
  | GetArticleText => Some "//article//text()"
  | GetImages => Some "//img/@src"
  | GetLinks | GetOutboundLinksOnly | GetInternalLinksOnly => Some "//a/@href"
  | GetLinksWithText => Some "//a"
  end%string.

(** An lxml of which every call raises [e]. *)
Definition failing (e : exn) : lxml := fun X _ => inl e.

(** ** The order of a mapping *)

(** The strings of [l] that are not in [seen], each once, where it
    comes first. *)
Fixpoint first_occurrences (seen l : list string) : list string :=
  match l with
  | [] => []
  | x :: l' =>
      if existsb (String.eqb x) seen then first_occurrences seen l'
      else x :: first_occurrences (seen ++ [x]) l'
  end.

(** The non-empty direct texts of the anchors, in order. *)
Definition anchor_texts (anchors : list Element) : list string :=
  map (fun a => opt_str (text a)) (filter (fun a => truth (text a)) anchors).

(** The last anchor whose direct text is [k], a non-empty string. *)
Fixpoint last_with_text (k : string) (anchors : list Element) : option Element :=
  match anchors with
  | [] => None
  | a :: anchors' =>
      match last_with_text k anchors' with
      | Some a' => Some a'
      | None =>
          if String.eqb (opt_str (text a)) k && truth (text a)
          then Some a else None
      end
  end.

(** ** The templates of the tag, attribute and text queries

    What the engine above makes of the expressions the facade builds:
    the fragments that are names, the expressions the templates parse
    to, and what their predicates decide on an element. *)
Module Templates.
Import XPath1.

Fixpoint all_name_chars (s : string) : bool :=
  match s with
  | EmptyString => true
  | String c s' => is_name_char c && all_name_chars s'
  end.

(** A name: a letter or underscore, then letters, digits, [-], [.] and
    [_]. *)
Definition is_name (s : string) : bool :=
  match s with
  | EmptyString => false
  | String c s' => is_letter c && all_name_chars s'
  end.

(** The rest of an expression does not go on with a name character. *)
Definition breaks (rest : string) : bool :=
  match rest with
  | EmptyString => true
  | String c _ => negb (is_name_char c)
  end.

(** The predicates of the templates: [@a='v'], [text()='x'],
    [contains(text(), 'x')] and [contains(@a, 'x')]. *)
Definition attr_is (a v : string) : pred :=
  PExpr (EEq (EPath false [Step false Attribute (NameTest a) []]) (ELit v)).

(** [//t[...]] *)
Definition anywhere (t : nodetest) (ps : list pred) : expr :=
  EPath true [Step true Child t ps].

(** [//t[p]] with its predicate interpreted: the elements at any depth
    that pass the test and [p]. *)
Definition deep_step (t : nodetest) (p : predicate) : sstep :=
  mkStep true Child t [p].

Definition on_elements (t : nodetest) : bool :=
  match t with TextTest => false | _ => true end.

(** What [//t[p]] leaves on a slot when [p] decides as [q]. *)
Definition found (t : nodetest) (q : xnode -> bool) (k : slot) : list path :=
  if test_ok t k && on_slot q k then [[]] else [].

(** The element passes the test [t] and [q]. *)
Definition selected (t : nodetest) (q : xnode -> bool) (e : Element) : bool :=
  test_ok t (Some (NElement e)) && q (NElement e).




(** What the four predicates decide on a node. *)
Definition attr_equals (a v : string) (y : xnode) : bool :=
  match y with
  | NElement e => has_attribute e a v
  | _ => false
  end.




(** *** The nth-child template *)

(** The number the lexer reads from the digits [d], with [acc] read
    before them. *)
Fixpoint read_digits (d : Decimal.uint) (acc : nat) : nat :=
  match d with
  | Decimal.Nil => acc
  | Decimal.D0 d' => read_digits d' (10 * acc + 0)
  | Decimal.D1 d' => read_digits d' (10 * acc + 1)
  | Decimal.D2 d' => read_digits d' (10 * acc + 2)
  | Decimal.D3 d' => read_digits d' (10 * acc + 3)
  | Decimal.D4 d' => read_digits d' (10 * acc + 4)
  | Decimal.D5 d' => read_digits d' (10 * acc + 5)
  | Decimal.D6 d' => read_digits d' (10 * acc + 6)
  | Decimal.D7 d' => read_digits d' (10 * acc + 7)
  | Decimal.D8 d' => read_digits d' (10 * acc + 8)
  | Decimal.D9 d' => read_digits d' (10 * acc + 9)
  end.

(** The tokens of the decimal digits of [n]. *)
Definition number_tokens (n : Z) : list token :=
  match n with
  | Z0 => [TNum 0]
  | Zpos p => [TNum (read_digits (Pos.to_uint p) 0)]
  | Zneg p => [TMinus; TNum (read_digits (Pos.to_uint p) 0)]
  end.

(** [//p/c[n]] *)
Definition nth_child_path (p c : string) (n : Z) : expr :=
  EPath true [Step true Child (NameTest p) [];
              Step false Child (NameTest c) [PPos n]].

(** [c[n]]: the [n]-th of the children named [c]. *)
Definition nth_step (c : string) (n : Z) : sstep :=
  mkStep false Child (NameTest c) [fun _ pos _ => Z.eqb (Z.of_nat pos) n].

(** The paths of [//p/c[n]] that are active at an element: the whole
    path, and its last step when the element ([here]) is named [p]. *)
Definition at_parent (p c : string) (n : Z) (here : bool) : list path :=
  (if here then [[nth_step c n]] else []) ++ [[name_step p; nth_step c n]].

(** The elements [//p/c[n]] selects below [e], in document order:
    of the children of [e], when [e] is named [p] ([here]), the one
    that is the [n]-th among those named [c]; and what is selected
    below each child. *)
Fixpoint nth_below (p c : string) (n : Z) (here : bool) (e : Element)
  : list Element :=
  let 'mkElement _ _ _ cs _ := e in
  (fix scan (pos : nat) (l : list Element) : list Element :=
     match l with
     | [] => []
     | x :: l' =>
         (if here && named c x && Z.eqb (Z.of_nat pos) n then [x] else []) ++
         nth_below p c n (named p x) x ++
         scan (if named c x then S pos else pos) l'
     end) 1 cs.

Definition nth_children (p c : string) (n : Z) (doc : Element) : list Element :=
  nth_below p c n (named p doc) doc.

(** The same scan, as a function of its own. *)
Fixpoint scan (p c : string) (n : Z) (here : bool) (pos : nat)
         (l : list Element) : list Element :=
  match l with
  | [] => []
  | x :: l' =>
      (if here && named c x && Z.eqb (Z.of_nat pos) n then [x] else []) ++
      nth_below p c n (named p x) x ++
      scan p c n here (if named c x then S pos else pos) l'
  end.

(** The continuations of the slots [ks], the next live slot being at
    position [pos]. *)
Fixpoint nth_conts (p c : string) (n : Z) (here : bool) (pos : nat)
         (ks : list slot) : list (list path) :=
  match ks with
  | [] => []
  | k :: ks' =>
      ((if here && test_ok (NameTest c) k && Z.eqb (Z.of_nat pos) n
        then [[]] else []) ++
       (if test_ok (NameTest p) k then [[nth_step c n]] else [])) ::
      nth_conts p c n here (if test_ok (NameTest c) k then S pos else pos) ks'
  end.

(** [x] is the [n]-th of the children of [e] that are named [c],
    counted from 1. *)
Definition nth_named (c : string) (n : Z) (e x : Element) : Prop :=
  exists l1 l2,
    children e = l1 ++ x :: l2 /\ tag x = c /\
    Z.of_nat (1 + List.length (filter (named c) l1)) = n.

End Templates.

(** * Properties *)

(** Induction on elements with the hypothesis for every child. *)
Lemma Element_induction (P : Element -> Prop) :
  (forall t a x cs tl, Forall P cs -> P (mkElement t a x cs tl)) ->
  forall e, P e.
Proof.
  intros step.
  fix IH 1.
  intros [t a x cs tl]. apply step.
  induction cs as [|c cs IHcs]; constructor.
  - apply IH.
  - exact IHcs.
Qed.

(** ** Running programs *)
Section Running.
Variable h : lxml.

Lemma run_pbind {A B} (p : Py A) (f : A -> Py B) :
  run h (pbind p f) = run h (f (run h p)).
Proof.
  induction p as [a|X c k IH]; simpl.
  - reflexivity.
  - apply IH.
Qed.

Lemma trace_pbind {A B} (p : Py A) (f : A -> Py B) :
  trace h (pbind p f) = trace h p ++ trace h (f (run h p)).
Proof.
  induction p as [a|X c k IH]; simpl.
  - reflexivity.
  - f_equal. apply IH.
Qed.

Lemma run_bind {A B} (m : M A) (f : A -> M B) self :
  run h (bind m f self) =
  match fst (run h (m self)) with
  | inl e => (inl e, snd (run h (m self)))
  | inr a => run h (f a (snd (run h (m self))))
  end.
Proof.
  unfold bind. rewrite run_pbind.
  destruct (fst (run h (m self))); reflexivity.
Qed.

(** A step that returns [a] and leaves the object as it was. *)
Lemma run_bind_ret {A B} (m : M A) (f : A -> M B) self a :
  run h (m self) = (inr a, self) ->
  run h (bind m f self) = run h (f a self).
Proof. intros E. rewrite run_bind, E. reflexivity. Qed.

Lemma run_bind_raise {A B} (m : M A) (f : A -> M B) self e :
  run h (m self) = (inl e, self) ->
  run h (bind m f self) = (inl e, self).
Proof. intros E. rewrite run_bind, E. reflexivity. Qed.

Lemma run_tree_xpath q self :
  run h (tree_xpath q self) = (h _ (xpath (self_tree self) q), self).
Proof. reflexivity. Qed.

Lemma run_comprehension {A B} (cond : A -> M bool) (out : A -> M B)
      (c : A -> bool) (o : A -> B) xs self :
  (forall x, In x xs -> run h (cond x self) = (inr (c x), self)) ->
  (forall x, In x xs -> c x = true -> run h (out x self) = (inr (o x), self)) ->
  run h (comprehension cond out xs self) = (inr (map o (filter c xs)), self).
Proof.
  induction xs as [|x xs IH]; intros Hc Ho; simpl.
  - reflexivity.
  - rewrite (run_bind_ret _ _ _ (c x)) by (apply Hc; left; reflexivity).
    destruct (c x) eqn:Ecx.
    + rewrite (run_bind_ret _ _ _ (o x))
        by (apply Ho; [left; reflexivity | exact Ecx]).
      rewrite (run_bind_ret _ _ _ (map o (filter c xs))).
      * reflexivity.
      * apply IH; intros; [apply Hc | apply Ho]; auto using in_cons.
    + apply IH; intros; [apply Hc | apply Ho]; auto using in_cons.
Qed.

Lemma run_dict_comprehension {A V} (cond : A -> M bool)
      (key : A -> M string) (val : A -> M V)
      (c : A -> bool) (k : A -> string) (v : A -> V) xs d self :
  (forall x, In x xs -> run h (cond x self) = (inr (c x), self)) ->
  (forall x, In x xs -> run h (key x self) = (inr (k x), self)) ->
  (forall x, In x xs -> run h (val x self) = (inr (v x), self)) ->
  run h (dict_comprehension cond key val xs d self) =
  (inr (fold_left (fun d x => PyDict.set d (k x) (v x)) (filter c xs) d),
   self).
Proof.
  revert d.
  induction xs as [|x xs IH]; intros d Hc Hk Hv; simpl.
  - reflexivity.
  - rewrite (run_bind_ret _ _ _ (c x)) by (apply Hc; left; reflexivity).
    destruct (c x).
    + rewrite (run_bind_ret _ _ _ (k x)) by (apply Hk; left; reflexivity).
      rewrite (run_bind_ret _ _ _ (v x)) by (apply Hv; left; reflexivity).
      simpl. apply IH; intros; [apply Hc | apply Hk | apply Hv];
        auto using in_cons.
    + apply IH; intros; [apply Hc | apply Hk | apply Hv];
        auto using in_cons.
Qed.
End Running.

(** ** The engine *)
Section Engine.
Import XPath1.
Local Open Scope string_scope.

(** *** Lexing the class template *)
Lemma append_snoc acc ch c :
  (snoc acc ch ++ c)%string = (acc ++ String ch c)%string.
Proof. unfold snoc. induction acc; simpl; congruence. Qed.

Lemma append_empty s : (s ++ "")%string = s.
Proof. induction s; simpl; congruence. Qed.

Lemma lex_literal q acc c rest :
  PyStr.contains_char q c = false ->
  lex (InLit q acc) (c ++ String q rest) =
  match lex Idle rest with
  | Some ts => Some (TLit (acc ++ c) :: ts)
  | None => None
  end.
Proof.
  revert acc. induction c as [|ch c IH]; intros acc Hc; simpl.
  - rewrite Ascii.eqb_refl, append_empty. reflexivity.
  - simpl in Hc. apply orb_false_iff in Hc. destruct Hc as [Hch Hc].
    rewrite Hch. rewrite IH by exact Hc. rewrite append_snoc.
    destruct (lex Idle rest); reflexivity.
Qed.

Lemma lex_cons m ch s :
  lex m (String ch s) =
  match feed m ch with
  | Some (ts, m') =>
      match lex m' s with
      | Some ts' => Some (ts ++ ts')%list
      | None => None
      end
  | None => None
  end.
Proof. reflexivity. Qed.

Ltac lex_char :=
  rewrite lex_cons;
  match goal with
  | |- context [feed ?m ?ch] =>
      let r := eval vm_compute in (feed m ch) in
      change (feed m ch) with r; cbv beta iota
  end.

Lemma tokenize_class c :
  PyStr.contains_char "'" c = false ->
  tokenize ("//*[@class='" ++ c ++ "']") =
  Some [TDSlash; TStar; TLBrack; TAt; TName "class"; TEq; TLit c; TRBrack].
Proof.
  intros Hc. unfold tokenize.
  change ("//*[@class='" ++ c ++ "']")
    with ("//*[@class=" ++ String "'" (c ++ String "'" "]")).
  cbn [append].
  do 12 lex_char.
  rewrite (lex_literal "'" "" c "]" Hc).
  reflexivity.
Qed.

Lemma parse_class c :
  PyStr.contains_char "'" c = false ->
  parse ("//*[@class='" ++ c ++ "']") =
  Some (EPath true
          [Step true Child AnyName
             [PExpr (EEq (EPath false [Step false Attribute (NameTest "class") []])
                         (ELit c))]]).
Proof.
  intros Hc. unfold parse. rewrite (tokenize_class c Hc). reflexivity.
Qed.

(** *** Selection, step by step *)
Local Open Scope list_scope.

Lemma sift_flat (p : predicate) (q : xnode -> bool) (t : slot -> bool) size ks :
  (forall x pos, p x pos size = q x) ->
  forall pos,
  sift p size pos ks (map t ks) = map (fun k => t k && on_slot q k) ks.
Proof.
  intros Hp. induction ks as [|k ks IH]; intros pos; simpl.
  - reflexivity.
  - destruct (t k); simpl; rewrite IH; [|reflexivity].
    destruct k as [x|]; simpl; [rewrite Hp|]; reflexivity.
Qed.

Lemma conts_nil ax ks : conts ax [] ks = map (fun _ => []) ks.
Proof. reflexivity. Qed.

Lemma emit_all_nil ks : emit_all (map (fun _ => []) ks) ks = [].
Proof.
  induction ks as [|k ks IH]; simpl.
  - reflexivity.
  - rewrite IH. destruct k; reflexivity.
Qed.

Lemma below_eq active e :
  below active e =
  emit_all (conts Attribute active (attr_slots e)) (attr_slots e) ++
  match conts Child active (child_slots e) with
  | c0 :: rest => emit c0 (text_slot (text e)) ++ walk below active (children e) rest
  | [] => []
  end.
Proof. destruct e. reflexivity. Qed.

Lemma child_slots_eq e :
  child_slots e = text_slot (text e) :: flat_map pair_slots (children e).
Proof. reflexivity. Qed.

(** Nothing is found where no path leads. *)
Lemma walk_idle rec active cs :
  Forall (fun c => rec (carry active []) c = []) cs ->
  walk rec active cs (map (fun _ => []) (flat_map pair_slots cs)) = [].
Proof.
  induction 1 as [|c cs Hc _ IH]; simpl.
  - reflexivity.
  - rewrite Hc, IH. destruct (text_slot (tail c)); reflexivity.
Qed.

Lemma below_nil e : below [] e = [].
Proof.
  induction e as [t a x cs tl IH] using Element_induction.
  rewrite below_eq, !conts_nil, emit_all_nil, child_slots_eq. simpl.
  rewrite walk_idle by exact IH.
  destruct (text_slot x); reflexivity.
Qed.

Lemma emit_attrs n (l : list (string * string)) :
  let ks := map (fun kv => Some (NAttr (fst kv) (snd kv))) l in
  emit_all (conts Attribute [[attr_step n]] ks) ks =
  map (fun kv => NAttr (fst kv) (snd kv)) (filter (fun kv => fst kv =? n) l).
Proof.
  simpl. unfold marks. simpl.
  induction l as [|[k v] l IH]; simpl.
  - reflexivity.
  - rewrite IH. destruct (k =? n); reflexivity.
Qed.

Lemma below_attr n e :
  below [[attr_step n]] e =
  map (fun kv => NAttr (fst kv) (snd kv)) (filter (fun kv => fst kv =? n) (attrib e)).
Proof.
  rewrite below_eq. unfold attr_slots. rewrite emit_attrs.
  rewrite child_slots_eq.
  change (conts Child [[attr_step n]] (text_slot (text e) :: flat_map pair_slots (children e)))
    with ([] :: map (fun _ : slot => @nil path) (flat_map pair_slots (children e))).
  cbv beta iota.
  rewrite walk_idle.
  - destruct (text_slot (text e)); simpl; apply app_nil_r.
  - apply Forall_forall. intros c _. apply below_nil.
Qed.

Lemma exists_attr n v (l : list (string * string)) :
  existsb (fun x => string_value x =? v)
          (map (fun kv => NAttr (fst kv) (snd kv)) (filter (fun kv => fst kv =? n) l)) =
  existsb (fun kv => (fst kv =? n) && (snd kv =? v)) l.
Proof.
  induction l as [|[k w] l IH]; simpl.
  - reflexivity.
  - destruct (k =? n); simpl; rewrite IH; reflexivity.
Qed.

Lemma iter_eq e : iter e = e :: flat_map iter (children e).
Proof. destruct e. reflexivity. Qed.

Lemma map_combine_map {A B C D} (f : B * C -> D) (g : A -> B) (h : A -> C) l :
  map f (combine (map g l) (map h l)) = map (fun a => f (g a, h a)) l.
Proof.
  induction l as [|a l IH]; simpl; congruence.
Qed.

Lemma emit_nil k : emit [] k = [].
Proof. destruct k; reflexivity. Qed.

Section DeepStar.
Variable p : predicate.
Variable q : xnode -> bool.
Hypothesis p_q : forall x pos size, p x pos size = q x.

Lemma marks_star ks :
  marks (star_step p) ks = map (fun k => test_ok AnyName k && on_slot q k) ks.
Proof.
  unfold marks. simpl. apply sift_flat. intros x pos. apply p_q.
Qed.

Lemma conts_star ks : conts Child [[star_step p]] ks = map (hit q) ks.
Proof.
  change (conts Child [[star_step p]] ks)
    with (map (fun bc : bool * list path =>
                 if fst bc then [] :: snd bc else snd bc)
              (combine (marks (star_step p) ks) (map (fun _ => []) ks))).
  rewrite marks_star, map_combine_map. reflexivity.
Qed.

Lemma conts_star_attr ks :
  conts Attribute [[star_step p]] ks = map (fun _ => []) ks.
Proof. reflexivity. Qed.

Lemma hit_text o : hit q (text_slot o) = [].
Proof. destruct o as [[|c t]|]; reflexivity. Qed.

Lemma hit_element c :
  emit (hit q (Some (NElement c))) (Some (NElement c)) =
  map NElement (filter (fun e => q (NElement e)) [c]) /\
  carry [[star_step p]] (hit q (Some (NElement c))) = [[star_step p]].
Proof.
  unfold hit. simpl. destruct (q (NElement c)); split; reflexivity.
Qed.

Lemma walk_star cs :
  Forall (fun c => below [[star_step p]] c =
                   map NElement (filter (fun e => q (NElement e))
                                        (flat_map iter (children c)))) cs ->
  walk below [[star_step p]] cs (map (hit q) (flat_map pair_slots cs)) =
  map NElement (filter (fun e => q (NElement e)) (flat_map iter cs)).
Proof.
  induction 1 as [|c cs Hc _ IH].
  - reflexivity.
  - change (flat_map pair_slots (c :: cs))
      with (Some (NElement c) :: text_slot (tail c) :: flat_map pair_slots cs).
    cbn [map walk]. rewrite hit_text, emit_nil, IH.
    destruct (hit_element c) as [-> ->]. rewrite Hc.
    cbn [flat_map]. rewrite (iter_eq c).
    change (c :: flat_map iter (children c))
      with ([c] ++ flat_map iter (children c)).
    rewrite !filter_app, !map_app, <- !app_assoc. reflexivity.
Qed.

Lemma below_star e :
  below [[star_step p]] e =
  map NElement (filter (fun e => q (NElement e)) (flat_map iter (children e))).
Proof.
  induction e as [tg at_ tx cs tl IH] using Element_induction.
  rewrite below_eq, conts_star_attr, emit_all_nil, child_slots_eq, conts_star.
  cbn [map app]. rewrite hit_text, emit_nil.
  cbn [children app]. apply walk_star. exact IH.
Qed.

Lemma from_root_star doc :
  from_root [[star_step p]] doc =
  map NElement (filter (fun e => q (NElement e)) (iter doc)).
Proof.
  unfold from_root. rewrite conts_star. cbn [map].
  destruct (hit_element doc) as [-> ->]. rewrite below_star.
  rewrite (iter_eq doc).
  change (doc :: flat_map iter (children doc))
    with ([doc] ++ flat_map iter (children doc)).
  rewrite !filter_app, !map_app. reflexivity.
Qed.
End DeepStar.

Lemma denote_attr_eq doc n v x :
  as_bool (denote doc (EEq (EPath false [Step false Attribute (NameTest n) []])
                           (ELit v)) x) =
  match x with
  | NElement e => has_attribute e n v
  | _ => false
  end.
Proof.
  change (denote doc (EEq (EPath false [Step false Attribute (NameTest n) []])
                          (ELit v)) x)
    with (VBool (equal (VNodes match x with
                               | NElement e => below [[attr_step n]] e
                               | _ => []
                               end) (VStr v))).
  destruct x as [e|t|a w]; simpl; try reflexivity.
  rewrite below_attr. apply exists_attr.
Qed.

Lemma evaluate_class doc c :
  PyStr.contains_char "'" c = false ->
  evaluate doc ("//*[@class='" ++ c ++ "']") =
  inr (map PyElement (filter (fun e => has_attribute e "class" c) (iter doc))).
Proof.
  intros Hc. unfold evaluate. rewrite (parse_class c Hc).
  change (denote doc _ (NElement doc))
    with (VNodes (from_root
                    [[star_step (fun y _ _ =>
                        as_bool (denote doc
                          (EEq (EPath false [Step false Attribute (NameTest "class") []])
                               (ELit c)) y))]] doc)).
  rewrite (from_root_star _ (class_is c))
    by (intros x _ _; apply denote_attr_eq).
  rewrite map_map. reflexivity.
Qed.

(** *** Paths without predicates *)
Lemma conts_plain ax active ks :
  Forall plain_path active ->
  conts ax active ks = map (reach ax active) ks.
Proof.
  induction 1 as [|p active Hp _ IH].
  - reflexivity.
  - destruct p as [|s rest].
    + exact IH.
    + cbn [conts]. unfold reach. cbn [flat_map]. fold (reach ax active).
      destruct (axis_eqb (s_axis s) ax).
      * inversion Hp as [|? ? Hs _]; subst.
        unfold marks. rewrite Hs. cbn [fold_left].
        rewrite IH, map_combine_map. apply map_ext. intros k.
        cbn [fst snd andb]. destruct (test_ok (s_test s) k); reflexivity.
      * rewrite IH. reflexivity.
Qed.

Lemma walk_plain rec active (f : slot -> list path) cs :
  walk rec active cs (map f (flat_map pair_slots cs)) =
  flat_map (fun c =>
              emit (f (Some (NElement c))) (Some (NElement c)) ++
              rec (carry active (f (Some (NElement c)))) c ++
              emit (f (text_slot (tail c))) (text_slot (tail c))) cs.
Proof.
  induction cs as [|c cs IH].
  - reflexivity.
  - change (flat_map pair_slots (c :: cs))
      with (Some (NElement c) :: text_slot (tail c) :: flat_map pair_slots cs).
    cbn [map walk flat_map]. rewrite IH, <- !app_assoc. reflexivity.
Qed.

Lemma emit_all_map (f : slot -> list path) ks :
  emit_all (map f ks) ks = flat_map (fun k => emit (f k) k) ks.
Proof.
  induction ks as [|k ks IH]; simpl; [reflexivity | rewrite IH; reflexivity].
Qed.

(** [below] for paths without predicates, slot by slot. *)
Lemma below_plain active e :
  Forall plain_path active ->
  below active e =
  flat_map (fun k => emit (reach Attribute active k) k) (attr_slots e) ++
  emit (reach Child active (text_slot (text e))) (text_slot (text e)) ++
  flat_map (fun c =>
              emit (reach Child active (Some (NElement c))) (Some (NElement c)) ++
              below (carry active (reach Child active (Some (NElement c)))) c ++
              emit (reach Child active (text_slot (tail c))) (text_slot (tail c)))
           (children e).
Proof.
  intros Hp. rewrite below_eq, !(conts_plain _ _ _ Hp), emit_all_map.
  rewrite child_slots_eq. cbn [map]. rewrite walk_plain. reflexivity.
Qed.

Lemma plain_name n : Forall plain_path [[name_step n]].
Proof. repeat constructor. Qed.

Lemma reach_named n c :
  emit (reach Child [[name_step n]] (Some (NElement c))) (Some (NElement c)) =
  map NElement (filter (named n) [c]) /\
  carry [[name_step n]] (reach Child [[name_step n]] (Some (NElement c))) =
  [[name_step n]].
Proof.
  unfold reach, named. simpl. destruct (tag c =? n); split; reflexivity.
Qed.

Lemma reach_named_text n o :
  reach Child [[name_step n]] (text_slot o) = [].
Proof. destruct o as [[|c s]|]; reflexivity. Qed.

Lemma reach_named_attr n (l : list (string * string)) :
  flat_map (fun k => emit (reach Attribute [[name_step n]] k) k)
           (map (fun kv => Some (NAttr (fst kv) (snd kv))) l) = [].
Proof. induction l as [|kv l IH]; [reflexivity | exact IH]. Qed.

Lemma below_named n e :
  below [[name_step n]] e =
  map NElement (filter (named n) (flat_map iter (children e))).
Proof.
  induction e as [tg at_ tx cs tl IH] using Element_induction.
  rewrite (below_plain _ _ (plain_name n)).
  unfold attr_slots. rewrite reach_named_attr, reach_named_text, emit_nil.
  cbn [app children].
  induction IH as [|c cs Hc _ IHcs].
  - reflexivity.
  - cbn [flat_map]. rewrite IHcs, reach_named_text, emit_nil.
    destruct (reach_named n c) as [-> ->]. rewrite Hc.
    rewrite (iter_eq c).
    change (c :: flat_map iter (children c))
      with ([c] ++ flat_map iter (children c)).
    rewrite !filter_app, !map_app, <- !app_assoc. reflexivity.
Qed.

Lemma from_root_named n doc :
  from_root [[name_step n]] doc = map NElement (filter (named n) (iter doc)).
Proof.
  unfold from_root. rewrite (conts_plain _ _ _ (plain_name n)). cbn [map].
  destruct (reach_named n doc) as [-> ->]. rewrite below_named.
  rewrite (iter_eq doc).
  change (doc :: flat_map iter (children doc))
    with ([doc] ++ flat_map iter (children doc)).
  rewrite !filter_app, !map_app. reflexivity.
Qed.

Lemma plain_at_name n a here : Forall plain_path (at_name n a here).
Proof. destruct here; repeat constructor. Qed.

Lemma reach_at_name_attr n a here (l : list (string * string)) :
  map to_py
      (flat_map (fun k => emit (reach Attribute (at_name n a here) k) k)
                (map (fun kv => Some (NAttr (fst kv) (snd kv))) l)) =
  map PyString
      (if here then map snd (filter (fun kv => fst kv =? a) l) else []).
Proof.
  induction l as [|[k v] l IH]; cbn [map flat_map].
  - destruct here; reflexivity.
  - rewrite map_app, IH. destruct here; [|reflexivity].
    unfold reach. simpl. destruct (k =? a); reflexivity.
Qed.

Lemma reach_at_name_text n a here o :
  emit (reach Child (at_name n a here) (text_slot o)) (text_slot o) = [].
Proof. destruct here, o as [[|c s]|]; reflexivity. Qed.

Lemma reach_at_name_child n a here c :
  emit (reach Child (at_name n a here) (Some (NElement c))) (Some (NElement c)) = [] /\
  carry (at_name n a here) (reach Child (at_name n a here) (Some (NElement c))) =
  at_name n a (named n c).
Proof.
  unfold reach, named. destruct here; simpl; destruct (tag c =? n);
    split; reflexivity.
Qed.

Lemma below_at_name n a e :
  forall here,
    map to_py (below (at_name n a here) e) =
    map PyString
        ((if here then attr_values a e else []) ++
         flat_map (values_of n a) (flat_map iter (children e))).
Proof.
  induction e as [tg at_ tx cs tl IH] using Element_induction.
  intros here.
  rewrite (below_plain _ _ (plain_at_name n a _)).
  unfold attr_slots. rewrite reach_at_name_text.
  rewrite !map_app, reach_at_name_attr. cbn [app children attrib].
  f_equal. cbn [map app].
  induction IH as [|c cs Hc _ IHcs].
  - reflexivity.
  - cbn [flat_map]. rewrite !map_app, IHcs, reach_at_name_text.
    destruct (reach_at_name_child n a here c) as [-> ->].
    rewrite Hc. cbn [map app]. rewrite app_nil_r.
    rewrite (iter_eq c), flat_map_app. cbn [flat_map].
    rewrite ?map_app, <- ?app_assoc. reflexivity.
Qed.

Lemma from_root_at_name n a doc :
  map to_py (from_root [[name_step n; attr_step a]] doc) =
  map PyString (flat_map (values_of n a) (iter doc)).
Proof.
  change [[name_step n; attr_step a]] with (at_name n a false).
  unfold from_root.
  rewrite (conts_plain _ _ _ (plain_at_name n a false)). cbn [map].
  destruct (reach_at_name_child n a false doc) as [-> ->].
  cbn [app]. rewrite below_at_name.
  rewrite (iter_eq doc). cbn [flat_map].
  rewrite ?map_app, <- ?app_assoc. reflexivity.
Qed.

Lemma texts_below_eq n b e :
  texts_below n b e =
  (if b then slot_text (text e) else []) ++
  flat_map (fun c =>
              texts_below n (b || named n c) c ++
              (if b then slot_text (tail c) else [])) (children e).
Proof. destruct e. reflexivity. Qed.

Lemma waiting_plain n active :
  Forall (waiting n) active -> Forall plain_path active.
Proof.
  intros Hw. apply Forall_forall. intros p Hp.
  destruct (proj1 (Forall_forall _ _) Hw p Hp) as [->| ->]; repeat constructor.
Qed.

Lemma waiting_attr n active k :
  Forall (waiting n) active -> reach Attribute active k = [].
Proof.
  induction 1 as [|p l Hp _ IH]; [reflexivity|].
  unfold reach. cbn [flat_map]. fold (reach Attribute l k). rewrite IH.
  destruct Hp as [->| ->]; reflexivity.
Qed.

Lemma waiting_final n active t :
  Forall (waiting n) active ->
  final (reach Child active (Some (NText t))) = inside active.
Proof.
  induction 1 as [|p l Hp _ IH]; [reflexivity|].
  unfold reach, inside. cbn [flat_map existsb].
  fold (reach Child l (Some (NText t))). fold (inside l).
  unfold final. rewrite existsb_app.
  fold (final (reach Child l (Some (NText t)))).
  rewrite IH. destruct Hp as [->| ->]; reflexivity.
Qed.

Lemma waiting_text n active o :
  Forall (waiting n) active ->
  emit (reach Child active (text_slot o)) (text_slot o) =
  map NText (if inside active then slot_text o else []).
Proof.
  intros Hw.
  destruct o as [[|c s]|]; cbn [text_slot slot_text emit];
    try (destruct (inside active); reflexivity).
  rewrite (waiting_final n active _ Hw).
  destruct (inside active); reflexivity.
Qed.

Lemma reach_text_step ax l k rest :
  reach ax ((text_step :: rest) :: l) (Some (NElement k)) =
  reach ax l (Some (NElement k)).
Proof. unfold reach. simpl. rewrite andb_false_r. reflexivity. Qed.

Lemma reach_name_step n l c rest :
  reach Child ((name_step n :: rest) :: l) (Some (NElement c)) =
  (if named n c then [rest] else []) ++ reach Child l (Some (NElement c)).
Proof. unfold reach, named. simpl. destruct (tag c =? n); reflexivity. Qed.

Lemma waiting_reach n active c :
  Forall (waiting n) active ->
  Forall (fun p => p = [text_step]) (reach Child active (Some (NElement c))) /\
  inside (reach Child active (Some (NElement c))) =
  named n c && existsb (fun p => negb (one_step p)) active.
Proof.
  induction 1 as [|p l Hp _ [IH1 IH2]].
  - split; [constructor|]. rewrite andb_false_r. reflexivity.
  - destruct Hp as [->| ->].
    + rewrite reach_text_step. split; [exact IH1|]. rewrite IH2. reflexivity.
    + rewrite reach_name_step. cbn [existsb one_step negb orb].
      rewrite andb_true_r.
      destruct (named n c); cbn [app].
      * split; [constructor; [reflexivity|exact IH1]|]. reflexivity.
      * split; [exact IH1|]. rewrite IH2. reflexivity.
Qed.

Lemma waiting_child n active c :
  Forall (waiting n) active -> In [name_step n; text_step] active ->
  emit (reach Child active (Some (NElement c))) (Some (NElement c)) = [] /\
  Forall (waiting n) (carry active (reach Child active (Some (NElement c)))) /\
  In [name_step n; text_step]
     (carry active (reach Child active (Some (NElement c)))) /\
  inside (carry active (reach Child active (Some (NElement c)))) =
  inside active || named n c.
Proof.
  intros Hw Hn.
  destruct (waiting_reach n active c Hw) as [Hr1 Hr2].
  remember (reach Child active (Some (NElement c))) as r eqn:Er. clear Er.
  assert (Hdeep : filter deep_head active = active).
  { clear Hn Hr2. induction Hw as [|p l Hp _ IH]; [reflexivity|].
    cbn [filter]. rewrite IH. destruct Hp as [->| ->]; reflexivity. }
  assert (Hkeep : filter (fun p => negb (is_nil p)) r = r /\ final r = false).
  { clear Hr2. induction Hr1 as [|p l Hp _ [IH1 IH2]]; [split; reflexivity|].
    subst p. split.
    - simpl. rewrite IH1. reflexivity.
    - exact IH2. }
  destruct Hkeep as [Hkeep Hfinal].
  assert (Hexists : existsb (fun p => negb (one_step p)) active = true).
  { apply existsb_exists. eexists. split; [exact Hn | reflexivity]. }
  unfold carry. rewrite Hdeep, Hkeep.
  split; [|split; [|split]].
  - unfold emit. rewrite Hfinal. reflexivity.
  - apply Forall_app. split; [|exact Hw].
    apply Forall_forall. intros p Hp. left.
    exact (proj1 (Forall_forall _ _) Hr1 p Hp).
  - apply in_or_app. right. exact Hn.
  - transitivity (inside r || inside active); [apply existsb_app|].
    rewrite Hr2, Hexists, andb_true_r. apply orb_comm.
Qed.

Lemma below_texts n e :
  forall active,
    Forall (waiting n) active -> In [name_step n; text_step] active ->
    below active e = map NText (texts_below n (inside active) e).
Proof.
  induction e as [tg at_ tx cs tl IH] using Element_induction.
  intros active Hw Hn.
  rewrite (below_plain _ _ (waiting_plain n active Hw)).
  rewrite (waiting_text n active _ Hw), texts_below_eq.
  replace (flat_map (fun k => emit (reach Attribute active k) k) (attr_slots _))
    with (@nil xnode).
  2:{ symmetry. induction (attr_slots _) as [|k l IHl]; [reflexivity|].
      cbn [flat_map]. rewrite IHl, (waiting_attr n active k Hw), emit_nil.
      reflexivity. }
  cbn [app children text]. rewrite map_app. f_equal.
  induction IH as [|c cs Hc _ IHcs].
  - reflexivity.
  - cbn [flat_map]. rewrite IHcs, (waiting_text n active _ Hw).
    destruct (waiting_child n active c Hw Hn) as [-> [Hw' [Hn' Hi]]].
    rewrite (Hc _ Hw' Hn'), Hi.
    rewrite ?map_app, <- ?app_assoc. reflexivity.
Qed.

Lemma from_root_texts n doc :
  from_root [[name_step n; text_step]] doc = map NText (texts_under n doc).
Proof.
  assert (Hw : Forall (waiting n) [[name_step n; text_step]])
    by (repeat constructor; right; reflexivity).
  assert (Hn : In [name_step n; text_step] [[name_step n; text_step]])
    by (left; reflexivity).
  unfold from_root.
  rewrite (conts_plain _ _ _ (waiting_plain n _ Hw)). cbn [map].
  destruct (waiting_child n _ doc Hw Hn) as [-> [Hw' [Hn' Hi]]].
  rewrite (below_texts n doc _ Hw' Hn'), Hi. reflexivity.
Qed.

(** *** Quotes in an expression *)
Local Open Scope string_scope.

Lemma idle_quote c ts m' :
  c <> dquote ->
  idle c = Some (ts, m') ->
  single_quoted m' /\ in_quote m' = Ascii.eqb c "'".
Proof.
  intros Hd. unfold idle.
  destruct (Ascii.eqb_spec c "'") as [->|Hq].
  - vm_compute. intros [= <- <-]. split; reflexivity.
  - destruct (Ascii.eqb_spec c dquote) as [->|_]; [congruence|].
    repeat match goal with
           | |- context [if ?b then _ else _] => destruct b
           end;
      intros [= <- <-]; split; reflexivity.
Qed.

Lemma flush_quote t c ts m' :
  c <> dquote ->
  flush t c = Some (ts, m') ->
  single_quoted m' /\ in_quote m' = Ascii.eqb c "'".
Proof.
  intros Hd. unfold flush.
  destruct (idle c) as [[ts0 m0]|] eqn:Ei; [|discriminate].
  intros [= <- <-]. exact (idle_quote c ts0 m0 Hd Ei).
Qed.

Lemma feed_quote m c ts m' :
  single_quoted m -> c <> dquote ->
  feed m c = Some (ts, m') ->
  single_quoted m' /\ in_quote m' = xorb (in_quote m) (Ascii.eqb c "'").
Proof.
  intros Hm Hd. destruct m as [| |acc|acc|q acc]; simpl in *.
  - apply idle_quote. exact Hd.
  - destruct (Ascii.eqb_spec c "/") as [->|_].
    + intros [= <- <-]. split; reflexivity.
    + apply flush_quote. exact Hd.
  - destruct (is_name_char c) eqn:En.
    + intros [= <- <-]. split; [exact I|].
      destruct (Ascii.eqb_spec c "'") as [->|_]; [discriminate En|reflexivity].
    + apply flush_quote. exact Hd.
  - destruct (is_digit c) eqn:En.
    + intros [= <- <-]. split; [exact I|].
      destruct (Ascii.eqb_spec c "'") as [->|_]; [discriminate En|reflexivity].
    + apply flush_quote. exact Hd.
  - subst q. destruct (Ascii.eqb c "'"); intros [= <- <-]; split; reflexivity.
Qed.

(** A lexed string closes every literal it opens. *)
Lemma lex_quote_parity s :
  PyStr.contains_char dquote s = false ->
  forall m ts,
    single_quoted m ->
    lex m s = Some ts ->
    Nat.odd (quotes s) = in_quote m.
Proof.
  induction s as [|c s IH]; intros Hd m ts Hm; simpl.
  - destruct m; simpl; try discriminate; reflexivity.
  - simpl in Hd. apply orb_false_iff in Hd. destruct Hd as [Hc Hd].
    apply Ascii.eqb_neq in Hc.
    destruct (feed m c) as [[ts0 m0]|] eqn:Ef; [|discriminate].
    destruct (lex m0 s) as [ts1|] eqn:El; [|discriminate].
    intros _.
    destruct (feed_quote m c ts0 m0 Hm Hc Ef) as [Hm0 Hq].
    specialize (IH Hd m0 ts1 Hm0 El).
    destruct (Ascii.eqb c "'"); simpl.
    + rewrite Nat.odd_succ, <- Nat.negb_odd, IH, Hq.
      destruct (in_quote m); reflexivity.
    + rewrite IH, Hq. destruct (in_quote m); reflexivity.
Qed.

Lemma odd_quotes_rejected doc q :
  PyStr.contains_char dquote q = false ->
  Nat.odd (quotes q) = true ->
  evaluate doc q = inl (XPathEvalError "Invalid expression").
Proof.
  intros Hd Ho. unfold evaluate, parse, tokenize.
  destruct (lex Idle q) as [ts|] eqn:El; [|reflexivity].
  rewrite (lex_quote_parity q Hd Idle ts I El) in Ho. discriminate.
Qed.

Lemma quotes_app a b : quotes (a ++ b) = quotes a + quotes b.
Proof. induction a as [|c a IH]; simpl; [reflexivity | rewrite IH; lia]. Qed.

Lemma contains_char_app ch a b :
  PyStr.contains_char ch (a ++ b) = PyStr.contains_char ch a || PyStr.contains_char ch b.
Proof.
  induction a as [|c a IH]; simpl; [reflexivity | rewrite IH, orb_assoc; reflexivity].
Qed.

Lemma run_rejected parse_xml parse_html self q :
  PyStr.contains_char dquote q = false ->
  Nat.odd (quotes q) = true ->
  run (libxml parse_xml parse_html) (tree_xpath q self) =
  (inl (XPathEvalError "Invalid expression"), self).
Proof.
  intros Hd Ho. rewrite run_tree_xpath.
  change (libxml parse_xml parse_html (list pyobj) (xpath (self_tree self) q))
    with (evaluate (self_tree self) q).
  rewrite (odd_quotes_rejected _ q Hd Ho). reflexivity.
Qed.

(** *** The number in an expression *)

(** The digits of a number hold no quote of either kind. *)
Lemma digits_unquoted d :
  PyStr.contains_char dquote (NilEmpty.string_of_uint d) = false /\
  quotes (NilEmpty.string_of_uint d) = 0.
Proof.
  induction d as [|d [IH1 IH2]|d [IH1 IH2]|d [IH1 IH2]|d [IH1 IH2]
                  |d [IH1 IH2]|d [IH1 IH2]|d [IH1 IH2]|d [IH1 IH2]
                  |d [IH1 IH2]|d [IH1 IH2]];
    [split; reflexivity|..];
    cbn [NilEmpty.string_of_uint PyStr.contains_char quotes];
    rewrite IH1, IH2; split; reflexivity.
Qed.

Lemma decimal_unquoted n :
  PyStr.contains_char dquote (PyStr.decimal n) = false /\
  quotes (PyStr.decimal n) = 0.
Proof.
  unfold PyStr.decimal.
  destruct n as [|p|p]; cbn [Z.to_int NilEmpty.string_of_int];
    [split; reflexivity | apply digits_unquoted |].
  cbn [PyStr.contains_char quotes].
  destruct (digits_unquoted (Pos.to_uint p)) as [-> ->]. split; reflexivity.
Qed.

Lemma of_int_decimal n s : PyStr.of_int n = Some s -> s = PyStr.decimal n.
Proof.
  unfold PyStr.of_int.
  destruct (PyStr.digits n <=? PyStr.max_str_digits)%nat; congruence.
Qed.

(** With a number that can be formatted, [get_nth_child] is the query
    for its expression; with one that cannot, it is the error. *)
Lemma get_nth_child_formatted p c n s :
  PyStr.of_int n = Some s ->
  get_nth_child p c n = tree_xpath ("//" ++ p ++ "/" ++ c ++ "[" ++ s ++ "]").
Proof.
  intros Hs. unfold get_nth_child, format_int. rewrite Hs. reflexivity.
Qed.

Lemma get_nth_child_unformatted p c n :
  PyStr.of_int n = None ->
  get_nth_child p c n = raise str_digits_error.
Proof.
  intros Hs. unfold get_nth_child, format_int. rewrite Hs. reflexivity.
Qed.

(** *** The expressions the facade fixes *)
Local Open Scope list_scope.

Lemma evaluate_anchors doc :
  evaluate doc "//a" = inr (map PyElement (filter (named "a") (iter doc))).
Proof.
  unfold evaluate.
  change (parse "//a")
    with (Some (EPath true [Step true Child (NameTest "a") []])).
  cbv beta iota.
  change (denote doc _ (NElement doc))
    with (VNodes (from_root [[name_step "a"]] doc)).
  rewrite from_root_named, map_map. reflexivity.
Qed.

Lemma evaluate_values n a doc q :
  parse q = Some (EPath true [Step true Child (NameTest n) [];
                              Step false Attribute (NameTest a) []]) ->
  evaluate doc q = inr (map PyString (flat_map (values_of n a) (iter doc))).
Proof.
  intros Hq. unfold evaluate. rewrite Hq.
  cbv beta iota.
  change (denote doc _ (NElement doc))
    with (VNodes (from_root [[name_step n; attr_step a]] doc)).
  cbv beta iota. rewrite from_root_at_name. reflexivity.
Qed.

Lemma evaluate_links doc :
  evaluate doc "//a/@href" =
  inr (map PyString (flat_map (values_of "a" "href") (iter doc))).
Proof. apply evaluate_values. reflexivity. Qed.

Lemma evaluate_images doc :
  evaluate doc "//img/@src" =
  inr (map PyString (flat_map (values_of "img" "src") (iter doc))).
Proof. apply evaluate_values. reflexivity. Qed.

Lemma evaluate_article_texts doc :
  evaluate doc "//article//text()" =
  inr (map PyString (texts_under "article" doc)).
Proof.
  unfold evaluate.
  change (parse "//article//text()")
    with (Some (EPath true [Step true Child (NameTest "article") [];
                            Step true Child TextTest []])).
  cbv beta iota.
  change (denote doc _ (NElement doc))
    with (VNodes (from_root [[name_step "article"; text_step]] doc)).
  rewrite from_root_texts, map_map. reflexivity.
Qed.
End Engine.

(** ** Link classification *)
Section Links.
Variable h : lxml.

Lemma run_is_http s self :
  run h (is_http (PyString s) self) = (inr (is_http_str s), self).
Proof.
  unfold is_http, is_http_str.
  rewrite (run_bind_ret h _ _ self (PyStr.startswith s "http://"))
    by reflexivity.
  destruct (PyStr.startswith s "http://"); reflexivity.
Qed.

Lemma filter_strings (c : string -> bool) (f : pyobj -> bool) links :
  (forall s, f (PyString s) = c s) ->
  filter f (map PyString links) = map PyString (filter c links).
Proof.
  intros Hf. induction links as [|s links IH]; simpl.
  - reflexivity.
  - rewrite Hf. destruct (c s); simpl; congruence.
Qed.

(** What a string-valued link list is filtered to, given how the
    condition runs on a string. *)
Lemma run_filter_links (cond : pyobj -> M bool) (c : string -> bool)
      links self :
  (forall s, run h (cond (PyString s) self) = (inr (c s), self)) ->
  run h (comprehension cond ret (map PyString links) self) =
  (inr (map PyString (filter c links)), self).
Proof.
  intros Hc.
  rewrite (run_comprehension h cond ret
             (fun o => match o with PyString s => c s | _ => false end)
             (fun o => o)).
  - rewrite map_id.
    rewrite (filter_strings c) by reflexivity. reflexivity.
  - intros x Hx. apply in_map_iff in Hx. destruct Hx as [s [<- _]].
    apply Hc.
  - reflexivity.
Qed.

Lemma run_get_internal_links_only t base links :
  h _ (xpath t "//a/@href") = inr (map PyString links) ->
  run h (get_internal_links_only (mkXpath t base)) =
  (if truth base
   then inr (map PyString
               (filter (fun l => PyStr.startswith l (opt_str base)) links))
   else inl (ValueError
               "Base URL is not provided. Cannot determine internal links."),
   mkXpath t base).
Proof.
  intros Hq. unfold get_internal_links_only.
  rewrite (run_bind_ret h _ _ _ (map PyString links))
    by (unfold get_links; rewrite run_tree_xpath; simpl; rewrite Hq;
        reflexivity).
  rewrite (run_bind_ret h _ _ _ base) by reflexivity.
  destruct base as [[|c b]|]; simpl; try reflexivity.
  apply run_filter_links. reflexivity.
Qed.

Lemma run_get_outbound_links_only t base links :
  h _ (xpath t "//a/@href") = inr (map PyString links) ->
  run h (get_outbound_links_only (mkXpath t base)) =
  (inr (map PyString
          (filter (fun l => if truth base
                            then is_http_str l
                                 && negb (PyStr.startswith l (opt_str base))
                            else is_http_str l) links)),
   mkXpath t base).
Proof.
  intros Hq. unfold get_outbound_links_only.
  rewrite (run_bind_ret h _ _ _ (map PyString links))
    by (unfold get_links; rewrite run_tree_xpath; simpl; rewrite Hq;
        reflexivity).
  rewrite (run_bind_ret h _ _ _ base) by reflexivity.
  destruct base as [[|c b]|]; simpl.
  - apply run_filter_links. intros s. apply run_is_http.
  - apply run_filter_links. intros s.
    rewrite (run_bind_ret h _ _ _ (is_http_str s)) by apply run_is_http.
    destruct (is_http_str s); reflexivity.
  - apply run_filter_links. intros s. apply run_is_http.
Qed.
End Links.

(** What construction leaves behind when it succeeds. *)
Lemma run_init h content content_type base_url self :
  run h (__init__ content content_type base_url) = inr self ->
  self_base_url self = base_url /\
  ((content_type = "xml" /\
    h _ (etree_fromstring content) = inr (self_tree self)) \/
   (content_type = "html" /\
    h _ (html_fromstring content) = inr (self_tree self))).
Proof.
  unfold __init__.
  destruct (content_type =? "xml") eqn:Ex.
  - apply String.eqb_eq in Ex. simpl.
    destruct (h Element (etree_fromstring content)) as [e|t] eqn:Ep; simpl;
      intros [= <-]. simpl. auto.
  - destruct (content_type =? "html") eqn:Eh.
    + apply String.eqb_eq in Eh. simpl.
      destruct (h Element (html_fromstring content)) as [e|t] eqn:Ep; simpl;
        intros [= <-]. simpl. auto.
    + simpl. discriminate.
Qed.

(** ** Construction *)

(** C5: construction with a content type other than "xml" and "html"
    raises the [ValueError] at once, with no call to a parser; with "xml"
    the content goes to the XML parser and to no other, with "html" to
    the HTML parser and to no other, and the parser's tree (or its error)
    is what construction yields. *)
Theorem init_content_type h content content_type base_url :
  (content_type <> "xml" -> content_type <> "html" ->
   __init__ content content_type base_url = Ret (inl invalid_content_type) /\
   trace h (__init__ content content_type base_url) = []) /\
  (trace h (__init__ content "xml" base_url) = [ParsedXml content] /\
   run h (__init__ content "xml" base_url) =
   match h _ (etree_fromstring content) with
   | inl e => inl e
   | inr t => inr (mkXpath t base_url)
   end) /\
  (trace h (__init__ content "html" base_url) = [ParsedHtml content] /\
   run h (__init__ content "html" base_url) =
   match h _ (html_fromstring content) with
   | inl e => inl e
   | inr t => inr (mkXpath t base_url)
   end).
Proof.
  split; [|split].
  - intros Hx Hh. unfold __init__.
    apply String.eqb_neq in Hx. apply String.eqb_neq in Hh.
    rewrite Hx, Hh. split; reflexivity.
  - unfold __init__. simpl.
    destruct (h Element (etree_fromstring content)); split; reflexivity.
  - unfold __init__. simpl.
    destruct (h Element (html_fromstring content)); split; reflexivity.
Qed.

Lemma init_content_type_pdf :
  __init__ Sample.links_xml "pdf" None = Ret (inl invalid_content_type) /\
  trace Sample.lx (__init__ Sample.links_xml "pdf" None) = [].
Proof.
  apply (init_content_type Sample.lx Sample.links_xml "pdf" None);
    discriminate.
Defined.

(** ** Internal and outbound links *)

(** C1: on a facade constructed with no base URL,
    [get_internal_links_only] raises the [ValueError]; constructed with
    "https://example.com" it returns the links that start with that
    string, in the order of the link list, which for the three links of
    the example is the first one alone.  With the XPath engine of this
    development the link list is that of the document. *)
Theorem get_internal_links_only_spec h content content_type base_url self :
  run h (__init__ content content_type base_url) = inr self ->
  (forall links,
      h _ (xpath (self_tree self) "//a/@href") = inr (map PyString links) ->
      (base_url = None ->
       fst (run h (get_internal_links_only self)) = inl no_base_url) /\
      (base_url = Some "https://example.com" ->
       fst (run h (get_internal_links_only self)) =
       inr (map PyString
              (filter (fun l => PyStr.startswith l "https://example.com")
                      links)) /\
       (links = ["https://example.com/a"; "https://other.com/b"; "/relative"]
        -> fst (run h (get_internal_links_only self)) =
           inr [PyString "https://example.com/a"]))) /\
  (forall parse_xml parse_html,
      h = libxml parse_xml parse_html ->
      base_url = Some "https://example.com" ->
      fst (run h (get_internal_links_only self)) =
      inr (map PyString
             (filter (fun l => PyStr.startswith l "https://example.com")
                     (document_links (self_tree self))))).
Proof.
  intros Hinit.
  destruct (run_init _ _ _ _ _ Hinit) as [Hb _].
  destruct self as [t b]. cbn [self_tree self_base_url] in *. subst b.
  split.
  - intros links Hq.
    rewrite (run_get_internal_links_only h t base_url links Hq).
    split.
    + intros ->. reflexivity.
    + intros ->. split.
      * reflexivity.
      * intros ->. reflexivity.
  - intros parse_xml parse_html -> ->.
    rewrite (run_get_internal_links_only _ t _ (document_links t)
               (evaluate_links t)).
    reflexivity.
Qed.

Lemma get_internal_links_only_example :
  fst (run Sample.lx
           (get_internal_links_only (mkXpath Sample.links_tree None))) =
  inl no_base_url /\
  fst (run Sample.lx
           (get_internal_links_only
              (mkXpath Sample.links_tree (Some "https://example.com")))) =
  inr [PyString "https://example.com/a"].
Proof.
  split.
  - apply (proj1 (get_internal_links_only_spec Sample.lx Sample.links_xml
                    "xml" None (mkXpath Sample.links_tree None) eq_refl)
                 ["https://example.com/a"; "https://other.com/b";
                  "/relative"]);
      reflexivity.
  - apply (proj1 (get_internal_links_only_spec Sample.lx Sample.links_xml
                    "xml" (Some "https://example.com")
                    (mkXpath Sample.links_tree (Some "https://example.com"))
                    eq_refl)
                 ["https://example.com/a"; "https://other.com/b";
                  "/relative"]);
      reflexivity.
Defined.

(** C2, as the code has it: the base URL is stored as given, and
    [get_internal_links_only] raises the [ValueError] exactly when the
    stored base URL is [None] or the empty string. *)
Theorem base_url_stored_and_tested h content content_type base_url
        self links :
  run h (__init__ content content_type base_url) = inr self ->
  h _ (xpath (self_tree self) "//a/@href") = inr (map PyString links) ->
  self_base_url self = base_url /\
  (fst (run h (get_internal_links_only self)) = inl no_base_url <->
   base_url = None \/ base_url = Some "").
Proof.
  intros Hinit Hq.
  destruct (run_init _ _ _ _ _ Hinit) as [Hb _].
  split; [exact Hb|].
  destruct self as [t b]. cbn [self_tree self_base_url] in *. subst b.
  rewrite (run_get_internal_links_only h t base_url links Hq).
  destruct base_url as [[|c b]|]; simpl.
  - split; auto.
  - split; [discriminate|]. intros [H|H]; discriminate.
  - split; auto.
Qed.

Lemma base_url_stored_and_tested_example :
  self_base_url (mkXpath Sample.links_tree (Some "")) = Some "" /\
  (fst (run Sample.lx
            (get_internal_links_only (mkXpath Sample.links_tree (Some ""))))
   = inl no_base_url <->
   Some "" = @None string \/ Some "" = Some "").
Proof.
  apply (base_url_stored_and_tested Sample.lx Sample.links_xml "xml" (Some "")
           (mkXpath Sample.links_tree (Some ""))
           ["https://example.com/a"; "https://other.com/b"; "/relative"]);
    reflexivity.
Defined.

(** C2 as stated fails: a facade constructed with the empty string as
    base URL raises the [ValueError] of the absent base URL. *)
Lemma empty_base_url_raises :
  exists self,
    run Sample.lx (__init__ Sample.links_xml "xml" (Some "")) = inr self /\
    self_base_url self = Some "" /\
    fst (run Sample.lx (get_internal_links_only self)) = inl no_base_url.
Proof.
  exists (mkXpath Sample.links_tree (Some "")).
  repeat split.
Qed.

(** C4, as the code has it: [get_outbound_links_only] keeps the links
    that start with "http://" or "https://", in the order of the link
    list, and with a non-empty base URL drops those that start with it;
    an empty base URL drops nothing.  With "https://example.com" and the
    three links of the example the answer is the second link alone.
    With the XPath engine of this development the link list is that of
    the document. *)
Theorem get_outbound_links_only_spec h content content_type base_url self :
  let keep l :=
    is_http_str l &&
    match base_url with
    | Some (String c b) => negb (PyStr.startswith l (String c b))
    | _ => true
    end in
  run h (__init__ content content_type base_url) = inr self ->
  (forall links,
      h _ (xpath (self_tree self) "//a/@href") = inr (map PyString links) ->
      fst (run h (get_outbound_links_only self)) =
      inr (map PyString (filter keep links)) /\
      (base_url = Some "https://example.com" ->
       links = ["https://example.com/a"; "https://other.com/b"; "/relative"]
       -> fst (run h (get_outbound_links_only self)) =
          inr [PyString "https://other.com/b"])) /\
  (forall parse_xml parse_html,
      h = libxml parse_xml parse_html ->
      fst (run h (get_outbound_links_only self)) =
      inr (map PyString (filter keep (document_links (self_tree self))))).
Proof.
  intros keep Hinit.
  destruct (run_init _ _ _ _ _ Hinit) as [Hb _].
  destruct self as [t b]. cbn [self_tree self_base_url] in *. subst b.
  assert (Hkeep : forall links,
             filter (fun l => if truth base_url
                              then is_http_str l
                                   && negb (PyStr.startswith l
                                                             (opt_str base_url))
                              else is_http_str l) links =
             filter keep links).
  { intros links. apply filter_ext. intros l. unfold keep.
    destruct base_url as [[|c b]|]; simpl;
      rewrite ?andb_true_r; reflexivity. }
  split.
  - intros links Hq.
    rewrite (run_get_outbound_links_only h t base_url links Hq).
    split.
    + cbn [fst]. rewrite Hkeep. reflexivity.
    + intros -> ->. reflexivity.
  - intros parse_xml parse_html ->.
    rewrite (run_get_outbound_links_only _ t _ (document_links t)
               (evaluate_links t)).
    cbn [fst]. rewrite Hkeep. reflexivity.
Qed.

Lemma get_outbound_links_only_example :
  fst (run Sample.lx
           (get_outbound_links_only
              (mkXpath Sample.links_tree (Some "https://example.com")))) =
  inr [PyString "https://other.com/b"].
Proof.
  apply (proj1 (get_outbound_links_only_spec Sample.lx Sample.links_xml "xml"
                  (Some "https://example.com")
                  (mkXpath Sample.links_tree (Some "https://example.com"))
                  eq_refl)
               ["https://example.com/a"; "https://other.com/b"; "/relative"]);
    reflexivity.
Defined.

(** C4 as stated fails: with the empty string as base URL every link
    starts with the base URL, and the http links are returned all the
    same. *)
Lemma empty_base_url_excludes_nothing :
  exists self,
    run Sample.lx (__init__ Sample.links_xml "xml" (Some "")) = inr self /\
    fst (run Sample.lx (get_outbound_links_only self)) =
    inr [PyString "https://example.com/a"; PyString "https://other.com/b"] /\
    PyStr.startswith "https://example.com/a" "" = true /\
    PyStr.startswith "https://other.com/b" "" = true.
Proof.
  exists (mkXpath Sample.links_tree (Some "")).
  repeat split.
Qed.

(** ** Stripping *)
Section Strip.
Import PyStr.

Lemma lstrip_split s :
  exists lead, s = (lead ++ lstrip s)%string /\ all_space lead = true.
Proof.
  induction s as [|c s [lead [IH1 IH2]]]; simpl.
  - exists EmptyString. split; reflexivity.
  - destruct (isspace c) eqn:Ec.
    + exists (String c lead). simpl. rewrite Ec, IH2, <- IH1.
      split; reflexivity.
    + exists EmptyString. split; reflexivity.
Qed.

Lemma rstrip_split s :
  exists trail, s = (rstrip s ++ trail)%string /\ all_space trail = true.
Proof.
  induction s as [|c s [trail [IH1 IH2]]]; simpl.
  - exists EmptyString. split; reflexivity.
  - destruct (rstrip s) as [|c' r] eqn:Er.
    + simpl in IH1. subst trail.
      destruct (isspace c) eqn:Ec.
      * exists (String c s). simpl. rewrite Ec, IH2. split; reflexivity.
      * exists s. split; [reflexivity | exact IH2].
    + exists trail. simpl. rewrite IH1 at 1. split; [reflexivity | exact IH2].
Qed.

Lemma lstrip_head s : head_space (lstrip s) = false.
Proof.
  induction s as [|c s IH]; simpl.
  - reflexivity.
  - destruct (isspace c) eqn:Ec; [exact IH | simpl; exact Ec].
Qed.

Lemma rstrip_last s : last_space (rstrip s) = false.
Proof.
  induction s as [|c s IH]; simpl.
  - reflexivity.
  - destruct (rstrip s) as [|c' r] eqn:Er.
    + destruct (isspace c) eqn:Ec; simpl; [reflexivity | exact Ec].
    + exact IH.
Qed.

Lemma rstrip_head s : head_space s = false -> head_space (rstrip s) = false.
Proof.
  destruct s as [|c s]; simpl.
  - reflexivity.
  - intros Ec. destruct (rstrip s); [rewrite Ec|]; simpl; exact Ec.
Qed.

Lemma strip_split s :
  exists lead trail,
    s = (lead ++ strip s ++ trail)%string /\
    all_space lead = true /\ all_space trail = true.
Proof.
  destruct (lstrip_split s) as [lead [H1 H2]].
  destruct (rstrip_split (lstrip s)) as [trail [H3 H4]].
  exists lead, trail. unfold strip. rewrite <- H3. auto.
Qed.

Lemma strip_ends s :
  head_space (strip s) = false /\ last_space (strip s) = false.
Proof.
  unfold strip. split.
  - apply rstrip_head, lstrip_head.
  - apply rstrip_last.
Qed.

Lemma head_not_all_space s :
  truthy s = true -> head_space s = false -> all_space s = false.
Proof.
  destruct s as [|c s]; simpl.
  - discriminate.
  - intros _ ->. reflexivity.
Qed.

Lemma truthy_nonempty s : truthy s = true <-> s <> EmptyString.
Proof.
  destruct s; simpl; split; congruence.
Qed.
End Strip.

(** ** Article text *)

(** C6: [get_article_text] returns, in the order of the text nodes the
    engine finds under the article elements, each text with its leading
    and trailing whitespace removed, and leaves out the texts of which
    nothing remains; no entry of the answer is empty or made of
    whitespace only.  With the XPath engine of this development the text
    nodes are, for every document, those that lie under an article
    element, in document order. *)
Theorem get_article_text_spec (h : lxml) self :
  (forall texts,
      h _ (xpath (self_tree self) "//article//text()") =
      inr (map PyString texts) ->
      run h (get_article_text self) = (inr (stripped texts), self)) /\
  (forall parse_xml parse_html,
      run (libxml parse_xml parse_html) (get_article_text self) =
      (inr (stripped (XPath1.texts_under "article" (self_tree self))), self))
  /\
  (forall t, exists lead trail,
      t = (lead ++ PyStr.strip t ++ trail)%string /\
      PyStr.all_space lead = true /\ PyStr.all_space trail = true /\
      PyStr.head_space (PyStr.strip t) = false /\
      PyStr.last_space (PyStr.strip t) = false) /\
  (forall texts,
      Forall (fun r => r <> EmptyString /\ PyStr.all_space r = false)
             (stripped texts)).
Proof.
  assert (Hrun : forall (h : lxml) texts,
             h _ (xpath (self_tree self) "//article//text()") =
             inr (map PyString texts) ->
             run h (get_article_text self) = (inr (stripped texts), self)).
  { clear h. intros h texts Hq. unfold get_article_text.
    rewrite (run_bind_ret h _ _ _ (map PyString texts))
      by (rewrite run_tree_xpath, Hq; reflexivity).
    rewrite (run_comprehension h _ _
               (fun o => match o with
                         | PyString s => PyStr.truthy (PyStr.strip s)
                         | _ => false
                         end)
               (fun o => match o with
                         | PyString s => PyStr.strip s
                         | _ => EmptyString
                         end)).
    - f_equal. f_equal. unfold stripped.
      rewrite (filter_strings (fun t => PyStr.truthy (PyStr.strip t)))
        by reflexivity.
      rewrite map_map. reflexivity.
    - intros x Hx. apply in_map_iff in Hx. destruct Hx as [s [<- _]].
      reflexivity.
    - intros x Hx _. apply in_map_iff in Hx. destruct Hx as [s [<- _]].
      reflexivity. }
  split; [|split; [|split]].
  - apply Hrun.
  - intros parse_xml parse_html. apply Hrun.
    apply evaluate_article_texts.
  - intros t. destruct (strip_split t) as [lead [trail [H1 [H2 H3]]]].
    destruct (strip_ends t) as [H4 H5].
    exists lead, trail. auto.
  - intros texts. apply Forall_forall. intros r Hr.
    apply in_map_iff in Hr. destruct Hr as [t [<- Ht]].
    apply filter_In in Ht. destruct Ht as [_ Ht].
    split.
    + apply truthy_nonempty. exact Ht.
    + apply head_not_all_space; [exact Ht | apply strip_ends].
Qed.

Lemma get_article_text_example :
  run Sample.lx (get_article_text (mkXpath Sample.article_tree None)) =
  (inr ["lead"; "para"], mkXpath Sample.article_tree None).
Proof.
  apply (proj1 (get_article_text_spec Sample.lx
                  (mkXpath Sample.article_tree None))
               [" lead "; "para"; "  "]).
  reflexivity.
Defined.

(** ** Dictionaries *)
Section DictFacts.
Context {V : Type}.
Implicit Types (d : PyDict.t V) (k : string) (v : V).

Lemma keys_set d k v k' :
  In k' (PyDict.keys (PyDict.set d k v)) <-> k' = k \/ In k' (PyDict.keys d).
Proof.
  induction d as [|[k0 v0] d IH]; simpl.
  - intuition.
  - destruct (String.eqb_spec k0 k) as [->|Hne]; simpl.
    + intuition.
    + rewrite IH. intuition.
Qed.

Lemma nodup_set d k v :
  NoDup (PyDict.keys d) -> NoDup (PyDict.keys (PyDict.set d k v)).
Proof.
  induction d as [|[k0 v0] d IH]; simpl; intros Hd.
  - constructor; [intros [] | constructor].
  - inversion Hd as [|? ? Hin Hd']; subst.
    destruct (String.eqb_spec k0 k) as [->|Hne]; simpl.
    + constructor; assumption.
    + constructor; [|apply IH; exact Hd'].
      intros Hk. apply keys_set in Hk. destruct Hk as [Hk|Hk]; auto.
Qed.

Lemma entries_absent d k :
  ~ In k (PyDict.keys d) -> PyDict.entries d k = [].
Proof.
  induction d as [|[k0 v0] d IH]; simpl; intros Hk.
  - reflexivity.
  - destruct (String.eqb_spec k0 k) as [->|Hne].
    + exfalso. apply Hk. left. reflexivity.
    + apply IH. intros Hin. apply Hk. right. exact Hin.
Qed.

Lemma entries_set_same d k v :
  NoDup (PyDict.keys d) -> PyDict.entries (PyDict.set d k v) k = [(k, v)].
Proof.
  induction d as [|[k0 v0] d IH]; simpl; intros Hd.
  - rewrite String.eqb_refl. reflexivity.
  - inversion Hd as [|? ? Hin Hd']; subst.
    destruct (String.eqb_spec k0 k) as [->|Hne]; simpl.
    + rewrite String.eqb_refl. f_equal.
      apply (entries_absent d k Hin).
    + apply String.eqb_neq in Hne. rewrite Hne. apply IH. exact Hd'.
Qed.

Lemma entries_set_other d k v k' :
  k' <> k ->
  PyDict.entries (PyDict.set d k v) k' = PyDict.entries d k'.
Proof.
  intros Hne. induction d as [|[k0 v0] d IH]; simpl.
  - destruct (String.eqb_spec k k'); [congruence | reflexivity].
  - destruct (String.eqb_spec k0 k) as [->|Hne0]; simpl.
    + destruct (String.eqb_spec k k'); [congruence | reflexivity].
    + destruct (String.eqb_spec k0 k'); [f_equal|]; exact IH.
Qed.

Lemma lookup_entries d k :
  PyDict.lookup d k =
  match PyDict.entries d k with
  | [] => None
  | kv :: _ => Some (snd kv)
  end.
Proof.
  induction d as [|[k0 v0] d IH]; simpl.
  - reflexivity.
  - destruct (String.eqb_spec k0 k); [reflexivity | exact IH].
Qed.

Lemma fill_cons d kv kvs :
  PyDict.fill d (kv :: kvs) =
  PyDict.fill (PyDict.set d (fst kv) (snd kv)) kvs.
Proof. reflexivity. Qed.

Lemma fill_app d l1 l2 :
  PyDict.fill d (l1 ++ l2) = PyDict.fill (PyDict.fill d l1) l2.
Proof. apply fold_left_app. Qed.

Lemma nodup_fill kvs d :
  NoDup (PyDict.keys d) -> NoDup (PyDict.keys (PyDict.fill d kvs)).
Proof.
  revert d. induction kvs as [|[k v] kvs IH]; intros d Hd.
  - exact Hd.
  - rewrite fill_cons. apply IH, nodup_set, Hd.
Qed.

Lemma keys_fill kvs d k :
  In k (PyDict.keys (PyDict.fill d kvs)) <->
  In k (PyDict.keys d) \/ In k (map fst kvs).
Proof.
  revert d. induction kvs as [|[k0 v0] kvs IH]; intros d.
  - simpl. intuition.
  - rewrite fill_cons, IH, keys_set. simpl. intuition.
Qed.

Lemma entries_fill_later kvs d k :
  ~ In k (map fst kvs) ->
  PyDict.entries (PyDict.fill d kvs) k = PyDict.entries d k.
Proof.
  revert d. induction kvs as [|[k0 v0] kvs IH]; intros d Hk.
  - reflexivity.
  - rewrite fill_cons, IH by (simpl in Hk; intuition).
    apply entries_set_other. simpl in *. intuition.
Qed.

(** The last pair under a key decides the key's one entry. *)
Lemma entries_fill_last l1 k v l2 d :
  NoDup (PyDict.keys d) ->
  ~ In k (map fst l2) ->
  PyDict.entries (PyDict.fill d (l1 ++ (k, v) :: l2)) k = [(k, v)].
Proof.
  intros Hd Hk. rewrite fill_app, fill_cons.
  rewrite entries_fill_later by exact Hk.
  apply entries_set_same, nodup_fill, Hd.
Qed.
End DictFacts.

(** ** Links with text *)
Section LinksWithText.
Variable h : lxml.

Lemma fold_set_fill {A V} (k : A -> string) (v : A -> V) xs d :
  fold_left (fun d x => PyDict.set d (k x) (v x)) xs d =
  PyDict.fill d (map (fun x => (k x, v x)) xs).
Proof.
  revert d. induction xs as [|x xs IH]; intros d; simpl.
  - reflexivity.
  - rewrite IH. reflexivity.
Qed.

Lemma filter_elements (c : Element -> bool) (f : pyobj -> bool) es :
  (forall e, f (PyElement e) = c e) ->
  filter f (map PyElement es) = map PyElement (filter c es).
Proof.
  intros Hf. induction es as [|e es IH]; simpl.
  - reflexivity.
  - rewrite Hf. destruct (c e); simpl; congruence.
Qed.

Lemma run_get_links_with_text self anchors :
  h _ (xpath (self_tree self) "//a") = inr (map PyElement anchors) ->
  run h (get_links_with_text self) = (inr (link_map anchors), self).
Proof.
  intros Hq. unfold get_links_with_text.
  rewrite (run_bind_ret h _ _ _ (map PyElement anchors))
    by (rewrite run_tree_xpath, Hq; reflexivity).
  rewrite (run_dict_comprehension h _ _ _
             (fun o => match o with
                       | PyElement e => truth (text e)
                       | _ => false
                       end)
             (fun o => match o with
                       | PyElement e => opt_str (text e)
                       | _ => EmptyString
                       end)
             (fun o => match o with
                       | PyElement e => get e "href"
                       | _ => None
                       end)).
  - f_equal. f_equal. unfold link_map.
    rewrite (filter_elements (fun a => truth (text a))) by reflexivity.
    rewrite fold_set_fill, map_map. reflexivity.
  - intros x Hx. apply in_map_iff in Hx. destruct Hx as [e [<- _]].
    reflexivity.
  - intros x Hx. apply in_map_iff in Hx. destruct Hx as [e [<- _]].
    reflexivity.
  - intros x Hx. apply in_map_iff in Hx. destruct Hx as [e [<- _]].
    reflexivity.
Qed.

Lemma truth_some o : truth o = true <-> exists k, o = Some k /\ k <> "".
Proof.
  destruct o as [[|c s]|]; simpl; split; try discriminate.
  - intros [k [[= <-] Hk]]. congruence.
  - intros _. eexists. split; [reflexivity | discriminate].
  - reflexivity.
  - intros [k [[=] _]].
Qed.

Lemma link_map_keys anchors k :
  In k (PyDict.keys (link_map anchors)) <->
  k <> "" /\ exists a, In a anchors /\ text a = Some k.
Proof.
  unfold link_map. rewrite keys_fill, map_map. simpl. split.
  - intros [[]|Hk]. apply in_map_iff in Hk.
    destruct Hk as [a [<- Ha]]. apply filter_In in Ha.
    destruct Ha as [Ha Ht]. apply truth_some in Ht.
    destruct Ht as [k [Hk Hne]]. rewrite Hk. simpl. eauto.
  - intros [Hne [a [Ha Hk]]]. right. apply in_map_iff.
    exists a. split.
    + rewrite Hk. reflexivity.
    + apply filter_In. split; [exact Ha|].
      apply truth_some. eauto.
Qed.

Lemma link_map_nodup anchors : NoDup (PyDict.keys (link_map anchors)).
Proof. apply nodup_fill. constructor. Qed.

(** The one entry under a text is that of the last anchor with it. *)
Lemma link_map_last l1 a l2 k :
  text a = Some k -> k <> "" ->
  (forall a', In a' l2 -> text a' <> Some k) ->
  PyDict.entries (link_map (l1 ++ a :: l2)) k = [(k, get a "href")].
Proof.
  intros Hk Hne Hlater. unfold link_map.
  rewrite filter_app. simpl.
  replace (truth (text a)) with true
    by (symmetry; apply truth_some; eauto).
  rewrite map_app. simpl. unfold link_entry at 2. rewrite Hk. simpl.
  apply entries_fill_last; [constructor|].
  rewrite map_map. intros Hin. apply in_map_iff in Hin.
  destruct Hin as [a' [Hk' Ha']]. apply filter_In in Ha'.
  destruct Ha' as [Ha' Ht]. apply truth_some in Ht.
  destruct Ht as [k' [Hk'' _]]. simpl in Hk'. rewrite Hk'' in Hk'.
  simpl in Hk'. subst k'. exact (Hlater a' Ha' Hk'').
Qed.

(** An anchor without direct text leaves the mapping as it would be
    without the anchor. *)
Lemma link_map_skip l1 a l2 :
  truth (text a) = false -> link_map (l1 ++ a :: l2) = link_map (l1 ++ l2).
Proof.
  intros Ht. unfold link_map. rewrite !filter_app. simpl.
  rewrite Ht. reflexivity.
Qed.
End LinksWithText.

(** C3, as the code has it: the mapping of [get_links_with_text] has no
    empty key and no key twice; its keys are the non-empty direct texts
    of the anchors, taken as they are (a text of whitespace only is a key
    too); and where several anchors share a text, the one entry under
    that text holds the href of the last of them.  With the XPath engine
    of this development the anchors are, for every document, its
    elements named a, in document order. *)
Theorem get_links_with_text_keys (h : lxml) self :
  (forall anchors,
      h _ (xpath (self_tree self) "//a") = inr (map PyElement anchors) ->
      exists d,
        run h (get_links_with_text self) = (inr d, self) /\
        ~ In EmptyString (PyDict.keys d) /\
        NoDup (PyDict.keys d) /\
        (forall k, In k (PyDict.keys d) <->
                   k <> "" /\ exists a, In a anchors /\ text a = Some k) /\
        (forall l1 a l2 k,
            anchors = l1 ++ a :: l2 ->
            text a = Some k -> k <> "" ->
            (forall a', In a' l2 -> text a' <> Some k) ->
            PyDict.entries d k = [(k, get a "href")])) /\
  (forall parse_xml parse_html,
      exists d,
        run (libxml parse_xml parse_html) (get_links_with_text self) =
        (inr d, self) /\
        d = link_map (filter (XPath1.named "a") (iter (self_tree self))) /\
        ~ In EmptyString (PyDict.keys d) /\
        NoDup (PyDict.keys d)).
Proof.
  assert (Hempty : forall anchors,
             ~ In EmptyString (PyDict.keys (link_map anchors))).
  { intros anchors Hin. apply link_map_keys in Hin. destruct Hin as [Hne _].
    apply Hne. reflexivity. }
  split.
  - intros anchors Hq. exists (link_map anchors).
    split; [apply run_get_links_with_text; exact Hq|].
    split; [apply Hempty|].
    split; [apply link_map_nodup|].
    split; [apply link_map_keys|].
    intros l1 a l2 k -> Hk Hne Hlater. apply link_map_last; assumption.
  - intros parse_xml parse_html. eexists.
    split; [apply run_get_links_with_text; apply evaluate_anchors|].
    split; [reflexivity|].
    split; [apply Hempty | apply link_map_nodup].
Qed.

Lemma get_links_with_text_keys_example :
  exists d,
    run Sample.lx (get_links_with_text (mkXpath Sample.anchors_tree None)) =
    (inr d, mkXpath Sample.anchors_tree None) /\
    PyDict.entries d "Home" = [("Home", Some "/second")].
Proof.
  destruct (proj1 (get_links_with_text_keys Sample.lx
                     (mkXpath Sample.anchors_tree None))
              (match Sample.anchors_tree with
               | mkElement _ _ _ [mkElement _ _ _ l _] _ => l
               | _ => []
               end) eq_refl) as [d [Hrun [_ [_ [_ Hlast]]]]].
  exists d. split; [exact Hrun|].
  apply (Hlast [Sample.leaf "a" [("href", "/first")] "Home"]
               (Sample.leaf "a" [("href", "/second")] "Home")
               [mkElement "a" [("href", "/deep")] None
                  [Sample.leaf "b" [] "Rel"] None;
                Sample.leaf "a" [] "plain";
                Sample.leaf "a" [("href", "/ws")] " "]
               "Home").
  - reflexivity.
  - reflexivity.
  - discriminate.
  - intros a' [<-|[<-|[<-|[]]]]; discriminate.
Defined.

(** C3 as stated fails: an anchor whose text is one space gives the
    mapping a key that is empty once stripped. *)
Lemma whitespace_key_kept :
  exists self d,
    run Sample.lx (__init__ Sample.anchors_xml "xml" None) = inr self /\
    fst (run Sample.lx (get_links_with_text self)) = inr d /\
    In " " (PyDict.keys d) /\
    PyStr.strip " " = EmptyString /\
    PyStr.all_space " " = true.
Proof.
  exists (mkXpath Sample.anchors_tree None).
  exists [("Home", Some "/second"); ("plain", None); (" ", Some "/ws")].
  repeat split. simpl. auto.
Qed.

(** C10: [get_links_with_text] reads the anchor's direct text only.  The
    mapping is filled from the anchors whose direct text is non-empty: an
    anchor without direct text changes nothing, whatever text its
    descendants render, and an anchor with direct text and no href puts
    its text in the mapping with [None] as value.  With the XPath engine
    of this development the anchors are, for every document, its
    elements named a. *)
Theorem get_links_with_text_direct (h : lxml) self :
  (forall anchors,
      h _ (xpath (self_tree self) "//a") = inr (map PyElement anchors) ->
      run h (get_links_with_text self) = (inr (link_map anchors), self)) /\
  (forall parse_xml parse_html,
      run (libxml parse_xml parse_html) (get_links_with_text self) =
      (inr (link_map (filter (XPath1.named "a") (iter (self_tree self)))),
       self)) /\
  (forall l1 a l2,
      text a = None ->
      link_map (l1 ++ a :: l2) = link_map (l1 ++ l2) /\
      (forall k, In k (PyDict.keys (link_map (l1 ++ a :: l2))) ->
                 exists a', In a' (l1 ++ l2) /\ text a' = Some k)) /\
  (forall l1 a l2 k,
      text a = Some k -> k <> "" -> get a "href" = None ->
      (forall a', In a' l2 -> text a' <> Some k) ->
      PyDict.entries (link_map (l1 ++ a :: l2)) k = [(k, None)] /\
      PyDict.lookup (link_map (l1 ++ a :: l2)) k = Some None).
Proof.
  split; [|split; [|split]].
  - intros anchors Hq. apply run_get_links_with_text. exact Hq.
  - intros parse_xml parse_html. apply run_get_links_with_text.
    apply evaluate_anchors.
  - intros l1 a l2 Ht.
    assert (Hskip : link_map (l1 ++ a :: l2) = link_map (l1 ++ l2))
      by (apply link_map_skip; rewrite Ht; reflexivity).
    split; [exact Hskip|].
    intros k Hk. rewrite Hskip in Hk. apply link_map_keys in Hk.
    destruct Hk as [_ Hk]. exact Hk.
  - intros l1 a l2 k Hk Hne Hhref Hlater.
    assert (He : PyDict.entries (link_map (l1 ++ a :: l2)) k = [(k, None)])
      by (rewrite <- Hhref; apply link_map_last; assumption).
    split; [exact He|].
    rewrite lookup_entries, He. reflexivity.
Qed.

Lemma get_links_with_text_direct_example :
  run Sample.lx (get_links_with_text (mkXpath Sample.anchors_tree None)) =
  (inr [("Home", Some "/second"); ("plain", None); (" ", Some "/ws")],
   mkXpath Sample.anchors_tree None) /\
  (link_map [Sample.leaf "a" [("href", "/first")] "Home";
             mkElement "a" [("href", "/deep")] None
                       [Sample.leaf "b" [] "Rel"] None;
             Sample.leaf "a" [] "plain"] =
   link_map [Sample.leaf "a" [("href", "/first")] "Home";
             Sample.leaf "a" [] "plain"] /\
   text_content (mkElement "a" [("href", "/deep")] None
                           [Sample.leaf "b" [] "Rel"] None) = "Rel") /\
  PyDict.lookup
    (link_map [Sample.leaf "a" [("href", "/first")] "Home";
               mkElement "a" [("href", "/deep")] None
                         [Sample.leaf "b" [] "Rel"] None;
               Sample.leaf "a" [] "plain"]) "plain" = Some None.
Proof.
  pose (deep := mkElement "a" [("href", "/deep")] None
                          [Sample.leaf "b" [] "Rel"] None).
  pose (home := Sample.leaf "a" [("href", "/first")] "Home").
  pose (plain := Sample.leaf "a" [] "plain").
  destruct (get_links_with_text_direct Sample.lx
              (mkXpath Sample.anchors_tree None))
    as [Hrun [_ [Hskip Hnone]]].
  split; [|split; [split|]].
  - apply (Hrun [Sample.leaf "a" [("href", "/first")] "Home";
                 Sample.leaf "a" [("href", "/second")] "Home";
                 deep; plain; Sample.leaf "a" [("href", "/ws")] " "]).
    reflexivity.
  - apply (Hskip [home] deep [plain]); reflexivity.
  - reflexivity.
  - apply (Hnone [home; deep] plain [] "plain");
      try reflexivity; [discriminate | intros a' []].
Defined.

(** ** The object is never written *)
Create HintDb read_only.

Section ReadOnly.

Lemma read_only_ret {A} (a : A) : read_only (ret a).
Proof. intros h self. reflexivity. Qed.

Lemma read_only_raise {A} (e : exn) : read_only (@raise A e).
Proof. intros h self. reflexivity. Qed.

Lemma read_only_getattr {A} (field : Xpath -> A) : read_only (getattr field).
Proof. intros h self. reflexivity. Qed.

Lemma read_only_invoke {X} (c : call X) : read_only (invoke c).
Proof. intros h self. reflexivity. Qed.

Lemma read_only_bind {A B} (m : M A) (f : A -> M B) :
  read_only m -> (forall a, read_only (f a)) -> read_only (bind m f).
Proof.
  intros Hm Hf h self. rewrite run_bind, Hm.
  destruct (fst (run h (m self))) as [e|a].
  - reflexivity.
  - apply Hf.
Qed.

Lemma read_only_if {A} (b : bool) (m1 m2 : M A) :
  read_only m1 -> read_only m2 -> read_only (if b then m1 else m2).
Proof. destruct b; auto. Qed.

#[local] Hint Resolve read_only_ret read_only_raise read_only_getattr
     read_only_invoke read_only_bind read_only_if : read_only.

Lemma read_only_comprehension {A B} (cond : A -> M bool) (out : A -> M B) xs :
  (forall x, read_only (cond x)) -> (forall x, read_only (out x)) ->
  read_only (comprehension cond out xs).
Proof.
  intros Hc Ho. induction xs as [|x xs IH]; simpl.
  - auto with read_only.
  - apply read_only_bind; [apply Hc|]. intros c.
    apply read_only_if; [|exact IH].
    apply read_only_bind; [apply Ho|]. intros y.
    apply read_only_bind; [exact IH|]. auto with read_only.
Qed.

Lemma read_only_dict_comprehension {A V} (cond : A -> M bool)
      (key : A -> M string) (val : A -> M V) xs :
  (forall x, read_only (cond x)) -> (forall x, read_only (key x)) ->
  (forall x, read_only (val x)) ->
  forall d, read_only (dict_comprehension cond key val xs d).
Proof.
  intros Hc Hk Hv. induction xs as [|x xs IH]; intros d; simpl.
  - auto with read_only.
  - apply read_only_bind; [apply Hc|]. intros c.
    apply read_only_if; [|apply IH].
    apply read_only_bind; [apply Hk|]. intros k.
    apply read_only_bind; [apply Hv|]. intros v. apply IH.
Qed.

Lemma read_only_str_strip o : read_only (str_strip o).
Proof. destruct o; simpl; auto with read_only. Qed.

Lemma read_only_str_startswith o p : read_only (str_startswith o p).
Proof. destruct o, p; simpl; auto with read_only. Qed.

Lemma read_only_element_text o : read_only (element_text o).
Proof. destruct o; simpl; auto with read_only. Qed.

Lemma read_only_element_get o name : read_only (element_get o name).
Proof. destruct o; simpl; auto with read_only. Qed.

Lemma read_only_tree_xpath q : read_only (tree_xpath q).
Proof. unfold tree_xpath. auto with read_only. Qed.

#[local] Hint Resolve read_only_comprehension read_only_dict_comprehension
     read_only_str_strip read_only_str_startswith read_only_element_text
     read_only_element_get read_only_tree_xpath : read_only.

Lemma read_only_is_http link : read_only (is_http link).
Proof.
  unfold is_http. apply read_only_bind; auto with read_only.
Qed.

Lemma read_only_get_article_text : read_only get_article_text.
Proof.
  unfold get_article_text.
  apply read_only_bind; [auto with read_only|]. intros articles.
  apply read_only_comprehension; intros; auto with read_only.
Qed.

Lemma read_only_get_links_with_text : read_only get_links_with_text.
Proof.
  unfold get_links_with_text.
  apply read_only_bind; [auto with read_only|]. intros anchors.
  apply read_only_dict_comprehension; intros; auto with read_only.
Qed.

Lemma read_only_get_outbound_links_only : read_only get_outbound_links_only.
Proof.
  unfold get_outbound_links_only, get_links.
  apply read_only_bind; [auto with read_only|]. intros links.
  apply read_only_bind; [auto with read_only|]. intros base.
  apply read_only_if; apply read_only_comprehension; intros;
    auto using read_only_is_http with read_only.
Qed.

Lemma read_only_get_internal_links_only : read_only get_internal_links_only.
Proof.
  unfold get_internal_links_only, get_links.
  apply read_only_bind; [auto with read_only|]. intros links.
  apply read_only_bind; [auto with read_only|]. intros base.
  apply read_only_if; [auto with read_only|].
  apply read_only_comprehension; intros; auto with read_only.
Qed.

Lemma read_only_fmap {A B} (f : A -> B) (m : M A) :
  read_only m -> read_only (fmap f m).
Proof. intros Hm. unfold fmap. auto with read_only. Qed.

Lemma read_only_format_int n : read_only (format_int n).
Proof. unfold format_int. destruct (PyStr.of_int n); auto with read_only. Qed.

Lemma read_only_get_nth_child p c n : read_only (get_nth_child p c n).
Proof.
  unfold get_nth_child.
  apply read_only_bind; [apply read_only_format_int|].
  intros s. apply read_only_tree_xpath.
Qed.

Lemma read_only_dispatch m : read_only (dispatch m).
Proof.
  destruct m; cbn [dispatch]; apply read_only_fmap;
    first [ apply read_only_tree_xpath
          | apply read_only_get_nth_child
          | apply read_only_get_article_text
          | apply read_only_get_links_with_text
          | apply read_only_get_outbound_links_only
          | apply read_only_get_internal_links_only ].
Qed.

Variable h : lxml.

Lemma run_session_cons m ms self :
  run h (session (m :: ms) self) =
  (fst (run h (dispatch m self))
     :: fst (run h (session ms (snd (run h (dispatch m self))))),
   snd (run h (session ms (snd (run h (dispatch m self)))))).
Proof. simpl. rewrite !run_pbind. reflexivity. Qed.

Lemma session_state ms self : snd (run h (session ms self)) = self.
Proof.
  induction ms as [|m ms IH].
  - reflexivity.
  - rewrite run_session_cons. simpl.
    rewrite read_only_dispatch. exact IH.
Qed.

Lemma session_outcomes ms self :
  fst (run h (session ms self)) =
  map (fun m => fst (run h (dispatch m self))) ms.
Proof.
  induction ms as [|m ms IH].
  - reflexivity.
  - rewrite run_session_cons. simpl.
    rewrite read_only_dispatch, IH. reflexivity.
Qed.
End ReadOnly.

(** C9: after any sequence of query and extraction calls the object,
    with its tree and its base URL, is the object before the calls;
    the outcome of each call in a sequence is the outcome the call has on
    its own, so that a sequence of two gives the outcomes of its halves
    and a call made twice has the same outcome twice. *)
Theorem queries_leave_the_object (h : lxml) (self : Xpath) :
  (forall ms, snd (run h (session ms self)) = self) /\
  (forall ms,
      self_tree (snd (run h (session ms self))) = self_tree self /\
      self_base_url (snd (run h (session ms self))) = self_base_url self) /\
  (forall ms1 ms2,
      fst (run h (session (ms1 ++ ms2) self)) =
      fst (run h (session ms1 self)) ++ fst (run h (session ms2 self))) /\
  (forall m,
      fst (run h (session [m; m] self)) =
      [fst (run h (dispatch m self)); fst (run h (dispatch m self))]).
Proof.
  split; [|split; [|split]].
  - intros ms. apply session_state.
  - intros ms. rewrite session_state. split; reflexivity.
  - intros ms1 ms2. rewrite !session_outcomes. apply map_app.
  - intros m. rewrite session_outcomes. reflexivity.
Qed.


(** ** Queries by class *)

Lemma has_attribute_get e name value :
  NoDup (map fst (attrib e)) ->
  has_attribute e name value = true <-> get e name = Some value.
Proof.
  unfold has_attribute, get.
  induction (attrib e) as [|[k v] l IH]; simpl; intros Hd.
  - split; discriminate.
  - inversion Hd as [|? ? Hk Hd']; subst.
    destruct (String.eqb_spec k name) as [->|Hne]; simpl.
    + destruct (String.eqb_spec v value) as [->|Hv]; simpl.
      * split; reflexivity.
      * split; [|congruence].
        intros Hex. apply existsb_exists in Hex.
        destruct Hex as [[k' v'] [Hin Hkv]]. simpl in Hkv.
        apply andb_true_iff in Hkv. destruct Hkv as [Hk' _].
        apply String.eqb_eq in Hk'. subst k'.
        exfalso. apply Hk. apply in_map_iff. exists (name, v'). auto.
    + apply IH. exact Hd'.
Qed.

Lemma in_elements (f : Element -> bool) l e :
  In (PyElement e) (map PyElement (filter f l)) <-> In e l /\ f e = true.
Proof.
  rewrite <- filter_In. split.
  - intros Hin. apply in_map_iff in Hin.
    destruct Hin as [e' [[= ->] He]]. exact He.
  - intros Hin. apply in_map. exact Hin.
Qed.

(** C7: [get_nodes_by_class] answers, in document order, the elements
    of any tag that carry a class attribute equal to the queried string
    as a whole; an element whose class attribute is another string, such
    as a list of classes with the queried one among them, is not in the
    answer.  (The queried string holds no single quote.) *)
Theorem get_nodes_by_class_exact parse_xml parse_html self classname :
  PyStr.contains_char "'" classname = false ->
  run (libxml parse_xml parse_html) (get_nodes_by_class classname self) =
  (inr (map PyElement
          (filter (fun e => has_attribute e "class" classname)
                  (iter (self_tree self)))), self) /\
  (forall e v,
      In e (iter (self_tree self)) ->
      NoDup (map fst (attrib e)) ->
      get e "class" = Some v ->
      (In (PyElement e)
          (map PyElement
             (filter (fun e => has_attribute e "class" classname)
                     (iter (self_tree self)))) <->
       v = classname)).
Proof.
  intros Hc. split.
  - unfold get_nodes_by_class. rewrite run_tree_xpath.
    change (libxml parse_xml parse_html (list pyobj)
              (xpath (self_tree self) ("//*[@class='" ++ classname ++ "']")))
      with (XPath1.evaluate (self_tree self)
              ("//*[@class='" ++ classname ++ "']")).
    rewrite (evaluate_class (self_tree self) classname Hc). reflexivity.
  - intros e v He Hd Hv. rewrite in_elements.
    rewrite (has_attribute_get e "class" classname Hd), Hv.
    split.
    + intros [_ [= ->]]. reflexivity.
    + intros ->. auto.
Qed.

Lemma get_nodes_by_class_example :
  run Sample.lx (get_nodes_by_class "btn" (mkXpath Sample.class_tree None)) =
  (inr [PyElement (Sample.leaf "div" [("class", "btn")] "y");
        PyElement (Sample.leaf "span" [("class", "btn")] "z")],
   mkXpath Sample.class_tree None) /\
  (In (PyElement (Sample.leaf "div" [("class", "btn primary")] "x"))
      [PyElement (Sample.leaf "div" [("class", "btn")] "y");
       PyElement (Sample.leaf "span" [("class", "btn")] "z")] <->
   "btn primary" = "btn").
Proof.
  destruct (get_nodes_by_class_exact Sample.pages_xml Sample.no_html
              (mkXpath Sample.class_tree None) "btn" eq_refl) as [Hrun Hin].
  split.
  - exact Hrun.
  - apply (Hin (Sample.leaf "div" [("class", "btn primary")] "x")
               "btn primary").
    + simpl. auto.
    + repeat constructor. intros [].
    + reflexivity.
Defined.

(** ** Fragments in the expressions *)

(** C8, as the code has it: every tag, attribute and text query sends
    the engine its template with the caller's strings put in as they are,
    and does nothing else; [get_nth_child] puts in the decimal digits of
    its number, and raises [ValueError] without a query when the number
    has more digits than [str] converts.  A single quote in a fragment
    reaches the engine unchanged.  When the string fragments of any of
    the ten queries hold an odd number of single quotes, no double quote
    and no control character that lxml refuses, the engine rejects the
    expression; with an even number the expression can be well-formed:
    the tag "a[@href='/relative']" makes the very expression of the
    attribute query for a, href and /relative. *)
Theorem fragments_are_interpolated (self : Xpath) :
  let ask q := Call (xpath (self_tree self) q) (fun r => Ret (r, self)) in
  let rejected m :=
    forall parse_xml parse_html,
      run (libxml parse_xml parse_html) (m self) =
      (inl (XPathEvalError "Invalid expression"), self) in
  let plain s :=
    PyStr.contains_char XPath1.dquote s = false /\
    PyStr.xml_compatible s = true in
  let odd k := Nat.odd k = true in
  ((forall t, get_nodes_by_tag t self = ask ("//" ++ t)%string) /\
   (forall t a v,
       get_nodes_by_attribute t a v self =
       ask ("//" ++ t ++ "[@" ++ a ++ "='" ++ v ++ "']")%string) /\
   (forall t x,
       get_nodes_by_text t x self =
       ask ("//" ++ t ++ "[text()='" ++ x ++ "']")%string) /\
   (forall p c n s,
       PyStr.of_int n = Some s ->
       get_nth_child p c n self =
       ask ("//" ++ p ++ "/" ++ c ++ "[" ++ s ++ "]")%string) /\
   (forall p c n,
       PyStr.of_int n = None ->
       get_nth_child p c n self = Ret (inl str_digits_error, self)) /\
   (forall t x,
       get_nodes_containing_text t x self =
       ask ("//" ++ t ++ "[contains(text(), '" ++ x ++ "')]")%string) /\
   (forall t a x,
       get_nodes_by_attribute_containing_text t a x self =
       ask ("//" ++ t ++ "[contains(@" ++ a ++ ", '" ++ x ++ "')]")%string) /\
   (forall c,
       get_nodes_by_class c self = ask ("//*[@class='" ++ c ++ "']")%string) /\
   (forall i, get_nodes_by_id i self = ask ("//*[@id='" ++ i ++ "']")%string) /\
   (forall a v,
       get_nodes_by_data_attribute a v self =
       ask ("//*[@data-" ++ a ++ "='" ++ v ++ "']")%string) /\
   (forall n,
       get_nodes_by_name n self = ask ("//*[@name='" ++ n ++ "']")%string)) /\
  ((forall t,
       plain t -> odd (XPath1.quotes t) ->
       rejected (get_nodes_by_tag t)) /\
   (forall t a v,
       plain t -> plain a -> plain v ->
       odd (XPath1.quotes t + XPath1.quotes a + XPath1.quotes v) ->
       rejected (get_nodes_by_attribute t a v)) /\
   (forall t x,
       plain t -> plain x ->
       odd (XPath1.quotes t + XPath1.quotes x) ->
       rejected (get_nodes_by_text t x)) /\
   (forall p c n s,
       plain p -> plain c -> PyStr.of_int n = Some s ->
       odd (XPath1.quotes p + XPath1.quotes c) ->
       rejected (get_nth_child p c n)) /\
   (forall t x,
       plain t -> plain x ->
       odd (XPath1.quotes t + XPath1.quotes x) ->
       rejected (get_nodes_containing_text t x)) /\
   (forall t a x,
       plain t -> plain a -> plain x ->
       odd (XPath1.quotes t + XPath1.quotes a + XPath1.quotes x) ->
       rejected (get_nodes_by_attribute_containing_text t a x)) /\
   (forall c,
       plain c -> odd (XPath1.quotes c) ->
       rejected (get_nodes_by_class c)) /\
   (forall i,
       plain i -> odd (XPath1.quotes i) ->
       rejected (get_nodes_by_id i)) /\
   (forall a v,
       plain a -> plain v ->
       odd (XPath1.quotes a + XPath1.quotes v) ->
       rejected (get_nodes_by_data_attribute a v)) /\
   (forall n,
       plain n -> odd (XPath1.quotes n) ->
       rejected (get_nodes_by_name n))) /\
  get_nodes_by_tag "a[@href='/relative']" self =
  get_nodes_by_attribute "a" "href" "/relative" self.
Proof.
  cbv zeta. split; [|split; [|reflexivity]].
  - repeat split.
    + intros p c n s Hs. rewrite (get_nth_child_formatted p c n s Hs).
      reflexivity.
    + intros p c n Hs. rewrite (get_nth_child_unformatted p c n Hs).
      reflexivity.
  - repeat split; intros;
      repeat match goal with
             | H : _ /\ PyStr.xml_compatible _ = true |- _ =>
                 destruct H as [H _]
             end;
      try match goal with
          | H : PyStr.of_int ?n = Some ?s |- _ =>
              rewrite (get_nth_child_formatted _ _ n s H);
              apply of_int_decimal in H; subst s;
              destruct (decimal_unquoted n)
          end;
      apply run_rejected.
    all: try (rewrite !contains_char_app;
              repeat match goal with
                     | H : PyStr.contains_char _ _ = false |- _ =>
                         rewrite H; clear H
                     end;
              reflexivity).
    all: rewrite !quotes_app;
      cbn [XPath1.quotes Ascii.eqb Bool.eqb Nat.add];
      match goal with
      | H : Nat.odd _ = true |- _ =>
          apply Nat.odd_spec in H; destruct H as [k Hk];
          apply Nat.odd_spec; first [exists k; lia | exists (S k); lia]
      end.
Qed.

Lemma fragments_are_interpolated_example :
  run Sample.lx (get_nodes_by_tag "a'" (mkXpath Sample.links_tree None)) =
  (inl (XPathEvalError "Invalid expression"), mkXpath Sample.links_tree None)
  /\
  run Sample.lx
      (get_nodes_by_attribute "a" "hr'ef" "/relative"
                              (mkXpath Sample.links_tree None)) =
  (inl (XPathEvalError "Invalid expression"), mkXpath Sample.links_tree None)
  /\
  run Sample.lx
      (get_nodes_by_text "a" "it's" (mkXpath Sample.links_tree None)) =
  (inl (XPathEvalError "Invalid expression"), mkXpath Sample.links_tree None)
  /\
  run Sample.lx
      (get_nth_child "bo'dy" "div" 2 (mkXpath Sample.links_tree None)) =
  (inl (XPathEvalError "Invalid expression"), mkXpath Sample.links_tree None)
  /\
  run Sample.lx
      (get_nodes_by_class "it's" (mkXpath Sample.links_tree None)) =
  (inl (XPathEvalError "Invalid expression"), mkXpath Sample.links_tree None)
  /\
  get_nth_child "body" "div" 2 (mkXpath Sample.links_tree None) =
  Call (xpath Sample.links_tree "//body/div[2]")
       (fun r => Ret (r, mkXpath Sample.links_tree None)).
Proof.
  destruct (fragments_are_interpolated (mkXpath Sample.links_tree None))
    as [[_ [_ [_ [Hput _]]]]
          [[Htag [Hattr [Htext [Hnth [_ [_ [Hclass _]]]]]]] _]].
  refine (conj _ (conj _ (conj _ (conj _ (conj _ _))))).
  - apply (Htag "a'"); [split|]; reflexivity.
  - apply (Hattr "a" "hr'ef" "/relative"); [split|split|split|]; reflexivity.
  - apply (Htext "a" "it's"); [split|split|]; reflexivity.
  - apply (Hnth "bo'dy" "div" 2%Z "2"); [split|split| |]; reflexivity.
  - apply (Hclass "it's"); [split|]; reflexivity.
  - apply (Hput "body" "div" 2%Z "2"). reflexivity.
Defined.

(** C8 as stated fails: a tag that holds single quotes makes an
    expression that the engine evaluates, and the answer is the one
    anchor the smuggled predicate selects. *)
Lemma quoted_tag_is_evaluated :
  PyStr.contains_char "'" "a[@href='/relative']" = true /\
  exists self,
    run Sample.lx (__init__ Sample.links_xml "xml" None) = inr self /\
    fst (run Sample.lx (get_nodes_by_tag "a[@href='/relative']" self)) =
    inr [PyElement (Sample.leaf "a" [("href", "/relative")] "C")].
Proof.
  split; [reflexivity|].
  exists (mkXpath Sample.links_tree None). split; reflexivity.
Qed.

(** ** Errors of the engine *)
Section EngineErrors.
Local Open Scope string_scope.
Local Open Scope list_scope.

(** A method that is one query: when the engine raises, so does the
    method. *)
Lemma query_raises {C} (h : lxml) (q : string) (F : list pyobj -> C) self e :
  h _ (xpath (self_tree self) q) = inl e ->
  run h (fmap F (tree_xpath q) self) = (inl e, self).
Proof.
  intros He. unfold fmap. rewrite run_bind, run_tree_xpath, He. reflexivity.
Qed.

(** A method that asks a query and then works on the answer: when the
    engine raises, the work is not begun. *)
Lemma query_first_raises {B C} (h : lxml) (q : string)
      (k : list pyobj -> M B) (F : B -> C) self e :
  h _ (xpath (self_tree self) q) = inl e ->
  run h (fmap F (bind (tree_xpath q) k) self) = (inl e, self).
Proof.
  intros He. unfold fmap.
  rewrite run_bind, run_bind, run_tree_xpath, He. reflexivity.
Qed.

(** X2: an exception the engine raises for the method's expression
    leaves the method as it is, and the object is as before.  There is
    no handler and no default answer in any method; in
    [get_internal_links_only] the query comes before the test of the
    base URL, so that without a base URL the engine's exception is the
    one the caller sees.  ([get_nth_child] with a number that cannot be
    formatted has no expression: it raises before the engine is
    asked.) *)
Theorem engine_error_surfaces (h : lxml) (m : method) (self : Xpath) q e :
  expression m = Some q ->
  h _ (xpath (self_tree self) q) = inl e ->
  run h (dispatch m self) = (inl e, self).
Proof.
  intros Hq He.
  destruct m; cbn [expression] in Hq;
    try (injection Hq as <-;
         first [ exact (query_raises h _ _ self e He)
               | exact (query_first_raises h _ _ _ self e He) ]).
  destruct (PyStr.of_int n) as [s|] eqn:Hs; [|discriminate Hq].
  injection Hq as <-. cbn [dispatch].
  rewrite (get_nth_child_formatted _ _ _ _ Hs).
  exact (query_raises h _ _ self e He).
Qed.

Lemma engine_error_before_base_url_check :
  run (failing (XPathEvalError "Invalid expression"))
      (dispatch GetInternalLinksOnly (mkXpath Sample.links_tree None)) =
  (inl (XPathEvalError "Invalid expression"), mkXpath Sample.links_tree None).
Proof.
  apply (engine_error_surfaces (failing (XPathEvalError "Invalid expression"))
           GetInternalLinksOnly (mkXpath Sample.links_tree None)
           "//a/@href" _ eq_refl).
  reflexivity.
Defined.
End EngineErrors.

(** ** Internal and outbound links together *)
Section Together.
Local Open Scope string_scope.
Local Open Scope list_scope.

Section Strings.
Import PyStr.

Lemma prefix_trans a b c :
  String.prefix a b = true -> String.prefix b c = true ->
  String.prefix a c = true.
Proof.
  revert b c. induction a as [|x a IH]; intros b c Hab Hbc.
  - destruct c; reflexivity.
  - destruct b as [|y b]; [discriminate|].
    destruct c as [|z c]; [discriminate|].
    simpl in *.
    destruct (ascii_dec x y) as [->|]; [|discriminate].
    destruct (ascii_dec y z) as [->|]; [|discriminate].
    eapply IH; eassumption.
Qed.

Lemma lstrip_fixed s : head_space s = false -> lstrip s = s.
Proof. destruct s as [|c s]; simpl; [reflexivity | intros ->; reflexivity]. Qed.

Lemma rstrip_cons c s :
  rstrip (String c s) =
  match rstrip s with
  | EmptyString => if isspace c then EmptyString else String c EmptyString
  | String a r => String c (String a r)
  end.
Proof. reflexivity. Qed.

Lemma rstrip_fixed s : last_space s = false -> rstrip s = s.
Proof.
  induction s as [|c s IH]; [reflexivity|].
  intros H. rewrite rstrip_cons.
  destruct s as [|c' s].
  - simpl in *. rewrite H. reflexivity.
  - rewrite (IH H). reflexivity.
Qed.

Lemma strip_idempotent s : strip (strip s) = strip s.
Proof.
  destruct (strip_ends s) as [Hh Hl].
  unfold strip at 1. rewrite (lstrip_fixed _ Hh). apply rstrip_fixed, Hl.
Qed.

Lemma stripped_fixed texts : stripped (stripped texts) = stripped texts.
Proof.
  unfold stripped. induction texts as [|t texts IH]; [reflexivity|].
  cbn [filter]. destruct (truthy (strip t)) eqn:Et; [|exact IH].
  cbn [map filter]. rewrite strip_idempotent, Et. cbn [map].
  rewrite strip_idempotent. f_equal. exact IH.
Qed.

Lemma stripped_length texts : List.length (stripped texts) <= List.length texts.
Proof.
  unfold stripped. rewrite length_map. apply filter_length_le.
Qed.
End Strings.
Lemma in_strings (f : string -> bool) links l :
  In (PyString l) (map PyString (filter f links)) <-> In l links /\ f l = true.
Proof.
  rewrite <- filter_In. split.
  - intros H. apply in_map_iff in H. destruct H as [l' [[= ->] H]]. exact H.
  - apply in_map.
Qed.

Lemma http_prefix b l :
  is_http_str b = true -> PyStr.startswith l b = true -> is_http_str l = true.
Proof.
  unfold is_http_str, PyStr.startswith. intros Hb Hl.
  apply orb_true_iff in Hb. apply orb_true_iff.
  destruct Hb as [Hb|Hb]; [left|right]; eapply prefix_trans; eassumption.
Qed.

Lemma truth_http b : is_http_str b = true -> truth (Some b) = true.
Proof. destruct b; [discriminate | reflexivity]. Qed.

Lemma filter_split {A} (f g k : A -> bool) l :
  (forall x, g x = k x && f x) ->
  Permutation (filter g l ++ filter (fun x => k x && negb (f x)) l)
              (filter k l).
Proof.
  intros Hg. induction l as [|x l IH]; [constructor|].
  cbn [filter]. rewrite Hg.
  destruct (k x), (f x); cbn [andb negb app].
  - constructor. exact IH.
  - apply Permutation_sym, Permutation_cons_app, Permutation_sym, IH.
  - exact IH.
  - exact IH.
Qed.

(** What the two methods return on the same object, when the internal
    one returns at all. *)
Lemma both_lists (h : lxml) t base_url links internal outbound :
  h _ (xpath t "//a/@href") = inr (map PyString links) ->
  fst (run h (get_internal_links_only (mkXpath t base_url))) = inr internal ->
  fst (run h (get_outbound_links_only (mkXpath t base_url))) = inr outbound ->
  exists b,
    base_url = Some b /\
    internal = map PyString (filter (fun l => PyStr.startswith l b) links) /\
    outbound =
    map PyString
        (filter (fun l => is_http_str l && negb (PyStr.startswith l b)) links).
Proof.
  intros Hq Hi Ho.
  rewrite (run_get_internal_links_only h t base_url links Hq) in Hi.
  rewrite (run_get_outbound_links_only h t base_url links Hq) in Ho.
  cbn [fst] in Hi, Ho.
  destruct base_url as [b|]; [|discriminate].
  destruct (truth (Some b)); [|discriminate].
  cbn [opt_str] in Hi, Ho. injection Hi as <-. injection Ho as <-.
  exists b. auto.
Qed.
(** X3: no link is returned by both [get_internal_links_only] and
    [get_outbound_links_only]. *)
Theorem internal_and_outbound_disjoint (h : lxml) t base_url links
        internal outbound :
  h _ (xpath t "//a/@href") = inr (map PyString links) ->
  fst (run h (get_internal_links_only (mkXpath t base_url))) = inr internal ->
  fst (run h (get_outbound_links_only (mkXpath t base_url))) = inr outbound ->
  forall o, In o internal -> ~ In o outbound.
Proof.
  intros Hq Hi Ho.
  destruct (both_lists h t base_url links internal outbound Hq Hi Ho)
    as [b [_ [-> ->]]].
  intros o Hin Hout.
  apply in_map_iff in Hin. destruct Hin as [l [<- Hin]].
  apply filter_In in Hin. destruct Hin as [_ Hin].
  apply in_strings in Hout. destruct Hout as [_ Hout].
  rewrite Hin, andb_false_r in Hout. discriminate.
Qed.

Lemma internal_and_outbound_disjoint_example :
  ~ In (PyString "https://example.com/a") [PyString "https://other.com/b"].
Proof.
  apply (internal_and_outbound_disjoint Sample.lx Sample.links_tree
           (Some "https://example.com")
           ["https://example.com/a"; "https://other.com/b"; "/relative"]
           [PyString "https://example.com/a"]
           [PyString "https://other.com/b"]
           eq_refl eq_refl eq_refl (PyString "https://example.com/a")).
  left. reflexivity.
Defined.

(** X4: when the base URL is itself an http(s) URL, the two lists divide the
    http(s) links between them, and a link that is not http(s), a
    relative one for instance, is in neither. *)
Theorem http_links_divided (h : lxml) t b links internal outbound :
  h _ (xpath t "//a/@href") = inr (map PyString links) ->
  is_http_str b = true ->
  fst (run h (get_internal_links_only (mkXpath t (Some b)))) = inr internal ->
  fst (run h (get_outbound_links_only (mkXpath t (Some b)))) = inr outbound ->
  Permutation (internal ++ outbound)
              (map PyString (filter is_http_str links)) /\
  List.length internal + List.length outbound =
  List.length (filter is_http_str links) /\
  (forall l, In l links -> is_http_str l = false ->
             ~ In (PyString l) internal /\ ~ In (PyString l) outbound).
Proof.
  intros Hq Hhttp Hi Ho.
  destruct (both_lists h t (Some b) links internal outbound Hq Hi Ho)
    as [b' [[= <-] [-> ->]]].
  assert (Hperm : Permutation
                    (filter (fun l => PyStr.startswith l b) links ++
                     filter (fun l => is_http_str l
                                      && negb (PyStr.startswith l b)) links)
                    (filter is_http_str links)).
  { apply filter_split. intros l.
    destruct (PyStr.startswith l b) eqn:El.
    - rewrite (http_prefix b l Hhttp El). reflexivity.
    - rewrite andb_false_r. reflexivity. }
  split; [|split].
  - rewrite <- map_app. apply Permutation_map. exact Hperm.
  - rewrite !length_map, <- length_app. apply Permutation_length. exact Hperm.
  - intros l _ Hl. split; intros Hin; apply in_strings in Hin;
      destruct Hin as [_ Hin].
    + rewrite (http_prefix b l Hhttp Hin) in Hl. discriminate.
    + rewrite Hl in Hin. discriminate.
Qed.

Lemma http_links_divided_example :
  Permutation [PyString "https://example.com/a"; PyString "https://other.com/b"]
              [PyString "https://example.com/a"; PyString "https://other.com/b"]
  /\
  (~ In (PyString "/relative") [PyString "https://example.com/a"] /\
   ~ In (PyString "/relative") [PyString "https://other.com/b"]).
Proof.
  destruct (http_links_divided Sample.lx Sample.links_tree
              "https://example.com"
              ["https://example.com/a"; "https://other.com/b"; "/relative"]
              [PyString "https://example.com/a"]
              [PyString "https://other.com/b"]
              eq_refl eq_refl eq_refl eq_refl) as [Hperm [_ Hrest]].
  split.
  - exact Hperm.
  - apply (Hrest "/relative").
    + right. right. left. reflexivity.
    + reflexivity.
Defined.

(** ** Article text, once more *)
Lemma run_get_article_text (h : lxml) self texts :
  h _ (xpath (self_tree self) "//article//text()") = inr (map PyString texts) ->
  run h (get_article_text self) = (inr (stripped texts), self).
Proof.
  intros Hq. unfold get_article_text.
  rewrite (run_bind_ret h _ _ _ (map PyString texts))
    by (rewrite run_tree_xpath, Hq; reflexivity).
  rewrite (run_comprehension h _ _
             (fun o => match o with
                       | PyString s => PyStr.truthy (PyStr.strip s)
                       | _ => false
                       end)
             (fun o => match o with
                       | PyString s => PyStr.strip s
                       | _ => EmptyString
                       end)).
  - f_equal. f_equal. unfold stripped.
    rewrite (filter_strings (fun t => PyStr.truthy (PyStr.strip t)))
      by reflexivity.
    rewrite map_map. reflexivity.
  - intros x Hx. apply in_map_iff in Hx. destruct Hx as [s [<- _]].
    reflexivity.
  - intros x Hx _. apply in_map_iff in Hx. destruct Hx as [s [<- _]].
    reflexivity.
Qed.
(** X5: the answer of [get_article_text] is clean: given back to the method
    as text nodes, it comes out unchanged; and it is never longer than
    the list of text nodes. *)
Theorem article_text_is_clean (h h' : lxml) self self' texts result :
  h _ (xpath (self_tree self) "//article//text()") = inr (map PyString texts) ->
  fst (run h (get_article_text self)) = inr result ->
  h' _ (xpath (self_tree self') "//article//text()") =
  inr (map PyString result) ->
  fst (run h' (get_article_text self')) = inr result /\
  List.length result <= List.length texts.
Proof.
  intros Hq Hr Hq'.
  rewrite (run_get_article_text h self texts Hq) in Hr.
  injection Hr as <-.
  rewrite (run_get_article_text h' self' _ Hq'), stripped_fixed.
  split; [reflexivity | apply stripped_length].
Qed.

Lemma article_text_is_clean_example :
  fst (run Sample.lx
         (get_article_text
            (mkXpath (Sample.page
                        [mkElement "article" [] (Some "lead")
                           [Sample.leaf "p" [] "para"] None]) None))) =
  inr ["lead"; "para"] /\
  List.length ["lead"; "para"] <= List.length [" lead "; "para"; "  "].
Proof.
  apply (article_text_is_clean Sample.lx Sample.lx
           (mkXpath Sample.article_tree None)
           (mkXpath (Sample.page
                       [mkElement "article" [] (Some "lead")
                          [Sample.leaf "p" [] "para"] None]) None)
           [" lead "; "para"; "  "] ["lead"; "para"]
           eq_refl eq_refl eq_refl).
Defined.

(** ** The order of the mapping *)
Lemma keys_set_order {V} (d : PyDict.t V) k v :
  PyDict.keys (PyDict.set d k v) =
  if existsb (String.eqb k) (PyDict.keys d)
  then PyDict.keys d else PyDict.keys d ++ [k].
Proof.
  unfold PyDict.keys.
  induction d as [|[k0 v0] d IH]; [reflexivity|].
  cbn [PyDict.set map fst existsb].
  rewrite (String.eqb_sym k k0).
  destruct (k0 =? k)%string; cbn [map fst orb].
  - reflexivity.
  - rewrite IH. destruct (existsb (String.eqb k) (map fst d)); reflexivity.
Qed.

Lemma keys_fill_order {V} (kvs : list (string * V)) d :
  PyDict.keys (PyDict.fill d kvs) =
  PyDict.keys d ++ first_occurrences (PyDict.keys d) (map fst kvs).
Proof.
  revert d. induction kvs as [|[k v] kvs IH]; intros d.
  - symmetry. apply app_nil_r.
  - rewrite fill_cons, IH, keys_set_order. cbn [map fst snd first_occurrences].
    destruct (existsb (String.eqb k) (PyDict.keys d)); [reflexivity|].
    rewrite <- app_assoc. reflexivity.
Qed.

Lemma first_occurrences_length seen l :
  List.length (first_occurrences seen l) <= List.length l.
Proof.
  revert seen. induction l as [|x l IH]; intros seen; [apply Nat.le_0_l|].
  cbn [first_occurrences]. destruct (existsb _ seen); cbn [length].
  - apply Nat.le_le_succ_r, IH.
  - apply le_n_S, IH.
Qed.
(** X6: the keys of the mapping of [get_links_with_text] stand in the
    order in which the non-empty anchor texts first occur: a later anchor
    with a text that is a key already changes the value and not the
    place of the key.  The mapping has as many entries as there are
    distinct non-empty texts, at most one per anchor. *)
Theorem link_map_order (h : lxml) self anchors :
  h _ (xpath (self_tree self) "//a") = inr (map PyElement anchors) ->
  exists d,
    run h (get_links_with_text self) = (inr d, self) /\
    PyDict.keys d = first_occurrences [] (anchor_texts anchors) /\
    List.length d = List.length (first_occurrences [] (anchor_texts anchors)) /\
    List.length d <= List.length anchors.
Proof.
  intros Hq. exists (link_map anchors).
  split; [apply run_get_links_with_text; exact Hq|].
  assert (Hk : PyDict.keys (link_map anchors) =
               first_occurrences [] (anchor_texts anchors)).
  { unfold link_map. rewrite keys_fill_order, map_map. reflexivity. }
  split; [exact Hk|].
  assert (Hl : List.length (link_map anchors) =
               List.length (first_occurrences [] (anchor_texts anchors))).
  { rewrite <- Hk. unfold PyDict.keys. rewrite length_map. reflexivity. }
  split; [exact Hl|].
  rewrite Hl.
  eapply Nat.le_trans; [apply first_occurrences_length|].
  unfold anchor_texts. rewrite length_map. apply filter_length_le.
Qed.

Lemma link_map_order_example :
  exists d,
    run Sample.lx (get_links_with_text (mkXpath Sample.anchors_tree None)) =
    (inr d, mkXpath Sample.anchors_tree None) /\
    PyDict.keys d = ["Home"; "plain"; " "].
Proof.
  destruct (link_map_order Sample.lx (mkXpath Sample.anchors_tree None)
              [Sample.leaf "a" [("href", "/first")] "Home";
               Sample.leaf "a" [("href", "/second")] "Home";
               mkElement "a" [("href", "/deep")] None
                 [Sample.leaf "b" [] "Rel"] None;
               Sample.leaf "a" [] "plain";
               Sample.leaf "a" [("href", "/ws")] " "]
              eq_refl) as [d [Hrun [Hkeys _]]].
  exists d. split; [exact Hrun | exact Hkeys].
Defined.

(** ** Looking a text up *)
Lemma last_with_text_none k anchors :
  last_with_text k anchors = None ->
  forall a, In a anchors -> text a <> Some k \/ k = "".
Proof.
  induction anchors as [|a0 anchors IH]; intros Hn a Ha; [destruct Ha|].
  cbn [last_with_text] in Hn.
  destruct (last_with_text k anchors) as [a'|]; [discriminate|].
  destruct Ha as [<-|Ha]; [|apply IH; [reflexivity | exact Ha]].
  revert Hn. destruct (text a0) as [s|]; [|left; discriminate].
  cbn [opt_str truth].
  destruct (String.eqb_spec s k) as [->|Hne]; [|left; congruence].
  destruct k; [right; reflexivity | discriminate].
Qed.

Lemma last_with_text_some k anchors a :
  last_with_text k anchors = Some a ->
  k <> "" /\ text a = Some k /\
  exists l1 l2, anchors = l1 ++ a :: l2 /\
                forall a', In a' l2 -> text a' <> Some k.
Proof.
  revert a. induction anchors as [|a0 anchors IH]; intros a Hs; [discriminate|].
  cbn [last_with_text] in Hs.
  destruct (last_with_text k anchors) as [a'|] eqn:El.
  - injection Hs as <-.
    destruct (IH a' eq_refl) as [Hk [Ht [l1 [l2 [-> Hl]]]]].
    split; [exact Hk|]. split; [exact Ht|].
    exists (a0 :: l1), l2. split; [reflexivity | exact Hl].
  - destruct (text a0) as [s|] eqn:Et; cbn [opt_str truth] in Hs.
    + destruct (String.eqb_spec s k) as [->|Hne]; [|discriminate].
      destruct (PyStr.truthy k) eqn:Ek; [|discriminate].
      injection Hs as <-.
      split; [destruct k; [discriminate Ek | discriminate]|].
      split; [exact Et|].
      exists [], anchors. split; [reflexivity|].
      intros a' Ha' Ht'.
      destruct (last_with_text_none k anchors El a' Ha') as [H|H];
        [exact (H Ht') | subst k; discriminate Ek].
    + rewrite andb_false_r in Hs. discriminate.
Qed.
(** X7: looking a text up in the mapping of [get_links_with_text] gives the href of the last anchor
    with that direct text ([None] inside when it has no href), and
    nothing for the empty text or a text that no anchor has. *)
Theorem link_map_lookup (h : lxml) self anchors :
  h _ (xpath (self_tree self) "//a") = inr (map PyElement anchors) ->
  exists d,
    run h (get_links_with_text self) = (inr d, self) /\
    forall k,
      PyDict.lookup d k =
      match last_with_text k anchors with
      | Some a => Some (get a "href")
      | None => None
      end.
Proof.
  intros Hq. exists (link_map anchors).
  split; [apply run_get_links_with_text; exact Hq|].
  intros k. rewrite lookup_entries.
  destruct (last_with_text k anchors) as [a|] eqn:El.
  - destruct (last_with_text_some k anchors a El)
      as [Hk [Ht [l1 [l2 [-> Hl]]]]].
    rewrite (link_map_last l1 a l2 k Ht Hk Hl). reflexivity.
  - rewrite entries_absent; [reflexivity|].
    intros Hin. apply link_map_keys in Hin.
    destruct Hin as [Hk [a [Ha Ht]]].
    destruct (last_with_text_none k anchors El a Ha) as [H|H]; auto.
Qed.

Lemma link_map_lookup_example :
  exists d,
    run Sample.lx (get_links_with_text (mkXpath Sample.anchors_tree None)) =
    (inr d, mkXpath Sample.anchors_tree None) /\
    PyDict.lookup d "Home" = Some (Some "/second") /\
    PyDict.lookup d "Rel" = None.
Proof.
  destruct (link_map_lookup Sample.lx (mkXpath Sample.anchors_tree None)
              [Sample.leaf "a" [("href", "/first")] "Home";
               Sample.leaf "a" [("href", "/second")] "Home";
               mkElement "a" [("href", "/deep")] None
                 [Sample.leaf "b" [] "Rel"] None;
               Sample.leaf "a" [] "plain";
               Sample.leaf "a" [("href", "/ws")] " "]
              eq_refl) as [d [Hrun Hlook]].
  exists d. split; [exact Hrun|]. split.
  - exact (Hlook "Home").
  - exact (Hlook "Rel").
Defined.
End Together.

(** ** The templates, evaluated *)
Section TemplateFacts.
Import XPath1 Templates.
Local Open Scope string_scope.

(** *** Lexing names *)
Lemma idle_letter c :
  is_letter c = true -> idle c = Some ([], InName (String c EmptyString)).
Proof.
  destruct c as [[] [] [] [] [] [] [] []]; vm_compute;
    first [discriminate | reflexivity].
Qed.

Lemma lex_in_name s : forall acc rest,
  all_name_chars s = true -> breaks rest = true ->
  lex (InName acc) (s ++ rest) =
  match lex Idle rest with
  | Some ts => Some (TName (acc ++ s) :: ts)
  | None => None
  end.
Proof.
  induction s as [|c s IH]; intros acc rest Hs Hr.
  - rewrite append_empty. cbn [append].
    destruct rest as [|c r].
    + reflexivity.
    + cbn [breaks] in Hr. apply negb_true_iff in Hr.
      rewrite !lex_cons. cbn [feed]. rewrite Hr. unfold flush.
      destruct (idle c) as [[ts m]|]; [|reflexivity].
      destruct (lex m r); reflexivity.
  - cbn [all_name_chars] in Hs. apply andb_true_iff in Hs.
    destruct Hs as [Hc Hs].
    cbn [append]. rewrite lex_cons. cbn [feed]. rewrite Hc.
    rewrite (IH _ rest Hs Hr), append_snoc.
    destruct (lex Idle rest); reflexivity.
Qed.

Lemma lex_name s rest :
  is_name s = true -> breaks rest = true ->
  lex Idle (s ++ rest) =
  match lex Idle rest with
  | Some ts => Some (TName s :: ts)
  | None => None
  end.
Proof.
  destruct s as [|c s]; [discriminate|]. intros Hs Hr.
  cbn [is_name] in Hs. apply andb_true_iff in Hs. destruct Hs as [Hc Hs].
  cbn [append]. rewrite lex_cons. cbn [feed]. rewrite (idle_letter c Hc).
  rewrite (lex_in_name s _ rest Hs Hr).
  destruct (lex Idle rest); reflexivity.
Qed.

Lemma lex_after_slash s rest :
  is_name s = true ->
  lex AfterSlash (s ++ rest) =
  match lex Idle (s ++ rest) with
  | Some ts => Some (TSlash :: ts)
  | None => None
  end.
Proof.
  destruct s as [|c s]; [discriminate|]. intros Hs.
  cbn [is_name] in Hs. apply andb_true_iff in Hs. destruct Hs as [Hc _].
  cbn [append]. rewrite !lex_cons. cbn [feed].
  replace (Ascii.eqb c "/") with false
    by (destruct (Ascii.eqb_spec c "/") as [->|]; [discriminate Hc | reflexivity]).
  unfold flush. destruct (idle c) as [[ts m]|]; [|reflexivity].
  destruct (lex m (s ++ rest)); reflexivity.
Qed.

Ltac read_char :=
  rewrite lex_cons;
  match goal with
  | |- context [feed ?m ?ch] =>
      let r := eval vm_compute in (feed m ch) in
      change (feed m ch) with r; cbv beta iota
  end.

Ltac read_name :=
  rewrite lex_name by (first [assumption | reflexivity]); cbn [append].

Ltac read_literal :=
  match goal with
  | H : PyStr.contains_char "'" ?v = false |- context [lex (InLit "'"%char ?acc) (?v ++ String "'"%char ?rest)] =>
      rewrite (lex_literal "'" acc v rest H)
  end.

Lemma tokenize_tag t :
  is_name t = true ->
  tokenize ("//" ++ t) = Some [TDSlash; TName t].
Proof.
  intros Ht. unfold tokenize.
  rewrite <- (append_empty t) at 1. cbn [append].
  do 2 read_char. read_name. reflexivity.
Qed.

Lemma tokenize_attribute t a v :
  is_name t = true -> is_name a = true ->
  PyStr.contains_char "'" v = false ->
  tokenize ("//" ++ t ++ "[@" ++ a ++ "='" ++ v ++ "']") =
  Some [TDSlash; TName t; TLBrack; TAt; TName a; TEq; TLit v; TRBrack].
Proof.
  intros Ht Ha Hv. unfold tokenize. cbn [append].
  do 2 read_char. read_name. do 2 read_char. read_name.
  do 2 read_char. read_literal. reflexivity.
Qed.




Lemma tokenize_star (a : string) v :
  is_name a = true -> PyStr.contains_char "'" v = false ->
  tokenize ("//*[@" ++ a ++ "='" ++ v ++ "']") =
  Some [TDSlash; TStar; TLBrack; TAt; TName a; TEq; TLit v; TRBrack].
Proof.
  intros Ha Hv. unfold tokenize. cbn [append].
  do 5 read_char. read_name. do 2 read_char. read_literal. reflexivity.
Qed.

Lemma is_name_data a :
  all_name_chars a = true -> is_name ("data-" ++ a) = true.
Proof. intros Ha. cbn. exact Ha. Qed.

(** *** Parsing the templates *)
Lemma parse_tag t :
  is_name t = true -> parse ("//" ++ t) = Some (anywhere (NameTest t) []).
Proof. intros H. unfold parse. rewrite (tokenize_tag t H). reflexivity. Qed.

Lemma parse_attribute t a v :
  is_name t = true -> is_name a = true ->
  PyStr.contains_char "'" v = false ->
  parse ("//" ++ t ++ "[@" ++ a ++ "='" ++ v ++ "']") =
  Some (anywhere (NameTest t) [attr_is a v]).
Proof.
  intros Ht Ha Hv. unfold parse. rewrite (tokenize_attribute t a v Ht Ha Hv).
  reflexivity.
Qed.

Lemma parse_star a v :
  is_name a = true -> PyStr.contains_char "'" v = false ->
  parse ("//*[@" ++ a ++ "='" ++ v ++ "']") =
  Some (anywhere AnyName [attr_is a v]).
Proof.
  intros Ha Hv. unfold parse. rewrite (tokenize_star a v Ha Hv). reflexivity.
Qed.




(** *** A deep step with one predicate *)
Local Open Scope list_scope.

Section DeepStep.
Variable t : nodetest.
Variable p : predicate.
Variable q : xnode -> bool.
Hypothesis t_elements : on_elements t = true.
Hypothesis p_q : forall x pos size, p x pos size = q x.

Lemma marks_deep ks :
  marks (deep_step t p) ks = map (fun k => test_ok t k && on_slot q k) ks.
Proof.
  unfold marks. simpl. apply sift_flat. intros x pos. apply p_q.
Qed.

Lemma conts_deep ks : conts Child [[deep_step t p]] ks = map (found t q) ks.
Proof.
  change (conts Child [[deep_step t p]] ks)
    with (map (fun bc : bool * list path =>
                 if fst bc then [] :: snd bc else snd bc)
              (combine (marks (deep_step t p) ks) (map (fun _ => []) ks))).
  rewrite marks_deep, map_combine_map. reflexivity.
Qed.

Lemma conts_deep_attr ks :
  conts Attribute [[deep_step t p]] ks = map (fun _ => []) ks.
Proof. reflexivity. Qed.

Lemma found_text o : found t q (text_slot o) = [].
Proof.
  unfold found. destruct t; [| |discriminate t_elements];
    destruct o as [[|c s]|]; reflexivity.
Qed.

Lemma found_element c :
  emit (found t q (Some (NElement c))) (Some (NElement c)) =
  map NElement (filter (selected t q) [c]) /\
  carry [[deep_step t p]] (found t q (Some (NElement c))) = [[deep_step t p]].
Proof.
  unfold found, selected. cbn [on_slot filter].
  destruct (test_ok t (Some (NElement c)) && q (NElement c)); split; reflexivity.
Qed.

Lemma walk_deep cs :
  Forall (fun c => below [[deep_step t p]] c =
                   map NElement (filter (selected t q)
                                        (flat_map iter (children c)))) cs ->
  walk below [[deep_step t p]] cs (map (found t q) (flat_map pair_slots cs)) =
  map NElement (filter (selected t q) (flat_map iter cs)).
Proof.
  induction 1 as [|c cs Hc _ IH].
  - reflexivity.
  - change (flat_map pair_slots (c :: cs))
      with (Some (NElement c) :: text_slot (tail c) :: flat_map pair_slots cs).
    cbn [map walk]. rewrite found_text, emit_nil, IH.
    destruct (found_element c) as [-> ->]. rewrite Hc.
    cbn [flat_map]. rewrite (iter_eq c).
    change (c :: flat_map iter (children c))
      with ([c] ++ flat_map iter (children c)).
    rewrite !filter_app, !map_app, <- !app_assoc. reflexivity.
Qed.

Lemma below_deep e :
  below [[deep_step t p]] e =
  map NElement (filter (selected t q) (flat_map iter (children e))).
Proof.
  induction e as [tg at_ tx cs tl IH] using Element_induction.
  rewrite below_eq, conts_deep_attr, emit_all_nil, child_slots_eq, conts_deep.
  cbn [map app]. rewrite found_text, emit_nil.
  cbn [children app]. apply walk_deep. exact IH.
Qed.

Lemma from_root_deep doc :
  from_root [[deep_step t p]] doc =
  map NElement (filter (selected t q) (iter doc)).
Proof.
  unfold from_root. rewrite conts_deep. cbn [map].
  destruct (found_element doc) as [-> ->]. rewrite below_deep.
  rewrite (iter_eq doc).
  change (doc :: flat_map iter (children doc))
    with ([doc] ++ flat_map iter (children doc)).
  rewrite !filter_app, !map_app. reflexivity.
Qed.
End DeepStep.

(** The answer to [//t[e]] for an expression [e] that decides as [q]. *)
Lemma evaluate_anywhere doc s t e (q : xnode -> bool) :
  parse s = Some (anywhere t [PExpr e]) ->
  on_elements t = true ->
  (forall x, as_bool (denote doc e x) = q x) ->
  evaluate doc s = inr (map PyElement (filter (selected t q) (iter doc))).
Proof.
  intros Hs Ht Hq. unfold evaluate. rewrite Hs. unfold anywhere.
  cbv beta iota.
  change (denote doc (EPath true [Step true Child t [PExpr e]]) (NElement doc))
    with (VNodes (from_root
                    [[deep_step t (fun y _ _ => as_bool (denote doc e y))]] doc)).
  cbv beta iota.
  rewrite (from_root_deep t _ q Ht) by (intros x _ _; apply Hq).
  rewrite map_map. reflexivity.
Qed.











Lemma denote_attr_equals doc a v y :
  as_bool (denote doc (EEq (EPath false [Step false Attribute (NameTest a) []])
                           (ELit v)) y) = attr_equals a v y.
Proof. apply denote_attr_eq. Qed.



(** *** The answers to the templates *)
Lemma evaluate_tag doc t :
  is_name t = true ->
  evaluate doc ("//" ++ t)%string =
  inr (map PyElement (filter (named t) (iter doc))).
Proof.
  intros Ht. unfold evaluate. rewrite (parse_tag t Ht). unfold anywhere.
  cbv beta iota.
  change (denote doc (EPath true [Step true Child (NameTest t) []]) (NElement doc))
    with (VNodes (from_root [[name_step t]] doc)).
  cbv beta iota.
  rewrite from_root_named, map_map. reflexivity.
Qed.

Lemma evaluate_attribute doc t a v :
  is_name t = true -> is_name a = true ->
  PyStr.contains_char "'" v = false ->
  evaluate doc ("//" ++ t ++ "[@" ++ a ++ "='" ++ v ++ "']")%string =
  inr (map PyElement
         (filter (selected (NameTest t) (attr_equals a v)) (iter doc))).
Proof.
  intros Ht Ha Hv.
  eapply (evaluate_anywhere doc _ (NameTest t) _ (attr_equals a v)).
  - apply (parse_attribute t a v Ht Ha Hv).
  - reflexivity.
  - intros x. apply denote_attr_equals.
Qed.

Lemma evaluate_star doc a v :
  is_name a = true -> PyStr.contains_char "'" v = false ->
  evaluate doc ("//*[@" ++ a ++ "='" ++ v ++ "']")%string =
  inr (map PyElement (filter (selected AnyName (attr_equals a v)) (iter doc))).
Proof.
  intros Ha Hv.
  eapply (evaluate_anywhere doc _ AnyName _ (attr_equals a v)).
  - apply (parse_star a v Ha Hv).
  - reflexivity.
  - intros x. apply denote_attr_equals.
Qed.




(** *** The queries on every document *)
Lemma run_query parse_xml parse_html q self :
  run (libxml parse_xml parse_html) (tree_xpath q self) =
  (evaluate (self_tree self) q, self).
Proof. reflexivity. Qed.


(** X8: with the XPath engine of this development, [get_nodes_by_tag]
    answers for a tag that is a name (a letter or underscore, then
    letters, digits, hyphens, dots and underscores) the elements of the
    document with exactly that tag, the root included, in document
    order. *)
Theorem get_nodes_by_tag_all parse_xml parse_html self tagname :
  is_name tagname = true ->
  run (libxml parse_xml parse_html) (get_nodes_by_tag tagname self) =
  (inr (map PyElement
          (filter (fun e => tag e =? tagname)%string (iter (self_tree self)))),
   self).
Proof.
  intros Ht. unfold get_nodes_by_tag. rewrite run_query.
  rewrite (evaluate_tag _ _ Ht). reflexivity.
Qed.

Lemma get_nodes_by_tag_all_example :
  run Sample.lx (get_nodes_by_tag "div" (mkXpath Sample.class_tree None)) =
  (inr [PyElement (Sample.leaf "div" [("class", "btn primary")] "x");
        PyElement (Sample.leaf "div" [("class", "btn")] "y")],
   mkXpath Sample.class_tree None).
Proof.
  apply (get_nodes_by_tag_all Sample.pages_xml Sample.no_html
           (mkXpath Sample.class_tree None) "div" eq_refl).
Defined.

(** X9: with the XPath engine of this development,
    [get_nodes_by_attribute] answers, for a tag and an attribute that are
    names and a value without a single quote, the elements with that tag
    that carry the attribute with exactly that value, in document
    order. *)
Theorem get_nodes_by_attribute_exact parse_xml parse_html self
        tagname attribute value :
  is_name tagname = true -> is_name attribute = true ->
  PyStr.contains_char "'" value = false ->
  run (libxml parse_xml parse_html)
      (get_nodes_by_attribute tagname attribute value self) =
  (inr (map PyElement
          (filter (fun e => (tag e =? tagname)%string &&
                            has_attribute e attribute value)
                  (iter (self_tree self)))),
   self).
Proof.
  intros Ht Ha Hv. unfold get_nodes_by_attribute. rewrite run_query.
  rewrite (evaluate_attribute _ _ _ _ Ht Ha Hv). reflexivity.
Qed.

Lemma get_nodes_by_attribute_exact_example :
  run Sample.lx (get_nodes_by_attribute "div" "class" "btn"
                   (mkXpath Sample.class_tree None)) =
  (inr [PyElement (Sample.leaf "div" [("class", "btn")] "y")],
   mkXpath Sample.class_tree None).
Proof.
  apply (get_nodes_by_attribute_exact Sample.pages_xml Sample.no_html
           (mkXpath Sample.class_tree None) "div" "class" "btn"
           eq_refl eq_refl eq_refl).
Defined.

(** X10: with the XPath engine of this development, [get_nodes_by_id]
    and [get_nodes_by_name] answer, for a value without a single quote,
    the elements of any tag whose id (whose name) attribute is exactly
    the value, in document order: all of them, not the first one
    only. *)
Theorem get_nodes_by_id_and_name parse_xml parse_html self value :
  PyStr.contains_char "'" value = false ->
  run (libxml parse_xml parse_html) (get_nodes_by_id value self) =
  (inr (map PyElement
          (filter (fun e => has_attribute e "id" value)
                  (iter (self_tree self)))), self) /\
  run (libxml parse_xml parse_html) (get_nodes_by_name value self) =
  (inr (map PyElement
          (filter (fun e => has_attribute e "name" value)
                  (iter (self_tree self)))), self).
Proof.
  intros Hv. split.
  - unfold get_nodes_by_id. rewrite run_query.
    rewrite (evaluate_star _ "id" value eq_refl Hv). reflexivity.
  - unfold get_nodes_by_name. rewrite run_query.
    rewrite (evaluate_star _ "name" value eq_refl Hv). reflexivity.
Qed.

Lemma get_nodes_by_id_and_name_example :
  run Sample.lx
      (get_nodes_by_id "main"
         (mkXpath (Sample.page [Sample.leaf "div" [("id", "main")] "x";
                                Sample.leaf "input" [("name", "q")] "y";
                                Sample.leaf "p" [("id", "main")] "z"]) None)) =
  (inr [PyElement (Sample.leaf "div" [("id", "main")] "x");
        PyElement (Sample.leaf "p" [("id", "main")] "z")],
   mkXpath (Sample.page [Sample.leaf "div" [("id", "main")] "x";
                         Sample.leaf "input" [("name", "q")] "y";
                         Sample.leaf "p" [("id", "main")] "z"]) None).
Proof.
  apply (proj1 (get_nodes_by_id_and_name Sample.pages_xml Sample.no_html
                  (mkXpath (Sample.page
                              [Sample.leaf "div" [("id", "main")] "x";
                               Sample.leaf "input" [("name", "q")] "y";
                               Sample.leaf "p" [("id", "main")] "z"]) None)
                  "main" eq_refl)).
Defined.

(** X11: with the XPath engine of this development,
    [get_nodes_by_data_attribute] answers the elements of any tag whose
    attribute named data- followed by the given name is exactly the
    value, in document order.  The name is made of name characters and
    may be empty, the attribute is then the one named data-; the value
    holds no single quote. *)
Theorem get_nodes_by_data_attribute_exact parse_xml parse_html self
        attribute value :
  all_name_chars attribute = true ->
  PyStr.contains_char "'" value = false ->
  run (libxml parse_xml parse_html)
      (get_nodes_by_data_attribute attribute value self) =
  (inr (map PyElement
          (filter (fun e => has_attribute e ("data-" ++ attribute)%string value)
                  (iter (self_tree self)))), self).
Proof.
  intros Ha Hv. unfold get_nodes_by_data_attribute. rewrite run_query.
  change ("//*[@data-" ++ attribute ++ "='" ++ value ++ "']")%string
    with ("//*[@" ++ ("data-" ++ attribute) ++ "='" ++ value ++ "']")%string.
  rewrite (evaluate_star _ _ value (is_name_data _ Ha) Hv). reflexivity.
Qed.

Lemma get_nodes_by_data_attribute_exact_example :
  run Sample.lx
      (get_nodes_by_data_attribute "role" "nav"
         (mkXpath (Sample.page [Sample.leaf "div" [("data-role", "nav")] "x";
                                Sample.leaf "div" [("role", "nav")] "y"]) None)) =
  (inr [PyElement (Sample.leaf "div" [("data-role", "nav")] "x")],
   mkXpath (Sample.page [Sample.leaf "div" [("data-role", "nav")] "x";
                         Sample.leaf "div" [("role", "nav")] "y"]) None).
Proof.
  apply (get_nodes_by_data_attribute_exact Sample.pages_xml Sample.no_html
           (mkXpath (Sample.page
                       [Sample.leaf "div" [("data-role", "nav")] "x";
                        Sample.leaf "div" [("role", "nav")] "y"]) None)
           "role" "nav" eq_refl eq_refl).
Defined.









Lemma in_attr_values a e s :
  In s (attr_values a e) <-> In (a, s) (attrib e).
Proof.
  unfold attr_values. rewrite in_map_iff. split.
  - intros [[k v] [<- Hin]]. apply filter_In in Hin. destruct Hin as [Hin Hk].
    cbn [fst snd] in *. apply String.eqb_eq in Hk. subst k. exact Hin.
  - intros Hin. exists (a, s). split; [reflexivity|].
    apply filter_In. split; [exact Hin | apply String.eqb_refl].
Qed.

Lemma in_values_of n a l s :
  In s (flat_map (values_of n a) l) <->
  exists e, In e l /\ tag e = n /\ In (a, s) (attrib e).
Proof.
  rewrite in_flat_map. split.
  - intros [e [He Hs]]. exists e. unfold values_of, named in Hs.
    destruct (String.eqb_spec (tag e) n) as [Hn|Hn]; [|destruct Hs].
    apply in_attr_values in Hs. auto.
  - intros [e [He [Hn Hs]]]. exists e. split; [exact He|].
    unfold values_of, named. rewrite Hn, String.eqb_refl.
    apply in_attr_values. exact Hs.
Qed.

(** X15: with the XPath engine of this development, [get_images]
    answers for every document the src values of its elements named
    img, in document order, with repetitions and whatever the values
    are: a string is in the answer exactly when some img element of the
    document carries it as src, and an img element without src gives
    nothing. *)
Theorem get_images_every_document parse_xml parse_html self :
  run (libxml parse_xml parse_html) (get_images self) =
  (inr (map PyString (flat_map (values_of "img" "src") (iter (self_tree self)))),
   self) /\
  (forall s,
      In s (flat_map (values_of "img" "src") (iter (self_tree self))) <->
      exists e, In e (iter (self_tree self)) /\ tag e = "img"%string /\
                In ("src"%string, s) (attrib e)).
Proof.
  split.
  - unfold get_images. rewrite run_query, evaluate_images. reflexivity.
  - intros s. apply in_values_of.
Qed.

Lemma attr_values_absent a (l : list (string * string)) :
  ~ In a (map fst l) -> filter (fun kv => fst kv =? a)%string l = [].
Proof.
  induction l as [|[k v] l IH]; [reflexivity|].
  cbn [map fst In filter]. intros Hn.
  destruct (String.eqb_spec k a) as [->|_]; [exfalso; auto|].
  apply IH. auto.
Qed.

Lemma attr_values_once a e :
  NoDup (map fst (attrib e)) -> List.length (attr_values a e) <= 1.
Proof.
  unfold attr_values. rewrite length_map.
  induction (attrib e) as [|[k v] l IH]; intros Hd; [apply Nat.le_0_l|].
  inversion Hd as [|? ? Hk Hd']; subst. cbn [filter fst].
  destruct (String.eqb_spec k a) as [->|_].
  - rewrite (attr_values_absent a l Hk). apply Nat.le_refl.
  - apply IH. exact Hd'.
Qed.

Lemma attr_values_present a e :
  get e a <> None -> 1 <= List.length (attr_values a e).
Proof.
  unfold attr_values, get. rewrite length_map.
  induction (attrib e) as [|[k v] l IH]; intros Hg; [contradiction|].
  cbn [assoc filter fst] in *.
  destruct (k =? a)%string; [apply le_n_S, Nat.le_0_l | apply IH, Hg].
Qed.

Lemma values_count n a l :
  (forall e, In e l -> NoDup (map fst (attrib e))) ->
  List.length (flat_map (values_of n a) l) <= List.length (filter (named n) l) /\
  ((forall e, In e l -> tag e = n -> get e a <> None) ->
   List.length (flat_map (values_of n a) l) = List.length (filter (named n) l)).
Proof.
  induction l as [|e l IH]; intros Hd; [split; reflexivity|].
  destruct IH as [IHle IHeq]; [intros; apply Hd; right; assumption|].
  pose proof (attr_values_once a e (Hd e (or_introl eq_refl))) as Ho.
  cbn [flat_map filter]. rewrite length_app.
  change (values_of n a e) with (if named n e then attr_values a e else []).
  destruct (named n e) eqn:En; cbn [List.length].
  - split; [lia|]. intros Hg.
    assert (1 <= List.length (attr_values a e)).
    { apply attr_values_present, Hg; [left; reflexivity|].
      apply String.eqb_eq. exact En. }
    rewrite IHeq by (intros; apply Hg; [right|]; assumption). lia.
  - split; [exact IHle|]. intros Hg.
    apply IHeq. intros; apply Hg; [right|]; assumption.
Qed.

(** X16: with the XPath engine of this development and a document in
    which no element has an attribute twice, [get_links] answers at most
    as many links as [get_nodes_by_tag] answers elements for the tag a,
    and exactly as many when every element named a has an href. *)
Theorem anchors_and_links_count parse_xml parse_html self anchors links :
  fst (run (libxml parse_xml parse_html) (get_nodes_by_tag "a" self)) =
  inr anchors ->
  fst (run (libxml parse_xml parse_html) (get_links self)) = inr links ->
  (forall e, In e (iter (self_tree self)) -> NoDup (map fst (attrib e))) ->
  List.length links <= List.length anchors /\
  ((forall e, In e (iter (self_tree self)) -> tag e = "a"%string ->
              get e "href" <> None) ->
   List.length links = List.length anchors).
Proof.
  intros Ha Hl Hd.
  unfold get_nodes_by_tag in Ha. rewrite run_query in Ha.
  change ("//" ++ "a")%string with "//a"%string in Ha.
  rewrite evaluate_anchors in Ha. injection Ha as <-.
  unfold get_links in Hl. rewrite run_query, evaluate_links in Hl.
  injection Hl as <-.
  rewrite !length_map. apply values_count. exact Hd.
Qed.

Lemma anchors_and_links_count_example :
  List.length [PyString "https://example.com/a"; PyString "https://other.com/b";
               PyString "/relative"] <=
  List.length [PyElement (Sample.leaf "a" [("href", "https://example.com/a")] "A");
               PyElement (Sample.leaf "a" [("href", "https://other.com/b")] "B");
               PyElement (Sample.leaf "a" [("href", "/relative")] "C")].
Proof.
  apply (proj1 (anchors_and_links_count Sample.pages_xml Sample.no_html
                  (mkXpath Sample.links_tree None) _ _ eq_refl eq_refl
                  ltac:(intros e He; simpl in He;
                        repeat (destruct He as [<-|He]; [repeat constructor; simpl; tauto|]);
                        destruct He))).
Defined.

(** *** The nth child *)
Section Numbers.

Lemma lex_digits d : forall acc,
  lex (InNum acc) (NilEmpty.string_of_uint d ++ "]") =
  Some [TNum (read_digits d acc); TRBrack].
Proof.
  induction d; intros acc; cbn [NilEmpty.string_of_uint append];
    try (rewrite lex_cons; cbn [feed];
         match goal with
         | |- context [is_digit ?c] =>
             change (is_digit c) with true;
             let v := eval vm_compute in (digit_value c) in
             change (digit_value c) with v
         end;
         cbv beta iota; rewrite IHd; reflexivity).
  reflexivity.
Qed.

Lemma lex_number d :
  d <> Decimal.Nil ->
  lex Idle (NilEmpty.string_of_uint d ++ "]") =
  Some [TNum (read_digits d 0); TRBrack].
Proof.
  destruct d; intros Hd; [contradiction|..];
    cbn [NilEmpty.string_of_uint append]; rewrite lex_cons;
    match goal with
    | |- context [feed Idle ?c] =>
        let r := eval vm_compute in (feed Idle c) in
        change (feed Idle c) with r
    end;
    cbv beta iota; rewrite lex_digits; reflexivity.
Qed.

Lemma read_digits_pos d : forall acc,
  N.of_nat (read_digits d acc) =
  match N.of_nat acc with
  | N0 => Pos.of_uint d
  | Npos a => Npos (Pos.of_uint_acc d a)
  end.
Proof.
  induction d; intros acc; cbn [read_digits Pos.of_uint Pos.of_uint_acc];
    [destruct (N.of_nat acc); reflexivity|..];
    rewrite IHd;
    destruct (N.of_nat acc) as [|a] eqn:Ea;
    try (assert (acc = 0) as -> by lia; cbn; reflexivity);
    match goal with
    | |- match N.of_nat ?k with _ => _ end = _ =>
        assert (Hk : N.of_nat k = Npos (Pos.of_nat k)) by lia;
        rewrite Hk; f_equal; f_equal; lia
    end.
Qed.

Lemma read_to_uint p : Z.of_nat (read_digits (Pos.to_uint p) 0) = Zpos p.
Proof.
  pose proof (read_digits_pos (Pos.to_uint p) 0) as H.
  cbn [N.of_nat] in H. rewrite DecimalPos.Unsigned.of_to in H. lia.
Qed.

(** The tokens of the decimal digits of [n]. *)
Lemma lex_decimal n :
  lex Idle (PyStr.decimal n ++ "]") = Some (number_tokens n ++ [TRBrack])%list.
Proof.
  unfold PyStr.decimal.
  destruct n as [|p|p]; cbn [Z.to_int NilEmpty.string_of_int number_tokens].
  - reflexivity.
  - apply lex_number, DecimalPos.Unsigned.to_uint_nonnil.
  - cbn [append]. rewrite lex_cons.
    change (feed Idle "-") with (Some ([TMinus], Idle)). cbv beta iota.
    rewrite lex_number by apply DecimalPos.Unsigned.to_uint_nonnil. reflexivity.
Qed.
End Numbers.

Lemma tokenize_nth_child p c n :
  is_name p = true -> is_name c = true ->
  tokenize ("//" ++ p ++ "/" ++ c ++ "[" ++ PyStr.decimal n ++ "]") =
  Some ([TDSlash; TName p; TSlash; TName c; TLBrack] ++
        number_tokens n ++ [TRBrack])%list.
Proof.
  intros Hp Hc. unfold tokenize. cbn [append]. do 2 read_char. read_name.
  read_char. rewrite (lex_after_slash c _ Hc). read_name.
  read_char. rewrite lex_decimal. reflexivity.
Qed.

Lemma parse_nth_child p c n :
  is_name p = true -> is_name c = true ->
  parse ("//" ++ p ++ "/" ++ c ++ "[" ++ PyStr.decimal n ++ "]") =
  Some (nth_child_path p c n).
Proof.
  intros Hp Hc. unfold parse. rewrite (tokenize_nth_child p c n Hp Hc).
  destruct n as [|q|q]; cbn [number_tokens app].
  - reflexivity.
  - cbn. rewrite read_to_uint. reflexivity.
  - cbn. rewrite read_to_uint. reflexivity.
Qed.

Section NthChild.
Variables (p c : string) (n : Z).

Lemma nth_below_eq here e :
  nth_below p c n here e = scan p c n here 1 (children e).
Proof.
  destruct e as [tg at_ tx cs tl]. cbn [nth_below children].
  generalize 1. induction cs as [|x cs IH]; intros pos; [reflexivity|].
  cbn [scan]. rewrite IH. reflexivity.
Qed.

Lemma sift_nth size ks : forall pos,
  sift (fun _ pos _ => Z.eqb (Z.of_nat pos) n) size pos ks
       (map (test_ok (NameTest c)) ks) =
  (fix go (pos : nat) (ks : list slot) : list bool :=
     match ks with
     | [] => []
     | k :: ks' =>
         (test_ok (NameTest c) k && Z.eqb (Z.of_nat pos) n) ::
         go (if test_ok (NameTest c) k then S pos else pos) ks'
     end) pos ks.
Proof.
  induction ks as [|k ks IH]; intros pos; [reflexivity|].
  cbn [map sift]. destruct (test_ok (NameTest c) k) eqn:Ek.
  - rewrite IH. destruct k as [x|]; [reflexivity | discriminate Ek].
  - rewrite IH. reflexivity.
Qed.

Lemma conts_parent ks :
  conts Child [[name_step p; nth_step c n]] ks =
  map (fun k => if test_ok (NameTest p) k then [[nth_step c n]] else []) ks.
Proof.
  change (conts Child [[name_step p; nth_step c n]] ks)
    with (map (fun bc : bool * list path =>
                 if fst bc then [nth_step c n] :: snd bc else snd bc)
              (combine (map (test_ok (NameTest p)) ks) (map (fun _ => []) ks))).
  rewrite map_combine_map. reflexivity.
Qed.

Lemma conts_at_parent here ks :
  conts Child (at_parent p c n here) ks = nth_conts p c n here 1 ks.
Proof.
  destruct here; unfold at_parent; cbn [app].
  - change (conts Child [[nth_step c n]; [name_step p; nth_step c n]] ks)
      with (map (fun bc : bool * list path =>
                   if fst bc then [] :: snd bc else snd bc)
                (combine (marks (nth_step c n) ks)
                         (conts Child [[name_step p; nth_step c n]] ks))).
    rewrite conts_parent. unfold marks. cbn [s_preds s_test nth_step fold_left].
    rewrite sift_nth. generalize 1.
    induction ks as [|k ks IH]; intros pos; [reflexivity|].
    cbn [map combine nth_conts fst snd andb]. rewrite IH.
    destruct (test_ok (NameTest c) k && (Z.of_nat pos =? n)%Z); reflexivity.
  - rewrite conts_parent. generalize 1.
    induction ks as [|k ks IH]; intros pos; [reflexivity|].
    cbn [map nth_conts andb app].
    rewrite (IH (if test_ok (NameTest c) k then S pos else pos)). reflexivity.
Qed.

Lemma conts_at_parent_attr here ks :
  conts Attribute (at_parent p c n here) ks = map (fun _ => []) ks.
Proof. destruct here; reflexivity. Qed.

Lemma nth_conts_cons here pos k ks :
  nth_conts p c n here pos (k :: ks) =
  ((if here && test_ok (NameTest c) k && Z.eqb (Z.of_nat pos) n
    then [[]] else []) ++
   (if test_ok (NameTest p) k then [[nth_step c n]] else [])) ::
  nth_conts p c n here (if test_ok (NameTest c) k then S pos else pos) ks.
Proof. reflexivity. Qed.

Lemma nth_conts_text here pos o ks :
  nth_conts p c n here pos (text_slot o :: ks) =
  [] :: nth_conts p c n here pos ks.
Proof. destruct o as [[|ch s]|]; cbn; rewrite ?andb_false_r; reflexivity. Qed.

Lemma carry_at_parent here pos x :
  carry (at_parent p c n here)
        ((if here && test_ok (NameTest c) (Some (NElement x)) &&
             Z.eqb (Z.of_nat pos) n then [[]] else []) ++
         (if test_ok (NameTest p) (Some (NElement x))
          then [[nth_step c n]] else [])) =
  at_parent p c n (named p x).
Proof.
  unfold carry, at_parent, named. cbn [test_ok].
  destruct here, (tag x =? c)%string, (Z.of_nat pos =? n)%Z, (tag x =? p)%string;
    reflexivity.
Qed.

Lemma emit_at_parent here pos x :
  emit ((if here && test_ok (NameTest c) (Some (NElement x)) &&
            Z.eqb (Z.of_nat pos) n then [[]] else []) ++
        (if test_ok (NameTest p) (Some (NElement x))
         then [[nth_step c n]] else [])) (Some (NElement x)) =
  map NElement (if here && named c x && Z.eqb (Z.of_nat pos) n then [x] else []).
Proof.
  unfold named. cbn [test_ok emit].
  destruct here, (tag x =? c)%string, (Z.of_nat pos =? n)%Z, (tag x =? p)%string;
    reflexivity.
Qed.

Lemma walk_at_parent here cs :
  Forall (fun x => forall h, below (at_parent p c n h) x =
                             map NElement (nth_below p c n h x)) cs ->
  forall pos,
  walk below (at_parent p c n here) cs
       (nth_conts p c n here pos (flat_map pair_slots cs)) =
  map NElement (scan p c n here pos cs).
Proof.
  induction 1 as [|x cs Hx _ IH]; intros pos; [reflexivity|].
  change (flat_map pair_slots (x :: cs))
    with (Some (NElement x) :: text_slot (tail x) :: flat_map pair_slots cs).
  rewrite nth_conts_cons, nth_conts_text. cbn [walk scan].
  rewrite emit_at_parent, carry_at_parent, Hx, emit_nil, IH.
  cbn [app]. rewrite !map_app. reflexivity.
Qed.

Lemma below_at_parent e : forall here,
  below (at_parent p c n here) e = map NElement (nth_below p c n here e).
Proof.
  induction e as [tg at_ tx cs tl IH] using Element_induction. intros here.
  rewrite below_eq, conts_at_parent_attr, emit_all_nil, child_slots_eq.
  rewrite conts_at_parent, nth_conts_text, emit_nil. cbn [app children].
  rewrite (walk_at_parent here cs IH), nth_below_eq. reflexivity.
Qed.

Lemma from_root_nth_child doc :
  from_root [[name_step p; nth_step c n]] doc =
  map NElement (nth_children p c n doc).
Proof.
  unfold from_root. rewrite conts_parent. cbn [map].
  unfold nth_children. rewrite <- below_at_parent.
  unfold named, at_parent. cbn [test_ok].
  destruct (tag doc =? p)%string; reflexivity.
Qed.

Lemma evaluate_nth_child doc :
  is_name p = true -> is_name c = true ->
  evaluate doc ("//" ++ p ++ "/" ++ c ++ "[" ++ PyStr.decimal n ++ "]")%string =
  inr (map PyElement (nth_children p c n doc)).
Proof.
  intros Hp Hc. unfold evaluate. rewrite (parse_nth_child p c n Hp Hc).
  unfold nth_child_path. cbv beta iota.
  change (denote doc _ (NElement doc))
    with (VNodes (from_root [[name_step p; nth_step c n]] doc)).
  cbv beta iota. rewrite from_root_nth_child, map_map. reflexivity.
Qed.
End NthChild.

Section NthChildIn.
Variables (p c : string) (n : Z).

Lemma scan_in here x l : forall pos,
  In x (scan p c n here pos l) <->
  (here = true /\
   exists l1 l2, l = l1 ++ x :: l2 /\ tag x = c /\
                 Z.of_nat (pos + List.length (filter (named c) l1)) = n) \/
  (exists y, In y l /\ In x (nth_below p c n (named p y) y)).
Proof.
  induction l as [|y l IH]; intros pos.
  - cbn [scan]. split; [intros []|].
    intros [[_ [l1 [l2 [H _]]]] | [y [[] _]]]. destruct l1; discriminate H.
  - cbn [scan]. rewrite !in_app_iff, IH. split.
    + intros [Hx | [Hx | [[Hh [l1 [l2 [-> [Ht Hn]]]]] | [z [Hz Hx]]]]].
      * destruct here; [|destruct Hx].
        destruct (named c y) eqn:Ey; [|destruct Hx].
        destruct (Z.of_nat pos =? n)%Z eqn:En; [|destruct Hx].
        cbn [andb] in Hx. destruct Hx as [<-|[]].
        left. split; [reflexivity|]. exists [], l.
        split; [reflexivity|]. split; [apply String.eqb_eq, Ey|].
        apply Z.eqb_eq in En. cbn [filter List.length]. lia.
      * right. exists y. split; [left; reflexivity | exact Hx].
      * left. split; [exact Hh|]. exists (y :: l1), l2.
        split; [reflexivity|]. split; [exact Ht|].
        cbn [filter]. destruct (named c y); cbn [List.length]; lia.
      * right. exists z. split; [right; exact Hz | exact Hx].
    + intros [[Hh [l1 [l2 [Hl [Ht Hn]]]]] | [z [[<-|Hz] Hx]]].
      * destruct l1 as [|y' l1]; cbn [app] in Hl; injection Hl as <- ->.
        -- left. rewrite Hh. unfold named at 1. rewrite Ht, String.eqb_refl.
           cbn [filter List.length] in Hn.
           replace (Z.of_nat pos =? n)%Z with true
             by (symmetry; apply Z.eqb_eq; lia).
           left. reflexivity.
        -- right. right. left. split; [exact Hh|]. exists l1, l2.
           split; [reflexivity|]. split; [exact Ht|].
           cbn [filter] in Hn. destruct (named c y); cbn [List.length] in Hn; lia.
      * right. left. exact Hx.
      * right. right. right. exists z. split; assumption.
Qed.

Lemma nth_below_in x e : forall here,
  In x (nth_below p c n here e) <->
  (here = true /\ nth_named c n e x) \/
  (exists e', In e' (flat_map iter (children e)) /\ tag e' = p /\
              nth_named c n e' x).
Proof.
  induction e as [tg at_ tx cs tl IH] using Element_induction. intros here.
  rewrite nth_below_eq, scan_in. cbn [children]. unfold nth_named at 1.
  cbn [children].
  apply or_iff_compat_l. rewrite Forall_forall in IH. split.
  - intros [y [Hy Hx]]. apply (IH y Hy) in Hx.
    destruct Hx as [[Hn Hx] | [e' [He' Hx]]].
    + exists y. split; [|split; [apply String.eqb_eq, Hn | exact Hx]].
      apply in_flat_map. exists y. split; [exact Hy|].
      rewrite iter_eq. left. reflexivity.
    + exists e'. split; [|exact Hx].
      apply in_flat_map. exists y. split; [exact Hy|].
      rewrite iter_eq. right. exact He'.
  - intros [e' [He' [Ht Hx]]]. apply in_flat_map in He'.
    destruct He' as [y [Hy He']]. exists y. split; [exact Hy|].
    apply (IH y Hy). rewrite iter_eq in He'. destruct He' as [<-|He'].
    + left. split; [unfold named; rewrite Ht; apply String.eqb_refl | exact Hx].
    + right. exists e'. auto.
Qed.

Lemma nth_children_in x doc :
  In x (nth_children p c n doc) <->
  exists e, In e (iter doc) /\ tag e = p /\ nth_named c n e x.
Proof.
  unfold nth_children. rewrite nth_below_in, iter_eq. split.
  - intros [[Hn Hx] | [e [He Hx]]].
    + exists doc. split; [left; reflexivity|].
      split; [apply String.eqb_eq, Hn | exact Hx].
    + exists e. split; [right; exact He | exact Hx].
  - intros [e [[<-|He] [Ht Hx]]].
    + left. split; [unfold named; rewrite Ht; apply String.eqb_refl | exact Hx].
    + right. exists e. auto.
Qed.

Lemma nth_children_none doc : (n <= 0)%Z -> nth_children p c n doc = [].
Proof.
  intros Hn. destruct (nth_children p c n doc) as [|x l] eqn:E; [reflexivity|].
  assert (Hx : In x (nth_children p c n doc)) by (rewrite E; left; reflexivity).
  apply nth_children_in in Hx.
  destruct Hx as [e [_ [_ [l1 [l2 [_ [_ H]]]]]]]. lia.
Qed.
End NthChildIn.

(** The number that is formatted, and the one that is not. *)
Lemma of_int_fits n :
  (PyStr.digits n <= PyStr.max_str_digits)%nat ->
  PyStr.of_int n = Some (PyStr.decimal n).
Proof.
  intros Hn. unfold PyStr.of_int.
  rewrite (proj2 (Nat.leb_le _ _) Hn). reflexivity.
Qed.

Lemma of_int_long n :
  (PyStr.max_str_digits < PyStr.digits n)%nat -> PyStr.of_int n = None.
Proof.
  intros Hn. unfold PyStr.of_int.
  rewrite (proj2 (Nat.leb_gt _ _) Hn). reflexivity.
Qed.

(** X17: with the XPath engine of this development, [get_nth_child]
    answers, for a parent and a child tag that are names and every
    integer n of at most 4300 digits, in document order the elements
    that are the n-th among the children named as the child tag of some
    element named as the parent tag.  The position counts from 1 and
    counts only the children with the child tag, whatever stands between
    them; there is at most one answer per parent element and none for n
    below 1.  For an integer of more than 4300 digits the f-string
    raises [ValueError], whatever engine stands behind the tree, and the
    engine is not asked. *)
Theorem get_nth_child_position parse_xml parse_html self parent child :
  is_name parent = true -> is_name child = true ->
  (forall n,
      (PyStr.digits n <= PyStr.max_str_digits)%nat ->
      run (libxml parse_xml parse_html) (get_nth_child parent child n self) =
      (inr (map PyElement (nth_children parent child n (self_tree self))), self))
  /\
  (forall n x,
      In x (nth_children parent child n (self_tree self)) <->
      exists e, In e (iter (self_tree self)) /\ tag e = parent /\
                nth_named child n e x) /\
  (forall n,
      (n <= 0)%Z -> (PyStr.digits n <= PyStr.max_str_digits)%nat ->
      run (libxml parse_xml parse_html) (get_nth_child parent child n self) =
      (inr [], self)) /\
  (forall n (h : lxml),
      (PyStr.max_str_digits < PyStr.digits n)%nat ->
      run h (get_nth_child parent child n self) =
      (inl str_digits_error, self) /\
      trace h (get_nth_child parent child n self) = []).
Proof.
  intros Hp Hc.
  assert (H : forall n,
      (PyStr.digits n <= PyStr.max_str_digits)%nat ->
      run (libxml parse_xml parse_html) (get_nth_child parent child n self) =
      (inr (map PyElement (nth_children parent child n (self_tree self))), self)).
  { intros n Hn.
    rewrite (get_nth_child_formatted _ _ _ _ (of_int_fits n Hn)), run_query.
    rewrite (evaluate_nth_child parent child n _ Hp Hc). reflexivity. }
  split; [exact H|]. split; [|split].
  - intros n x. apply nth_children_in.
  - intros n Hn Hd. rewrite (H n Hd), nth_children_none by exact Hn.
    reflexivity.
  - intros n h Hn.
    rewrite (get_nth_child_unformatted _ _ _ (of_int_long n Hn)).
    split; reflexivity.
Qed.

Lemma get_nth_child_position_example :
  run Sample.lx
      (get_nth_child "body" "div" 2 (mkXpath Sample.class_tree None)) =
  (inr [PyElement (Sample.leaf "div" [("class", "btn")] "y")],
   mkXpath Sample.class_tree None) /\
  run Sample.lx
      (get_nth_child "body" "span" 1 (mkXpath Sample.class_tree None)) =
  (inr [PyElement (Sample.leaf "span" [("class", "btn")] "z")],
   mkXpath Sample.class_tree None) /\
  run Sample.lx
      (get_nth_child "body" "div" 0 (mkXpath Sample.class_tree None)) =
  (inr [], mkXpath Sample.class_tree None) /\
  run Sample.lx
      (get_nth_child "body" "div" (10 ^ 4300)
                     (mkXpath Sample.class_tree None)) =
  (inl str_digits_error, mkXpath Sample.class_tree None).
Proof.
  destruct (get_nth_child_position Sample.pages_xml Sample.no_html
              (mkXpath Sample.class_tree None) "body" "div" eq_refl eq_refl)
    as [Hdiv [_ [Hzero Hlong]]].
  destruct (get_nth_child_position Sample.pages_xml Sample.no_html
              (mkXpath Sample.class_tree None) "body" "span" eq_refl eq_refl)
    as [Hspan _].
  split; [|split; [|split]].
  - apply (Hdiv 2%Z). apply Nat.leb_le. reflexivity.
  - apply (Hspan 1%Z). apply Nat.leb_le. reflexivity.
  - apply (Hzero 0%Z); [discriminate | apply Nat.leb_le; reflexivity].
  - apply (Hlong (10 ^ 4300)%Z Sample.lx). apply Nat.ltb_lt.
    vm_compute. reflexivity.
Defined.
End TemplateFacts.
